(** * The browser controller of the video-analysis server

    A shallow embedding of [VideoAnalysisApp] (the front-end controller
    class): the resource loaders with their retry counter, the guarded
    upload and processing submissions, the completion poller, the
    camera preview refresh, the formatting helpers and the video player
    with its modal.

    Conventions of the embedding.

    - The controller object ([this]) is the record [App]; the page it runs
      on is [Page] (which elements exist, what the form inputs hold) and
      [Ui] (what the controller has written into the elements).
    - An [async] method is cut at its [await fetch(...)]: the part that
      runs synchronously when the method is called keeps the method's
      name and leaves a [Frame] in [inflight]; the part that runs when
      the request settles is [<name>_resume].  [response.json()] and
      [response.blob()] are delivered together with the response.
    - [setTimeout] callbacks are defunctionalised ([Callback]) and kept
      in [timers] with their delay; [inflight] and [timers] hold the most
      recent entry first; the event loop is [step].
    - What leaves the controller (notifications, network requests,
      console lines) is recorded in [out], most recent first; [history]
      reads it in the order of emission.
    - A JavaScript number is the rational it stands for ([Q]).  The
      arithmetic of the progress estimator rounds each result to the
      nearest double ([nearest_double]); [Math.round], [Math.abs] and the
      comparisons are exact on doubles.  The value drawn by
      [Math.random()] is an input of the tick.
    - A response body of another shape than the one a method reads is
      handled like a body that cannot be read.
    - The HTML written by the list renderers, the button captions, the
      loading spinner, the recording button and the debugging output of
      the poller are not modelled.
    - The video player and its modal share no state with the rest of
      the controller; they are a state of their own ([Viewer]) with its
      own events.
    - The session is one on a page that has the upload form and the
      process button, which [initVideoUpload] requires. *)

From Stdlib Require Import List String ZArith QArith Qround Qabs Lia Bool Arith.
From Stdlib Require Import DecimalString Lqa.
From Stdlib Require Import NArith Qpower.
From Stdlib Require DecimalNat DecimalFacts.
Import ListNotations.

Open Scope string_scope.
Open Scope list_scope.
Open Scope nat_scope.

(** ** Values *)

(** Interpolation of a number in a template literal. *)
Definition show_nat (n : nat) : string :=
  NilZero.string_of_uint (Nat.to_uint n).

(** [a || b] on a possibly undefined (or empty) string. *)
Definition or_else (a : option string) (b : string) : string :=
  match a with
  | Some s => if String.eqb s "" then b else s
  | None => b
  end.

Record Camera := mkCamera { id : nat; name : string }.

Record Video := mkVideo { video_filename : string }.

(** The descriptor kept in [this.currentVideo]. *)
Record VideoInfo := mkVideoInfo { filename : string }.

(** An entry of [fileInput.files]. *)
Record File := mkFile { file_name : string; file_type : string; file_size : N }.

(** Body of the reply to POST /api/process-video. *)
Record ProcessReply := mkProcessReply {
  pr_error : option string;
  processed_filename : string }.

(** Body of the reply to POST /api/upload-video.  [descriptor] is the
    body read as a video descriptor, which is how [uploadVideo] uses it. *)
Record UploadReply := mkUploadReply {
  success : bool;
  up_error : option string;
  video_info : option VideoInfo;
  descriptor : VideoInfo }.

(** Body of the reply to GET /api/stream/{cameraId}. *)
Record StreamInfo := mkStreamInfo {
  st_error : option string;
  camera_id : nat;
  camera_name : string;
  rtsp_url : string }.

Inductive Payload :=
| PCameras (l : list Camera)
| PVideos (l : list Video)
| PProcess (r : ProcessReply)
| PUpload (r : UploadReply)
| PStream (d : StreamInfo)
| PBlob (objectUrl : string)
| PResult (success : bool)                 (* the reply to a POST or DELETE of a record *)
| PEmpty.

(** How a [fetch] settles.  [json = None]: reading the body rejects. *)
Inductive Settled :=
| NetworkError (message : string)
| Response (ok : bool) (status : nat) (statusText : string) (json : option Payload).

(** ** The controller object, the page and the event loop state *)

Record App := mkApp {
  cameras : list Camera;
  videos : list Video;
  uploadedVideos : list Video;
  currentVideo : option VideoInfo;
  retryCount : nat;
  maxRetries : nat;
  isUploading : bool;
  isProcessing : bool }.

Record Page := mkPage {
  pathname : string;
  el_camerasList : bool;
  el_videosGrid : bool;
  el_uploadedVideosGrid : bool;
  el_enableDepersonalization : option bool;   (* present? and its [checked] *)
  el_processingProgressRow : bool;
  el_progressBar : bool;
  el_progressText : bool;
  el_processingStatus : bool;
  el_processedVideo : bool;
  el_uploadBtn : bool;
  el_cameraPreview : bool;
  el_cameraPreviewModal : bool;
  el_cameraStream : bool;
  el_streamStatus : bool;
  el_cameraInfo : bool }.

(** One entry of the preview grid. *)
Record Preview := mkPreview {
  camera : Camera;
  snapshot : option string;
  status : string }.

(** What [previewPanel.innerHTML] holds.  The "Failed to load camera
    previews" markup of the outer [catch] is never written: every
    per-camera promise catches its own errors. *)
Inductive Panel :=
| PanelInitial
| PanelLoading
| PanelGrid (previews : list Preview).

Inductive StreamStatus :=
| StatusHidden
| StatusConnecting
| StatusLoadingStream
| StatusTryingSnapshot.

(** The progress section handed to [startProgressPolling]. *)
Record ProgressUi := mkProgressUi {
  progressRow_display : string;
  bar_width : Q;                           (* progressBar.style.width, in percent *)
  aria_valuenow : Z;
  progressText : Z;                        (* progressText.textContent, in percent *)
  processingStatus : string;               (* statusText.textContent *)
  processedVideo_src : option string }.

(** The stream element of the preview modal. *)
Record StreamUi := mkStreamUi {
  streamStatus : StreamStatus;
  cameraStream_src : option string;
  cameraStream_onerror : option nat;       (* the camera its handlers are bound to *)
  cameraStream_replaced : option string }. (* the snapshot shown in its place *)

Record Ui := mkUi {
  videoFile : option File;                 (* fileInput.files[0] *)
  processBtn_disabled : bool;
  uploadBtn_disabled : bool;
  cameraPreview : Panel;                   (* previewPanel.innerHTML *)
  progressUi : ProgressUi;
  streamUi : StreamUi }.

Inductive Body :=
| NoBody
| FormVideo (f : File)
| JsonProcess (filename : string) (depersonalize : bool)
| JsonCamera.                              (* the fields of the camera form *)

Inductive Effect :=
| Console (line : string)
| Notification (message type : string)
| Request (method url : string) (body : Body).

(** The closures handed to [setTimeout]. *)
Inductive Callback :=
| RetryLoad (resource : string)
| HideProgressRow
| PollDeadline (job : nat)
| FirstPreviews.

(** The locals of one call of [startProgressPolling]. *)
Record Job := mkJob {
  processedFilename : string;
  progress : Q;
  lastProgress : Q;
  pollInterval : bool }.                   (* the interval has not been cleared *)

(** A suspended [async] call, waiting for its request. *)
Inductive Frame :=
| F_loadCameras
| F_loadVideos
| F_loadUploadedVideos (after_upload : bool) (* awaited by handleVideoUpload *)
| F_processVideo
| F_handleVideoUpload
| F_uploadVideo
| F_probe (job : nat)
| F_previews (cams : list Camera)           (* the fan-out of one refresh *)
| F_previewCamera
| F_loadCameraSnapshot
| F_captureSnapshot
| F_addCamera
| F_deleteCamera
| F_deleteUploadedVideo.

Record World := mkWorld {
  this : App;
  page : Page;
  ui : Ui;
  out : list Effect;
  timers : list (N * Callback);         (* pending timeouts: delay in ms, closure *)
  inflight : list Frame;
  jobs : list Job }.

(** *** Field updates *)

Definition with_this (f : App -> App) (w : World) : World :=
  mkWorld (f (this w)) (page w) (ui w) (out w) (timers w) (inflight w) (jobs w).

Definition with_ui (f : Ui -> Ui) (w : World) : World :=
  mkWorld (this w) (page w) (f (ui w)) (out w) (timers w) (inflight w) (jobs w).

Definition emit (e : Effect) (w : World) : World :=
  mkWorld (this w) (page w) (ui w) (e :: out w) (timers w) (inflight w) (jobs w).

(** [es] in the order of emission. *)
Definition emit_all (es : list Effect) (w : World) : World :=
  mkWorld (this w) (page w) (ui w) (rev es ++ out w) (timers w) (inflight w) (jobs w).

Definition setTimeout (cb : Callback) (ms : N) (w : World) : World :=
  mkWorld (this w) (page w) (ui w) (out w) ((ms, cb) :: timers w) (inflight w) (jobs w).

Definition suspend (f : Frame) (w : World) : World :=
  mkWorld (this w) (page w) (ui w) (out w) (timers w) (f :: inflight w) (jobs w).

Definition with_timers (l : list (N * Callback)) (w : World) : World :=
  mkWorld (this w) (page w) (ui w) (out w) l (inflight w) (jobs w).

Definition with_inflight (l : list Frame) (w : World) : World :=
  mkWorld (this w) (page w) (ui w) (out w) (timers w) l (jobs w).

Definition with_jobs (l : list Job) (w : World) : World :=
  mkWorld (this w) (page w) (ui w) (out w) (timers w) (inflight w) l.

Definition set_cameras (l : list Camera) : World -> World :=
  with_this (fun a => mkApp l (videos a) (uploadedVideos a) (currentVideo a)
                            (retryCount a) (maxRetries a) (isUploading a) (isProcessing a)).

Definition set_videos (l : list Video) : World -> World :=
  with_this (fun a => mkApp (cameras a) l (uploadedVideos a) (currentVideo a)
                            (retryCount a) (maxRetries a) (isUploading a) (isProcessing a)).

Definition set_uploadedVideos (l : list Video) : World -> World :=
  with_this (fun a => mkApp (cameras a) (videos a) l (currentVideo a)
                            (retryCount a) (maxRetries a) (isUploading a) (isProcessing a)).

Definition set_currentVideo (v : option VideoInfo) : World -> World :=
  with_this (fun a => mkApp (cameras a) (videos a) (uploadedVideos a) v
                            (retryCount a) (maxRetries a) (isUploading a) (isProcessing a)).

Definition set_retryCount (n : nat) : World -> World :=
  with_this (fun a => mkApp (cameras a) (videos a) (uploadedVideos a) (currentVideo a)
                            n (maxRetries a) (isUploading a) (isProcessing a)).

Definition set_isUploading (b : bool) : World -> World :=
  with_this (fun a => mkApp (cameras a) (videos a) (uploadedVideos a) (currentVideo a)
                            (retryCount a) (maxRetries a) b (isProcessing a)).

Definition set_isProcessing (b : bool) : World -> World :=
  with_this (fun a => mkApp (cameras a) (videos a) (uploadedVideos a) (currentVideo a)
                            (retryCount a) (maxRetries a) (isUploading a) b).

Definition set_videoFile (f : option File) : World -> World :=
  with_ui (fun u => mkUi f (processBtn_disabled u) (uploadBtn_disabled u)
                         (cameraPreview u) (progressUi u) (streamUi u)).

Definition set_processBtn_disabled (b : bool) : World -> World :=
  with_ui (fun u => mkUi (videoFile u) b (uploadBtn_disabled u)
                         (cameraPreview u) (progressUi u) (streamUi u)).

Definition set_uploadBtn_disabled (b : bool) : World -> World :=
  with_ui (fun u => mkUi (videoFile u) (processBtn_disabled u) b
                         (cameraPreview u) (progressUi u) (streamUi u)).

Definition set_cameraPreview (p : Panel) : World -> World :=
  with_ui (fun u => mkUi (videoFile u) (processBtn_disabled u) (uploadBtn_disabled u)
                         p (progressUi u) (streamUi u)).

Definition with_progressUi (f : ProgressUi -> ProgressUi) : World -> World :=
  with_ui (fun u => mkUi (videoFile u) (processBtn_disabled u) (uploadBtn_disabled u)
                         (cameraPreview u) (f (progressUi u)) (streamUi u)).

Definition with_streamUi (f : StreamUi -> StreamUi) : World -> World :=
  with_ui (fun u => mkUi (videoFile u) (processBtn_disabled u) (uploadBtn_disabled u)
                         (cameraPreview u) (progressUi u) (f (streamUi u))).

Definition set_progressRow_display (d : string) : World -> World :=
  with_progressUi (fun p => mkProgressUi d (bar_width p) (aria_valuenow p)
                                         (progressText p) (processingStatus p)
                                         (processedVideo_src p)).

(** The three writes that always go together: [style.width],
    [aria-valuenow] and the text of the percentage. *)
Definition show_progress (width : Q) (shown : Z) : World -> World :=
  with_progressUi (fun p => mkProgressUi (progressRow_display p) width shown shown
                                         (processingStatus p) (processedVideo_src p)).

Definition set_processingStatus (t : string) : World -> World :=
  with_progressUi (fun p => mkProgressUi (progressRow_display p) (bar_width p)
                                         (aria_valuenow p) (progressText p) t
                                         (processedVideo_src p)).

Definition set_processedVideo_src (u : string) : World -> World :=
  with_progressUi (fun p => mkProgressUi (progressRow_display p) (bar_width p)
                                         (aria_valuenow p) (progressText p)
                                         (processingStatus p) (Some u)).

Definition set_streamStatus (t : StreamStatus) : World -> World :=
  with_streamUi (fun v => mkStreamUi t (cameraStream_src v) (cameraStream_onerror v)
                                     (cameraStream_replaced v)).

(** *** The primitives the methods call *)

Definition console (line : string) : World -> World := emit (Console line).

Definition showNotification (message type : string) : World -> World :=
  emit (Notification message type).

(** [fetch(url, {method})] followed by [await]: the request goes out and
    the caller is suspended. *)
Definition fetch (method url : string) (body : Body) (k : Frame) (w : World) : World :=
  suspend k (emit (Request method url body) w).

(** What the world shows to the outside. *)
Definition history (w : World) : list Effect := rev (out w).

Definition notifications (l : list Effect) : list (string * string) :=
  flat_map (fun e => match e with Notification m t => [(m, t)] | _ => [] end) l.

Definition requests (l : list Effect) : list (string * string) :=
  flat_map (fun e => match e with Request m u _ => [(m, u)] | _ => [] end) l.

(** ** Resource loaders and their retry counter *)

(** [handleApiError(resource, error)] *)
Definition handleApiError (resource error : string) (w : World) : World :=
  let w := console ("Error loading " ++ resource ++ ": " ++ error) w in
  if retryCount (this w) <? maxRetries (this w) then
    let w := set_retryCount (retryCount (this w) + 1) w in
    let w := console ("Retrying " ++ resource ++ " (attempt "
                      ++ show_nat (retryCount (this w)) ++ "/"
                      ++ show_nat (maxRetries (this w)) ++ ")...") w in
    setTimeout (RetryLoad resource) (1000 * N.of_nat (retryCount (this w))) w
  else
    let w := showNotification ("Failed to load " ++ resource ++ " after "
                               ++ show_nat (maxRetries (this w)) ++ " attempts")
                              "error" w in
    set_retryCount 0 w.

(** The message of [new Error(`HTTP ${status}: ${statusText}`)]. *)
Definition http_error (status : nat) (statusText : string) : string :=
  "HTTP " ++ show_nat status ++ ": " ++ statusText.

Definition syntax_error : string := "SyntaxError: Unexpected token".

(** [loadCameras()] up to its [await fetch('/api/cameras')]. *)
Definition loadCameras (w : World) : World :=
  if String.eqb (pathname (page w)) "/library" then
    console "Skipping cameras load on library page - not needed" w
  else
    fetch "GET" "/api/cameras" NoBody F_loadCameras w.

Definition loadCameras_resume (s : Settled) (w : World) : World :=
  let catch error w :=
    let w := console ("Error loading cameras: " ++ error) w in
    handleApiError "cameras" error w in
  match s with
  | NetworkError e => catch e w
  | Response false status statusText _ => catch (http_error status statusText) w
  | Response true _ _ (Some (PCameras l)) =>
      let w := set_cameras l w in
      set_retryCount 0 w                     (* Reset retry count on success *)
  | Response true _ _ _ => catch syntax_error w
  end.

(** [loadVideos()] *)
Definition loadVideos (w : World) : World :=
  fetch "GET" "/api/videos" NoBody F_loadVideos w.

Definition loadVideos_resume (s : Settled) (w : World) : World :=
  let catch error w :=
    let w := console ("Error loading videos: " ++ error) w in
    handleApiError "videos" error w in
  match s with
  | NetworkError e => catch e w
  | Response false status statusText _ => catch (http_error status statusText) w
  | Response true _ _ (Some (PVideos l)) => set_videos l w
  | Response true _ _ _ => catch syntax_error w
  end.

(** [loadUploadedVideos()]; [after_upload] tells whether the call is the
    one awaited by [handleVideoUpload]. *)
Definition loadUploadedVideos (after_upload : bool) (w : World) : World :=
  if String.eqb (pathname (page w)) "/library" then
    console "Skipping uploaded videos load on library page - using page-specific logic" w
  else
    fetch "GET" "/api/uploaded-videos" NoBody (F_loadUploadedVideos after_upload) w.

(** Whether a call of [loadUploadedVideos] returns a pending promise. *)
Definition loadUploadedVideos_pending (w : World) : bool :=
  negb (String.eqb (pathname (page w)) "/library").

Definition loadUploadedVideos_resume (s : Settled) (w : World) : World :=
  let catch error w :=
    let w := console ("Error loading uploaded videos: " ++ error) w in
    handleApiError "uploaded-videos" error w in
  match s with
  | NetworkError e => catch e w
  | Response false status statusText _ => catch (http_error status statusText) w
  | Response true _ _ (Some (PVideos l)) => set_uploadedVideos l w
  | Response true _ _ _ => catch syntax_error w
  end.

(** ** Camera previews *)

Definition snapshot_url (cameraId : nat) : string :=
  "/api/stream/" ++ show_nat cameraId ++ "/snapshot".

(** The value one per-camera promise of [updateCameraPreviews] resolves
    to, from the way its snapshot request settled. *)
Definition preview_of (c : Camera) (s : Settled) : Preview :=
  match s with
  | Response true _ _ (Some (PBlob objectUrl)) => mkPreview c (Some objectUrl) "online"
  | Response true _ _ _ => mkPreview c None "offline"     (* blob() rejected: catch *)
  | Response false _ _ _ => mkPreview c None "offline"
  | NetworkError _ => mkPreview c None "offline"
  end.

(** [updateCameraPreviews()] up to [await Promise.all(previewPromises)]. *)
Definition updateCameraPreviews (w : World) : World :=
  if List.length (cameras (this w)) =? 0 then w
  else if negb (el_cameraPreview (page w)) then w
  else
    let w := set_cameraPreview PanelLoading w in
    let w := emit_all (map (fun camera => Request "GET" (snapshot_url (id camera)) NoBody)
                           (cameras (this w))) w in
    suspend (F_previews (cameras (this w))) w.

(** The rest of [updateCameraPreviews], once every snapshot request of
    the fan-out has settled; [cams] are the cameras captured by the
    promises. *)
Definition updateCameraPreviews_resume (cams : list Camera) (got : list Settled)
                                       (w : World) : World :=
  let previews := map (fun cs => preview_of (fst cs) (snd cs)) (combine cams got) in
  set_cameraPreview (PanelGrid previews) w.

(** [loadCameraSnapshot(cameraId)] *)
Definition loadCameraSnapshot (cameraId : nat) (w : World) : World :=
  fetch "GET" (snapshot_url cameraId) NoBody F_loadCameraSnapshot w.

Definition loadCameraSnapshot_resume (s : Settled) (w : World) : World :=
  let catch error w :=
    let w := console ("Error loading snapshot: " ++ error) w in
    showNotification "Error capturing snapshot" "error" w in
  match s with
  | NetworkError e => catch e w
  | Response true _ _ (Some (PBlob objectUrl)) =>
      if negb (el_cameraStream (page w) && el_streamStatus (page w)) then
        console "Camera snapshot elements not found on this page" w
      else
        with_streamUi (fun v => mkStreamUi StatusHidden (cameraStream_src v)
                                           (cameraStream_onerror v) (Some objectUrl)) w
  | Response true _ _ _ => catch "TypeError: Failed to read the body" w
  | Response false _ _ _ => showNotification "Failed to capture snapshot" "error" w
  end.

(** [showCameraPreviewModal(cameraData)] *)
Definition showCameraPreviewModal (cameraData : StreamInfo) (w : World) : World :=
  if negb (el_cameraPreviewModal (page w) && el_cameraStream (page w)
           && el_streamStatus (page w) && el_cameraInfo (page w)) then
    let w := console "Camera preview modal elements not found on this page" w in
    showNotification "Camera preview not available on this page" "warning" w
  else
    (* status "Connecting to camera...", videoElement.src, the three
       handlers of the video element *)
    with_streamUi (fun v => mkStreamUi StatusConnecting (Some (rtsp_url cameraData))
                                       (Some (camera_id cameraData))
                                       (cameraStream_replaced v)) w.

(** The handlers installed on the video element. *)
Definition cameraStream_onloadstart (w : World) : World :=
  set_streamStatus StatusLoadingStream w.

Definition cameraStream_oncanplay (w : World) : World :=
  set_streamStatus StatusHidden w.

Definition cameraStream_onerror_handler (cameraId : nat) (w : World) : World :=
  let w := set_streamStatus StatusTryingSnapshot w in
  loadCameraSnapshot cameraId w.

(** [previewCamera(cameraId)] *)
Definition previewCamera (cameraId : nat) (w : World) : World :=
  fetch "GET" ("/api/stream/" ++ show_nat cameraId) NoBody F_previewCamera w.

Definition previewCamera_resume (s : Settled) (w : World) : World :=
  let catch error w :=
    let w := console ("Error getting camera preview: " ++ error) w in
    showNotification "Error connecting to camera" "error" w in
  match s with
  | NetworkError e => catch e w
  | Response true _ _ (Some (PStream data)) => showCameraPreviewModal data w
  | Response false _ _ (Some (PStream data)) =>
      showNotification (or_else (st_error data) "Failed to get camera stream") "error" w
  | Response _ _ _ _ => catch syntax_error w
  end.

(** [captureSnapshot(cameraId)] *)
Definition captureSnapshot (cameraId : nat) (w : World) : World :=
  fetch "GET" (snapshot_url cameraId) NoBody F_captureSnapshot w.

Definition captureSnapshot_resume (s : Settled) (w : World) : World :=
  let catch error w :=
    let w := console ("Error capturing snapshot: " ++ error) w in
    showNotification "Error capturing snapshot" "error" w in
  match s with
  | NetworkError e => catch e w
  | Response true _ _ (Some (PBlob _)) =>
      showNotification "Snapshot captured and downloaded!" "success" w
  | Response true _ _ _ => catch "TypeError: Failed to read the body" w
  | Response false _ _ _ => showNotification "Failed to capture snapshot" "error" w
  end.

(** ** Records *)

(** [addCamera()] *)
Definition addCamera (w : World) : World :=
  fetch "POST" "/api/cameras" JsonCamera F_addCamera w.

Definition addCamera_resume (s : Settled) (w : World) : World :=
  let catch error w :=
    let w := console ("Error adding camera: " ++ error) w in
    showNotification "Error adding camera" "error" w in
  match s with
  | NetworkError e => catch e w
  | Response _ _ _ (Some (PResult true)) =>
      let w := showNotification "Camera added successfully!" "success" w in
      loadCameras w
  | Response _ _ _ (Some (PResult false)) => showNotification "Failed to add camera" "error" w
  | Response _ _ _ _ => catch syntax_error w
  end.

(** [deleteCamera(cameraId)]; [confirmed] is the answer to [confirm(...)]. *)
Definition deleteCamera (cameraId : nat) (confirmed : bool) (w : World) : World :=
  if negb confirmed then w
  else fetch "DELETE" ("/api/cameras/" ++ show_nat cameraId) NoBody F_deleteCamera w.

Definition deleteCamera_resume (s : Settled) (w : World) : World :=
  let catch error w :=
    let w := console ("Error deleting camera: " ++ error) w in
    showNotification "Error deleting camera" "error" w in
  match s with
  | NetworkError e => catch e w
  | Response _ _ _ (Some (PResult true)) =>
      let w := showNotification "Camera deleted successfully!" "success" w in
      loadCameras w
  | Response _ _ _ (Some (PResult false)) =>
      showNotification "Failed to delete camera" "error" w
  | Response _ _ _ _ => catch syntax_error w
  end.

(** [deleteUploadedVideo(videoId)] *)
Definition deleteUploadedVideo (videoId : nat) (confirmed : bool) (w : World) : World :=
  if negb confirmed then w
  else fetch "DELETE" ("/api/uploaded-videos/" ++ show_nat videoId) NoBody
             F_deleteUploadedVideo w.

Definition deleteUploadedVideo_resume (s : Settled) (w : World) : World :=
  let catch error w :=
    let w := console ("Error deleting video: " ++ error) w in
    showNotification "Error deleting video" "error" w in
  match s with
  | NetworkError e => catch e w
  | Response _ _ _ (Some (PResult true)) =>
      let w := showNotification "Video deleted successfully!" "success" w in
      loadUploadedVideos false w
  | Response _ _ _ (Some (PResult false)) =>
      showNotification "Failed to delete video" "error" w
  | Response _ _ _ _ => catch syntax_error w
  end.

(** ** Upload *)

Definition allowedTypes : list string :=
  ["video/mp4"; "video/avi"; "video/mov"; "video/mkv"; "video/webm"].

(** [Array.prototype.includes] on strings. *)
Definition includes (l : list string) (s : string) : bool :=
  existsb (String.eqb s) l.

(** The [finally] block of [handleVideoUpload]. *)
Definition handleVideoUpload_finally (w : World) : World :=
  let w := set_isUploading false w in          (* Reset upload flag *)
  if el_uploadBtn (page w) then set_uploadBtn_disabled false w else w.

(** The [catch] block of [handleVideoUpload]. *)
Definition handleVideoUpload_catch (message : string) (w : World) : World :=
  let w := console ("Video upload error: " ++ message) w in
  showNotification ("Upload failed: " ++ message) "error" w.

(** [handleVideoUpload()] up to [await fetch('/api/upload-video', ...)]. *)
Definition handleVideoUpload (w : World) : World :=
  (* Prevent duplicate submissions *)
  if isUploading (this w) then
    console "Upload already in progress, ignoring duplicate request" w
  else
    let w := set_isUploading true w in
    match videoFile (ui w) with
    | None =>
        let w := showNotification "Please select a video file" "warning" w in
        set_isUploading false w
    | Some file =>
        (* Validate file type *)
        if negb (includes allowedTypes (file_type file)) then
          showNotification "Please select a valid video file (MP4, AVI, MOV, MKV, WEBM)"
                           "warning" w
        else
          (* No file size limit; the formatted size is left out of the line *)
          let w := console ("Uploading video: " ++ file_name file) w in
          let w := showNotification "Uploading video..." "info" w in
          let w := if el_uploadBtn (page w) then set_uploadBtn_disabled true w else w in
          fetch "POST" "/api/upload-video" (FormVideo file) F_handleVideoUpload w
    end.

(** The rest of [handleVideoUpload] once the upload request has settled.
    On the success path it awaits [loadUploadedVideos()]; when that call
    is pending the [finally] block runs in [awaited_loadUploadedVideos_resume]. *)
Definition handleVideoUpload_resume (s : Settled) (w : World) : World :=
  match s with
  | NetworkError e => handleVideoUpload_finally (handleVideoUpload_catch e w)
  | Response false status statusText _ =>
      handleVideoUpload_finally
        (handleVideoUpload_catch
           ("Upload failed: " ++ show_nat status ++ " " ++ statusText) w)
  | Response true _ _ (Some (PUpload result)) =>
      if success result then
        let w := showNotification "Video uploaded successfully!" "success" w in
        let w := set_videoFile None w in       (* fileInput.value = '' *)
        let w := match video_info result with
                 | Some v => set_currentVideo (Some v) w
                 | None => w
                 end in
        let w := loadUploadedVideos true w in
        if loadUploadedVideos_pending w then w else handleVideoUpload_finally w
      else
        let w := showNotification (or_else (up_error result) "Upload failed") "error" w in
        handleVideoUpload_finally w
  | Response true _ _ _ =>
      handleVideoUpload_finally (handleVideoUpload_catch syntax_error w)
  end.

Definition awaited_loadUploadedVideos_resume (s : Settled) (w : World) : World :=
  handleVideoUpload_finally (loadUploadedVideos_resume s w).

(** [showVideoInfo(videoData)] *)
Definition showVideoInfo (videoData : VideoInfo) (w : World) : World :=
  set_currentVideo (Some videoData) w.

(** [uploadVideo()], the listener registered by [initVideoUpload]. *)
Definition uploadVideo (w : World) : World :=
  match videoFile (ui w) with
  | None => showNotification "Please select a video file" "error" w
  | Some file => fetch "POST" "/api/upload-video" (FormVideo file) F_uploadVideo w
  end.

Definition uploadVideo_resume (s : Settled) (w : World) : World :=
  let catch error w :=
    let w := console ("Upload error: " ++ error) w in
    showNotification "Upload failed" "error" w in
  match s with
  | NetworkError e => catch e w
  | Response true _ _ (Some (PUpload data)) =>
      let w := showVideoInfo (descriptor data) w in
      showNotification "Video uploaded successfully!" "success" w
  | Response false _ _ (Some (PUpload data)) =>
      showNotification (or_else (up_error data) "Upload failed") "error" w
  | Response _ _ _ _ => catch syntax_error w
  end.

(** ** Completion poller *)

Open Scope Q_scope.

Definition Qltb (a b : Q) : bool := negb (Qle_bool b a).

(** [Math.round] *)
Definition Math_round (x : Q) : Z := Qfloor (x + (1 # 2)).

(** [Math.abs] *)
Definition Math_abs (x : Q) : Q := Qabs x.

(** *** Numbers *)

(** The nearest integer, the even one of two that are as near. *)
Definition round_half_even (x : Q) : Z :=
  let n := Qfloor x in
  match Qcompare (x - inject_Z n) (1 # 2) with
  | Lt => n
  | Gt => (n + 1)%Z
  | Eq => if Z.even n then n else (n + 1)%Z
  end.

(** The exponent [e] with [2 ^ e <= x < 2 ^ (e + 1)], for a positive [x]. *)
Definition binade (x : Q) : Z :=
  let k := (Z.log2 (Qnum x) - Z.log2 (Zpos (Qden x)))%Z in
  if Qle_bool (2 ^ k) x then k else (k - 1)%Z.

(** The exponent of the distance between the doubles around [x]: a
    double has 53 significant bits, and below 2^-1022 the doubles are
    2^-1074 apart. *)
Definition ulp_exponent (x : Q) : Z := Z.max (binade (Qabs x) - 52) (-1074).

(** The Number value for [x]: the double nearest to it (IEEE 754
    binary64, round to nearest, ties to even).  Overflow to infinity is
    left out. *)
Definition nearest_double (x : Q) : Q :=
  if Qeq_bool x 0 then 0
  else
    let ulp := 2 ^ ulp_exponent x in
    inject_Z (round_half_even (x / ulp)) * ulp.

(** [x] is a double: rounding leaves it as it is. *)
Definition is_double (x : Q) : Prop := nearest_double x == x.

(** [a + b], [a - b] and [a * b] on numbers. *)
Definition js_add (a b : Q) : Q := nearest_double (a + b).
Definition js_sub (a b : Q) : Q := nearest_double (a - b).
Definition js_mul (a b : Q) : Q := nearest_double (a * b).

(** The estimator at the head of the interval callback,
    [progress += Math.random() * 8 + 2] with its cap; [random] is the
    value of [Math.random()]. *)
Definition advance (progress random : Q) : Q :=
  if Qltb progress 90 then
    let progress := js_add progress (js_add (js_mul random 8) 2) in
    if Qltb 90 progress then 90 else progress
  else progress.

(** The chain of [if (progress < ...)] that picks the status text. *)
Definition stage_text (progress : Q) (current : string) : string :=
  if Qltb progress 20 then "Initializing video processing..."%string
  else if Qltb progress 40 then "Analyzing video content and detecting faces..."%string
  else if Qltb progress 60 then "Processing license plates and objects..."%string
  else if Qltb progress 80 then "Applying privacy protection and blurring..."%string
  else if Qltb progress 90 then "Finalizing video encoding..."%string
  else current.

Close Scope Q_scope.

Definition processed_url (processedFilename : string) : string :=
  "/api/processed-video/" ++ processedFilename.

Fixpoint update_nth {A : Type} (n : nat) (f : A -> A) (l : list A) : list A :=
  match l, n with
  | [], _ => []
  | x :: l', O => f x :: l'
  | x :: l', S n' => x :: update_nth n' f l'
  end.

Definition update_job (j : nat) (f : Job -> Job) (w : World) : World :=
  with_jobs (update_nth j f (jobs w)) w.

Definition clearInterval (j : nat) : World -> World :=
  update_job j (fun b => mkJob (processedFilename b) (progress b) (lastProgress b) false).

(** [startProgressPolling(processedFilename, progressBar, progressText,
    statusText, processingProgressRow)]: the locals, the interval and
    the ten-minute timer.  The new job gets the next free index. *)
Definition startProgressPolling (processedFilename : string) (w : World) : World :=
  let j := List.length (jobs w) in
  let w := with_jobs (jobs w ++ [mkJob processedFilename 0 0 true]) w in
  setTimeout (PollDeadline j) 600000%N w.

(** The interval callback of job [j] up to its [await fetch(...)]. *)
Definition poll_tick (j : nat) (random : Q) (w : World) : World :=
  match nth_error (jobs w) j with
  | Some b =>
      if pollInterval b then
        let p := advance (progress b) random in
        let w := update_job j (fun b => mkJob (processedFilename b) p (lastProgress b)
                                              (pollInterval b)) w in
        let w := show_progress p (Math_round p) w in
        let w := set_processingStatus
                   (stage_text p (processingStatus (progressUi (ui w)))) w in
        fetch "GET" (processed_url (processedFilename b)) NoBody (F_probe j) w
      else w
  | None => w
  end.

(** The rest of the interval callback once the probe has settled. *)
Definition poll_tick_resume (j : nat) (s : Settled) (w : World) : World :=
  match nth_error (jobs w) j with
  | Some b =>
      match s with
      | Response true _ _ _ =>
          (* Processing is complete *)
          let w := clearInterval j w in
          let w := show_progress 100 100 w in
          let w := set_processingStatus "Processing completed successfully!" w in
          let w := if el_processedVideo (page w)
                   then set_processedVideo_src (processed_url (processedFilename b)) w
                   else w in
          let w := showNotification "Video processed successfully!" "success" w in
          setTimeout HideProgressRow 3000%N w
      | _ =>
          (* File not ready yet, continue polling *)
          let w := if Qltb (Math_abs (js_sub (progress b) (lastProgress b))) 1
                   then set_processingStatus "Processing in progress... Please wait" w
                   else w in
          update_job j (fun b => mkJob (processedFilename b) (progress b) (progress b)
                                       (pollInterval b)) w
      end
  | None => w
  end.

(** The ten-minute [setTimeout] callback of job [j]. *)
Definition poll_deadline (j : nat) (w : World) : World :=
  match nth_error (jobs w) j with
  | Some b =>
      let w := clearInterval j w in
      if Qltb (progress b) 100 then
        let w := set_processingStatus "Processing timeout - check server logs" w in
        showNotification "Processing timeout - check server logs" "warning" w
      else w
  | None => w
  end.

Definition hideProgressRow (w : World) : World :=
  if el_processingProgressRow (page w) then set_progressRow_display "none" w else w.

(** ** Processing submission *)

(** The [finally] block of [processVideo]. *)
Definition processVideo_finally (w : World) : World :=
  let w := set_isProcessing false w in         (* Reset processing flag *)
  set_processBtn_disabled false w.

(** The [catch] block of [processVideo]. *)
Definition processVideo_catch (message : string) (w : World) : World :=
  let w := console ("Processing error: " ++ message) w in
  let w := set_processingStatus "Processing failed" w in
  showNotification "Processing failed" "error" w.

(** [processVideo()] up to [await fetch('/api/process-video', ...)]. *)
Definition processVideo (w : World) : World :=
  (* Prevent duplicate submissions *)
  if isProcessing (this w) then
    console "Processing already in progress, ignoring duplicate request" w
  else
    let w := set_isProcessing true w in
    match currentVideo (this w) with
    | None =>
        let w := showNotification "Please upload a video first" "error" w in
        set_isProcessing false w
    | Some video =>
        match el_enableDepersonalization (page w) with
        | None => console "Depersonalization checkbox not found on this page" w
        | Some checked =>
            let w := if el_processingProgressRow (page w)
                     then console "Progress section shown"
                            (set_progressRow_display "block" w)
                     else console "Progress section not found!" w in
            if negb (el_progressBar (page w) && el_progressText (page w)
                     && el_processingStatus (page w)) then
              let w := console "Progress elements not found on this page" w in
              showNotification "Progress display not available" "warning" w
            else
              let w := show_progress 0 0 w in
              let w := set_processingStatus "Starting video processing..." w in
              let w := set_processBtn_disabled true w in
              fetch "POST" "/api/process-video" (JsonProcess (filename video) checked)
                    F_processVideo w
        end
    end.

(** The rest of [processVideo] once the submission has settled. *)
Definition processVideo_resume (s : Settled) (w : World) : World :=
  match s with
  | NetworkError e => processVideo_finally (processVideo_catch e w)
  | Response false _ _ (Some (PProcess errorData)) =>
      (* throw new Error(errorData.error || 'Processing failed') *)
      processVideo_finally
        (processVideo_catch (or_else (pr_error errorData) "Processing failed") w)
  | Response true _ _ (Some (PProcess data)) =>
      processVideo_finally (startProgressPolling (processed_filename data) w)
  | Response _ _ _ _ => processVideo_finally (processVideo_catch syntax_error w)
  end.

(** ** The event loop *)

(** What can happen to a running session.  Requests and timeouts are
    addressed by their position in [inflight] and [timers]. *)
Inductive Event :=
| ChooseFile (f : option File)       (* the user changes the file input *)
| Submit                             (* submit on #videoUploadForm *)
| ClickProcess                       (* click on #processVideoBtn *)
| ClickPreview (cameraId : nat)      (* app.previewCamera(id) from a rendered button *)
| ClickSnapshot (cameraId : nat)     (* app.captureSnapshot(id) *)
| SubmitCamera                       (* submit on #cameraForm *)
| ClickDeleteCamera (cameraId : nat) (confirmed : bool)
| ClickDeleteVideo (videoId : nat) (confirmed : bool)
| Online                             (* the window events *)
| Offline
| WindowError
| Settle (i : nat) (s : Settled)     (* the i-th pending request settles *)
| Join (i : nat) (got : list Settled)(* every snapshot request of a refresh has settled *)
| Fire (i : nat)                     (* the i-th pending timeout fires *)
| Tick (j : nat) (random : Q)        (* the 800 ms interval of job j fires *)
| RefreshData                        (* the 30 s interval of startAutoRefresh *)
| RefreshPreviews                    (* the 10 s interval of startAutoRefresh *)
| StreamLoadStart
| StreamCanPlay
| StreamError.

Definition remove_nth {A : Type} (i : nat) (l : list A) : list A :=
  firstn i l ++ skipn (S i) l.

(** The closure of a timeout. *)
Definition run_callback (cb : Callback) (w : World) : World :=
  match cb with
  | RetryLoad resource =>
      (* switch(resource) *)
      if String.eqb resource "cameras" then loadCameras w
      else if String.eqb resource "videos" then
        (if el_videosGrid (page w) then loadVideos w else w)
      else if String.eqb resource "uploaded-videos" then loadUploadedVideos false w
      else w
  | HideProgressRow => hideProgressRow w
  | PollDeadline j => poll_deadline j w
  | FirstPreviews => updateCameraPreviews w
  end.

(** The continuation of a suspended call. *)
Definition resume (f : Frame) (s : Settled) (w : World) : World :=
  match f with
  | F_loadCameras => loadCameras_resume s w
  | F_loadVideos => loadVideos_resume s w
  | F_loadUploadedVideos false => loadUploadedVideos_resume s w
  | F_loadUploadedVideos true => awaited_loadUploadedVideos_resume s w
  | F_processVideo => processVideo_resume s w
  | F_handleVideoUpload => handleVideoUpload_resume s w
  | F_uploadVideo => uploadVideo_resume s w
  | F_probe j => poll_tick_resume j s w
  | F_previews _ => w
  | F_previewCamera => previewCamera_resume s w
  | F_loadCameraSnapshot => loadCameraSnapshot_resume s w
  | F_captureSnapshot => captureSnapshot_resume s w
  | F_addCamera => addCamera_resume s w
  | F_deleteCamera => deleteCamera_resume s w
  | F_deleteUploadedVideo => deleteUploadedVideo_resume s w
  end.

(** The listener of the window's [online] event. *)
Definition window_online (w : World) : World :=
  let w := showNotification "Network connection restored" "success" w in
  let elsewhere := negb (String.eqb (pathname (page w)) "/library") in
  let w := if el_camerasList (page w) && elsewhere then loadCameras w else w in
  let w := if el_videosGrid (page w) && elsewhere then loadVideos w else w in
  if el_uploadedVideosGrid (page w) && elsewhere then loadUploadedVideos false w else w.

Definition step (e : Event) (w : World) : World :=
  match e with
  | ChooseFile f => set_videoFile f w
  | Submit =>
      (* listeners in registration order: bindEvents, then initVideoUpload *)
      uploadVideo (handleVideoUpload w)
  | ClickProcess =>
      (* both bindEvents and initVideoUpload registered processVideo *)
      processVideo (processVideo w)
  | ClickPreview cameraId => previewCamera cameraId w
  | ClickSnapshot cameraId => captureSnapshot cameraId w
  | SubmitCamera => addCamera w
  | ClickDeleteCamera cameraId confirmed => deleteCamera cameraId confirmed w
  | ClickDeleteVideo videoId confirmed => deleteUploadedVideo videoId confirmed w
  | Online => window_online w
  | Offline => showNotification "Network connection lost" "warning" w
  | WindowError => showNotification "An unexpected error occurred" "error" w
  | Settle i s =>
      match nth_error (inflight w) i with
      | Some (F_previews _) => w
      | Some f => resume f s (with_inflight (remove_nth i (inflight w)) w)
      | None => w
      end
  | Join i got =>
      match nth_error (inflight w) i with
      | Some (F_previews cams) =>
          if List.length got =? List.length cams then
            updateCameraPreviews_resume cams got
              (with_inflight (remove_nth i (inflight w)) w)
          else w
      | _ => w
      end
  | Fire i =>
      match nth_error (timers w) i with
      | Some (_, cb) => run_callback cb (with_timers (remove_nth i (timers w)) w)
      | None => w
      end
  | Tick j random => poll_tick j random w
  | RefreshData =>
      let w := loadCameras w in
      if el_videosGrid (page w) then loadVideos w else w
  | RefreshPreviews => updateCameraPreviews w
  | StreamLoadStart =>
      match cameraStream_onerror (streamUi (ui w)) with
      | Some _ => cameraStream_onloadstart w
      | None => w
      end
  | StreamCanPlay =>
      match cameraStream_onerror (streamUi (ui w)) with
      | Some _ => cameraStream_oncanplay w
      | None => w
      end
  | StreamError =>
      match cameraStream_onerror (streamUi (ui w)) with
      | Some cameraId => cameraStream_onerror_handler cameraId w
      | None => w
      end
  end.

Definition run (evs : list Event) (w : World) : World :=
  fold_left (fun w e => step e w) evs w.

(** The constructor followed by [init()]. *)
Definition new_App : App := mkApp [] [] [] None 0 3 false false.

Definition new_Ui : Ui :=
  mkUi None false false PanelInitial
       (mkProgressUi "none" 0 0 0 "" None)
       (mkStreamUi StatusHidden None None None).

Definition boot (p : Page) : World :=
  let w := mkWorld new_App p new_Ui [] [] [] [] in
  let w := loadCameras w in
  let w := if el_videosGrid (page w) then loadVideos w else w in
  let w := loadUploadedVideos false w in
  setTimeout FirstPreviews 2000%N w.

(** A page of the dashboard with every element the controller looks for. *)
Definition dashboard : Page :=
  mkPage "/" true true true (Some true) true true true true true true true true true
         true true.

(** ** Formatting *)

(** A whole number in a template literal or under [toString()]. *)
Definition show_Z (z : Z) : string :=
  match z with
  | Z0 => "0"
  | Zpos p => show_nat (Pos.to_nat p)
  | Zneg p => "-" ++ show_nat (Pos.to_nat p)
  end.

(** The first [n] characters of [rest] followed by [pad] over and over. *)
Fixpoint filler (n : nat) (pad rest : string) : string :=
  match n with
  | O => ""
  | S n' =>
      match rest with
      | String c rest' => String c (filler n' pad rest')
      | EmptyString =>
          match pad with
          | String c pad' => String c (filler n' pad pad')
          | EmptyString => ""
          end
      end
  end.

(** [String.prototype.padStart(targetLength, padString)] *)
Definition padStart (targetLength : nat) (padString s : string) : string :=
  filler (targetLength - String.length s) padString padString ++ s.

(** The integer part of a quotient, rounded towards zero. *)
Definition Qtrunc (x : Q) : Z := Z.quot (Qnum x) (Zpos (Qden x)).

(** [a % b] on numbers: the remainder has the sign of [a]. *)
Definition js_rem (a b : Q) : Q := (a - b * inject_Z (Qtrunc (a / b)))%Q.

(** [formatDuration(seconds)], the definition at the end of the class
    body.  The class body defines [formatDuration] a first time before
    [formatDate] (hours, minutes and seconds, "Unknown" for no value);
    the later definition replaces it, so that one never runs. *)
Definition formatDuration (seconds : Q) : string :=
  if Qeq_bool seconds 0 then "0:00"
  else
    let minutes := Qfloor (seconds / 60) in
    let remainingSeconds := Qfloor (js_rem seconds 60) in
    show_Z minutes ++ ":" ++ padStart 2 "0" (show_Z remainingSeconds).

(** ** Thumbnails of the recorded videos *)

Fixpoint drop (n : nat) (s : string) : string :=
  match n, s with
  | O, _ => s
  | S n', String _ s' => drop n' s'
  | S _, EmptyString => EmptyString
  end.

(** [s.replace(searchValue, replaceValue)] with a string to search for
    and a replacement without [$]: the first occurrence is replaced. *)
Fixpoint String_replace (searchValue replaceValue s : string) : string :=
  if prefix searchValue s then replaceValue ++ drop (String.length searchValue) s
  else
    match s with
    | EmptyString => EmptyString
    | String c s' => String c (String_replace searchValue replaceValue s')
    end.

(** [s.includes(searchString)] *)
Fixpoint String_includes (searchString s : string) : bool :=
  prefix searchString s
  || match s with
     | EmptyString => false
     | String _ s' => String_includes searchString s'
     end.

(** The source of the thumbnail in a card of [renderVideos]. *)
Definition thumbnail_src (video : Video) : string :=
  "/api/thumbnails/" ++ String_replace ".mp4" ".jpg" (video_filename video).

(** ** Attributes of an element *)

(** The attributes of an element, each name once, under the lower-case
    names by which an HTML element stores them. *)
Definition Attributes := list (string * string).

Definition getAttribute (name : string) (el : Attributes) : option string :=
  option_map snd (find (fun a => String.eqb (fst a) name) el).

Definition hasAttribute (name : string) (el : Attributes) : bool :=
  match getAttribute name el with
  | Some _ => true
  | None => false
  end.

Fixpoint setAttribute (name value : string) (el : Attributes) : Attributes :=
  match el with
  | [] => [(name, value)]
  | a :: el' =>
      if String.eqb (fst a) name then (name, value) :: el'
      else a :: setAttribute name value el'
  end.

Definition removeAttribute (name : string) (el : Attributes) : Attributes :=
  filter (fun a => negb (String.eqb (fst a) name)) el.

(** The property [inert] that the page defines on [HTMLElement.prototype]
    when the browser has none: its getter and its setter. *)
Definition inert_get (el : Attributes) : bool := hasAttribute "inert" el.

Definition inert_set (value : bool) (el : Attributes) : Attributes :=
  if value then
    let el := setAttribute "inert" EmptyString el in
    let el := setAttribute "tabindex" "-1" el in
    setAttribute "aria-hidden" "true" el
  else
    let el := removeAttribute "inert" el in
    let el := removeAttribute "tabindex" el in
    removeAttribute "aria-hidden" el.

(** ** The video player and its modal *)

(** The player and the modal share nothing with the rest of the
    controller but the notifications, so they have a state of their own.
    The page has the modal, whose listeners [bindEvents] binds only then.
    The events of the modal ([show.bs.modal] and the others) are
    Bootstrap's to dispatch and arrive as events of their own; [focus()]
    is taken to move the focus to its element, which is named by its id. *)
Record Viewer := mkViewer {
  el_videoPlayer : bool;                   (* the element is on the page *)
  videoPlayer_src : string;
  videoPlayer_paused : bool;
  videoPlayer_currentTime : Q;
  videoPlayer_onerror : list string;       (* what its error listeners notify, oldest first *)
  videoModal : Attributes;
  activeElement : option string;           (* document.activeElement *)
  previousActiveElement : option string;   (* the variable of bindEvents *)
  viewer_out : list Effect }.              (* most recent first *)

Definition with_videoPlayer (src : string) (paused : bool) (currentTime : Q)
                            (onerror : list string) (v : Viewer) : Viewer :=
  mkViewer (el_videoPlayer v) src paused currentTime onerror (videoModal v)
           (activeElement v) (previousActiveElement v) (viewer_out v).

Definition with_videoModal (el : Attributes) (v : Viewer) : Viewer :=
  mkViewer (el_videoPlayer v) (videoPlayer_src v) (videoPlayer_paused v)
           (videoPlayer_currentTime v) (videoPlayer_onerror v) el
           (activeElement v) (previousActiveElement v) (viewer_out v).

Definition with_focus (active previous : option string) (v : Viewer) : Viewer :=
  mkViewer (el_videoPlayer v) (videoPlayer_src v) (videoPlayer_paused v)
           (videoPlayer_currentTime v) (videoPlayer_onerror v) (videoModal v)
           active previous (viewer_out v).

Definition viewer_emit (es : list Effect) (v : Viewer) : Viewer :=
  mkViewer (el_videoPlayer v) (videoPlayer_src v) (videoPlayer_paused v)
           (videoPlayer_currentTime v) (videoPlayer_onerror v) (videoModal v)
           (activeElement v) (previousActiveElement v) (rev es ++ viewer_out v).

(** [playVideo(filename)]; [None] is the TypeError of a page without
    the player.  What [modal.show()] does is Bootstrap's part: it comes
    back as the events of the modal. *)
Definition playVideo (filename : string) (v : Viewer) : option Viewer :=
  if el_videoPlayer v then
    Some (with_videoPlayer ("/api/videos/" ++ filename) (videoPlayer_paused v)
                           (videoPlayer_currentTime v) (videoPlayer_onerror v) v)
  else None.

(** [playUploadedVideo(filename)] *)
Definition playUploadedVideo (filename : string) (v : Viewer) : option Viewer :=
  if el_videoPlayer v then
    (* pause(), currentTime = 0, src, and one more error listener *)
    Some (with_videoPlayer ("/api/uploaded-video/" ++ filename) true 0
            (videoPlayer_onerror v ++ ["Error loading video. Please try again."]) v)
  else None.

(** [playProcessedVideo(filename)] *)
Definition playProcessedVideo (filename : string) (v : Viewer) : option Viewer :=
  if el_videoPlayer v then
    Some (with_videoPlayer ("/api/processed-video/" ++ filename) true 0
            (videoPlayer_onerror v
             ++ ["Error loading processed video. Please try again."]) v)
  else None.

(** The listeners of the modal's events, bound by [bindEvents]. *)
Definition videoModal_show (v : Viewer) : Viewer :=
  let v := with_focus (activeElement v) (activeElement v) v in
  let v := with_videoModal (removeAttribute "aria-hidden" (videoModal v)) v in
  with_videoModal (removeAttribute "inert" (videoModal v)) v.

Definition videoModal_shown (v : Viewer) : Viewer :=
  if el_videoPlayer v then with_focus (Some "videoPlayer") (previousActiveElement v) v
  else v.

Definition videoModal_hide (v : Viewer) : Viewer :=
  with_videoModal (setAttribute "inert" EmptyString (videoModal v)) v.

Definition videoModal_hidden (v : Viewer) : Viewer :=
  let v := if el_videoPlayer v
           then with_videoPlayer EmptyString true 0 (videoPlayer_onerror v) v
           else v in
  let v := with_videoModal (removeAttribute "inert" (videoModal v)) v in
  match previousActiveElement v with
  | Some e => with_focus (Some e) (previousActiveElement v) v
  | None => v
  end.

(** The error listeners of the player, in the order of registration. *)
Definition videoPlayer_error (v : Viewer) : Viewer :=
  viewer_emit (map (fun message => Notification message "error") (videoPlayer_onerror v)) v.

Inductive ViewerEvent :=
| ClickPlay (filename : string)
| ClickPlayUploaded (filename : string)
| ClickPlayProcessed (filename : string)
| ModalShow
| ModalShown
| ModalHide
| ModalHidden
| PlayerError
| FocusMoved (to : option string).

(** An exception in a click handler leaves the page as it was. *)
Definition or_unchanged (r : option Viewer) (v : Viewer) : Viewer :=
  match r with
  | Some v' => v'
  | None => v
  end.

Definition viewer_step (e : ViewerEvent) (v : Viewer) : Viewer :=
  match e with
  | ClickPlay filename => or_unchanged (playVideo filename v) v
  | ClickPlayUploaded filename => or_unchanged (playUploadedVideo filename v) v
  | ClickPlayProcessed filename => or_unchanged (playProcessedVideo filename v) v
  | ModalShow => videoModal_show v
  | ModalShown => videoModal_shown v
  | ModalHide => videoModal_hide v
  | ModalHidden => videoModal_hidden v
  | PlayerError => videoPlayer_error v
  | FocusMoved to => with_focus to (previousActiveElement v) v
  end.

Definition viewer_run (evs : list ViewerEvent) (v : Viewer) : Viewer :=
  fold_left (fun v e => viewer_step e v) evs v.

(** * Vocabulary of the properties *)

(** [keeps f h]: the handler [h] leaves the observation [f] alone. *)
Abbreviation keeps f h := (forall w : World, f (h w) = f w).

(** ** Retry counter *)

Definition retry_view (w : World) : nat * nat :=
  (retryCount (this w), maxRetries (this w)).

(** The counter stays within the maximum set by the constructor. *)
Definition retry_ok (w : World) : Prop :=
  retryCount (this w) <= maxRetries (this w) /\ maxRetries (this w) = 3.

Definition final_failure (resource : string) (max : nat) : string * string :=
  (("Failed to load " ++ resource ++ " after " ++ show_nat max ++ " attempts")%string,
   "error").

(** [n] consecutive failed fetches of [resource]. *)
Fixpoint fail_times (n : nat) (resource error : string) (w : World) : World :=
  match n with
  | O => w
  | S n' => handleApiError resource error (fail_times n' resource error w)
  end.

(** ** Guards *)

Definition is_submission (f : Frame) : bool :=
  match f with F_processVideo => true | _ => false end.

(** The frames of a call of [handleVideoUpload]: its upload request, or
    the reload of the list it awaits afterwards. *)
Definition is_upload (f : Frame) : bool :=
  match f with
  | F_handleVideoUpload | F_loadUploadedVideos true => true
  | _ => false
  end.

Definition is_upload_request (f : Frame) : bool :=
  match f with F_handleVideoUpload => true | _ => false end.

Definition count (P : Frame -> bool) (l : list Frame) : nat :=
  List.length (filter P l).

(** Suspended calls of [processVideo] and of [handleVideoUpload]. *)
Definition submitting (w : World) : nat := count is_submission (inflight w).
Definition uploading (w : World) : nat := count is_upload (inflight w).

(** Each guard with what it protects. *)
Definition processing_view (w : World) : bool * nat :=
  (isProcessing (this w), submitting w).

Definition uploading_view (w : World) : bool * nat :=
  (isUploading (this w), uploading w).

Definition guards_view (w : World) : (bool * nat) * (bool * nat) :=
  (processing_view w, uploading_view w).

(** What each guard promises: at most one guarded call is suspended, and
    while one is, the flag is up. *)
Definition single_flight (v : bool * nat) : Prop :=
  snd v <= 1 /\ (snd v = 1 -> fst v = true).

Definition guarded (w : World) : Prop :=
  single_flight (processing_view w) /\ single_flight (uploading_view w).

(** Jobs whose interval is running. *)
Definition polling (w : World) : nat :=
  List.length (filter pollInterval (jobs w)).

(** ** Poller *)

Definition is_submission_request (e : Effect) : bool :=
  match e with
  | Request method url _ => String.eqb method "POST" && String.eqb url "/api/process-video"
  | _ => false
  end.

(** Processing requests the session has sent so far. *)
Definition submissions (w : World) : nat :=
  List.length (filter is_submission_request (out w)).

(** The progress on display: the width of the bar and the percentage. *)
Definition width (w : World) : Q := bar_width (progressUi (ui w)).
Definition shown (w : World) : Z := aria_valuenow (progressUi (ui w)).

(** [Math.random()] returns a number in [0, 1). *)
Definition valid_draw (e : Event) : Prop :=
  match e with
  | Tick _ random => (0 <= random /\ random < 1)%Q
  | _ => True
  end.

(** The event is a completion probe that returns success. *)
Definition confirms (w : World) (e : Event) : bool :=
  match e with
  | Settle i (Response true _ _ _) =>
      match nth_error (inflight w) i with
      | Some (F_probe _) => true
      | _ => false
      end
  | _ => false
  end.

(** Some completion probe returns success in the course of [evs]. *)
Fixpoint confirmed (evs : list Event) (w : World) : bool :=
  match evs with
  | [] => false
  | e :: evs' => confirms w e || confirmed evs' (step e w)
  end.

(** The jobs that have a probe in flight. *)
Definition probes (w : World) : list nat :=
  flat_map (fun f => match f with F_probe j => [j] | _ => [] end) (inflight w).

(** What the poller's invariant looks at. *)
Record PollerView := mkView {
  v_jobs : list Job;
  v_width : Q;
  v_shown : Z;
  v_submissions : nat;
  v_submitting : nat;
  v_probes : list nat }.

Definition poller_view (w : World) : PollerView :=
  mkView (jobs w) (width w) (shown w) (submissions w) (submitting w) (probes w).

(** Rounding to a whole multiple of [2 ^ c]. *)
Definition grid (c : Z) (x : Q) : Q := (inject_Z (round_half_even (x / 2 ^ c)) * 2 ^ c)%Q.






(** Whether a call of [processVideo] gets as far as its request. *)
Definition accepts (w : World) : bool :=
  negb (isProcessing (this w))
  && match currentVideo (this w), el_enableDepersonalization (page w) with
     | Some _, Some _ =>
         el_progressBar (page w) && el_progressText (page w) && el_processingStatus (page w)
     | _, _ => false
     end.

(** The probe found the processed file. *)
Definition found (s : Settled) : bool :=
  match s with
  | Response true _ _ _ => true
  | _ => false
  end.

(** Everything the invariants look at. *)
Definition core_view (w : World) :=
  (retry_view w, guards_view w, poller_view w).

(** The events that only run handlers which touch none of this. *)
Definition bystander (e : Event) : bool :=
  match e with
  | ChooseFile _ | ClickPreview _ | ClickSnapshot _ | SubmitCamera
  | ClickDeleteCamera _ _ | ClickDeleteVideo _ _ | Online | Offline | WindowError
  | RefreshData | RefreshPreviews | StreamLoadStart | StreamCanPlay | StreamError => true
  | _ => false
  end.

(** The continuations that touch none of it. *)
Definition bystander_frame (f : Frame) : bool :=
  match f with
  | F_uploadVideo | F_previews _ | F_previewCamera | F_loadCameraSnapshot
  | F_captureSnapshot | F_addCamera | F_deleteCamera | F_deleteUploadedVideo => true
  | _ => false
  end.

(** ** A session on the dashboard *)

Definition ok (p : Payload) : Settled := Response true 200 "OK" (Some p).

Definition clip : File := mkFile "clip.mp4" "video/mp4" 10485760.
Definition notes : File := mkFile "notes.pdf" "application/pdf" 2048.

Definition gate : Camera := mkCamera 1 "Gate".
Definition yard : Camera := mkCamera 2 "Yard".

Definition upload_reply : UploadReply :=
  mkUploadReply true None (Some (mkVideoInfo "clip.mp4")) (mkVideoInfo "clip.mp4").

Definition process_reply (processed : string) : ProcessReply :=
  mkProcessReply None processed.

Definition unreachable : Settled := NetworkError "TypeError: Failed to fetch".

(** The three initial loads settle; two seconds after the start the first
    preview refresh runs: the gate delivers a snapshot, the yard cannot be
    reached. *)
Definition load_events : list Event :=
  [Settle 2 (ok (PCameras [gate; yard])); Settle 1 (ok (PVideos []));
   Settle 0 (ok (PVideos []));
   Fire 0; Join 0 [ok (PBlob "blob:gate-1"); unreachable]].

(** [clip] is chosen, submitted and stored by the backend. *)
Definition upload_events : list Event :=
  [ChooseFile (Some clip); Submit;
   Settle 1 (ok (PUpload upload_reply));
   Settle 0 (ok (PVideos [mkVideo "clip.mp4"]));
   Settle 0 (ok (PUpload upload_reply))].

(** Processing of the clip is requested and accepted by the backend, and
    the interval fires once. *)
Definition process_events : list Event :=
  [ClickProcess; Settle 0 (ok (PProcess (process_reply "processed_clip.mp4")));
   Tick 0 (1 # 2)].

(** The first probe finds nothing, the second one, after another tick,
    finds the processed file; three seconds later the progress section
    is hidden. *)
Definition completion_events : list Event :=
  [Settle 0 (Response false 404 "NOT FOUND" None); Tick 0 (3 # 4);
   Settle 0 (Response true 200 "OK" None); Fire 0].

Definition loaded_on (p : Page) : World := run load_events (boot p).
Definition uploaded_on (p : Page) : World := run upload_events (loaded_on p).

Definition loaded : World := loaded_on dashboard.
Definition uploaded : World := uploaded_on dashboard.

(** The backend refuses the processing request and says why. *)
Definition rejected : Settled :=
  Response false 400 "BAD REQUEST"
           (Some (PProcess (mkProcessReply (Some "Video file not found") ""))).

(** The body delivered with a response. *)
Definition json_of (s : Settled) : option Payload :=
  match s with
  | NetworkError _ => None
  | Response _ _ _ json => json
  end.

(** The request failed: network error or non-success status. *)
Definition failed (s : Settled) : bool :=
  match s with
  | NetworkError _ => true
  | Response ok _ _ _ => negb ok
  end.

(** A page without the depersonalization checkbox. *)
Definition plain_page : Page :=
  mkPage "/" true true true None true true true true true true true true true true true.

Arguments processing_view : simpl never.
Arguments uploading_view : simpl never.
Arguments guards_view : simpl never.
Arguments retry_view : simpl never.
Arguments poller_view : simpl never.
Arguments core_view : simpl never.

(** ** Requests of the resource loaders *)

Inductive Resource := Cameras | Videos | UploadedVideos.

(** The key [handleApiError] is called with. *)
Definition resource_name (r : Resource) : string :=
  match r with
  | Cameras => "cameras"
  | Videos => "videos"
  | UploadedVideos => "uploaded-videos"
  end.

Definition resource_url (r : Resource) : string := "/api/" ++ resource_name r.

Definition is_load (r : Resource) (e : Effect) : bool :=
  match e with
  | Request method url _ => String.eqb method "GET" && String.eqb url (resource_url r)
  | _ => false
  end.

(** The requests for the list of [r] the session has sent. *)
Definition loads (r : Resource) (w : World) : list Effect :=
  filter (is_load r) (out w).

(** The page on which the list of [r] is not asked for: the library page
    for cameras and uploaded videos, a page without the grid of recorded
    videos for those. *)
Definition skipped (r : Resource) (p : Page) : bool :=
  match r with
  | Cameras | UploadedVideos => String.eqb (pathname p) "/library"
  | Videos => negb (el_videosGrid p)
  end.

(** [h] sends no request for a list that the page skips. *)
Definition quiet (h : World -> World) : Prop :=
  forall r w, skipped r (page w) = true ->
              page (h w) = page w /\ loads r (h w) = loads r w.

Definition library : Page :=
  mkPage "/library" true true true (Some true) true true true true true true true true
         true true true.

(** The dashboard with the section of recorded videos taken out. *)
Definition no_recordings : Page :=
  mkPage "/" true false true (Some true) true true true true true true true true true
         true true.

Arguments loads : simpl never.

(** What the properties of the loaders look at. *)
Definition loads_view (w : World) :=
  (page w, (loads Cameras w, loads Videos w, loads UploadedVideos w)).

Arguments loads_view : simpl never.

(** The loader of each list, its continuation and its frame. *)
Definition loader (r : Resource) : World -> World :=
  match r with
  | Cameras => loadCameras
  | Videos => loadVideos
  | UploadedVideos => loadUploadedVideos false
  end.

Definition loader_resume (r : Resource) : Settled -> World -> World :=
  match r with
  | Cameras => loadCameras_resume
  | Videos => loadVideos_resume
  | UploadedVideos => loadUploadedVideos_resume
  end.

Definition loader_frame (r : Resource) : Frame :=
  match r with
  | Cameras => F_loadCameras
  | Videos => F_loadVideos
  | UploadedVideos => F_loadUploadedVideos false
  end.

(** The texts of the status line while the estimate is below 90. *)
Definition stage_texts : list string :=
  ["Initializing video processing...";
   "Analyzing video content and detecting faces...";
   "Processing license plates and objects...";
   "Applying privacy protection and blurring...";
   "Finalizing video encoding..."].

(** ** The poller as a transition system *)

(** The interval of job [j] has been cleared. *)
Definition cleared (j : nat) (w : World) : bool :=
  match nth_error (jobs w) j with
  | Some b => negb (pollInterval b)
  | None => false
  end.

(** What one handler can do to the poller's view; [draw] says which
    values of [Math.random()] the ticks use. *)
Inductive poller_move (draw : Q -> Prop) (v : PollerView) : PollerView -> Prop :=
| move_settle m pr :
    (* a request leaves [inflight] *)
    m <= v_submitting v -> incl pr (v_probes v) ->
    poller_move draw v
      (mkView (v_jobs v) (v_width v) (v_shown v) (v_submissions v) m pr)
| move_submit :
    (* processVideo sends its request *)
    poller_move draw v
      (mkView (v_jobs v) 0 0 (S (v_submissions v)) (S (v_submitting v)) (v_probes v))
| move_start fn :
    (* startProgressPolling *)
    poller_move draw v
      (mkView (v_jobs v ++ [mkJob fn 0 0 true]) (v_width v) (v_shown v)
              (v_submissions v) (v_submitting v) (v_probes v))
| move_tick j b r :
    (* the interval callback of a running job *)
    nth_error (v_jobs v) j = Some b -> pollInterval b = true -> draw r ->
    poller_move draw v
      (mkView (update_nth j (fun b0 => mkJob (processedFilename b0)
                                             (advance (progress b) r)
                                             (lastProgress b0) (pollInterval b0))
                          (v_jobs v))
              (advance (progress b) r) (Math_round (advance (progress b) r))
              (v_submissions v) (v_submitting v) (j :: v_probes v))
| move_found j b :
    (* a probe finds the processed file *)
    nth_error (v_jobs v) j = Some b ->
    poller_move draw v
      (mkView (update_nth j (fun b => mkJob (processedFilename b) (progress b)
                                            (lastProgress b) false) (v_jobs v))
              100 100 (v_submissions v) (v_submitting v) (v_probes v))
| move_waiting j b :
    (* a probe does not find it *)
    nth_error (v_jobs v) j = Some b ->
    poller_move draw v
      (mkView (update_nth j (fun b => mkJob (processedFilename b) (progress b)
                                            (progress b) (pollInterval b)) (v_jobs v))
              (v_width v) (v_shown v) (v_submissions v) (v_submitting v) (v_probes v))
| move_deadline j b :
    (* the ten-minute timer *)
    nth_error (v_jobs v) j = Some b ->
    poller_move draw v
      (mkView (update_nth j (fun b => mkJob (processedFilename b) (progress b)
                                            (lastProgress b) false) (v_jobs v))
              (v_width v) (v_shown v) (v_submissions v) (v_submitting v) (v_probes v)).

Inductive poller_moves (draw : Q -> Prop) : PollerView -> PollerView -> Prop :=
| moves_done v : poller_moves draw v v
| moves_next v1 v2 v3 :
    poller_move draw v1 v2 -> poller_moves draw v2 v3 -> poller_moves draw v1 v3.

(** The draws of the ticks of [e] are among [draw]. *)
Definition draws_of (draw : Q -> Prop) (e : Event) : Prop :=
  match e with
  | Tick _ random => draw random
  | _ => True
  end.

(** What every job and the display satisfy in every session. *)
Definition job_ok (b : Job) : Prop :=
  (0 <= lastProgress b /\ lastProgress b <= progress b /\ progress b <= 90)%Q
  /\ is_double (progress b).

Definition display_in_range (v : PollerView) : Prop :=
  (0 <= v_width v /\ v_width v <= 100)%Q
  /\ v_shown v = Math_round (v_width v)
  /\ Forall job_ok (v_jobs v).

(** The values of [Math.random()] in the ticks of job [j]. *)
Definition draws_for (j : nat) (evs : list Event) : list Q :=
  flat_map (fun e => match e with
                     | Tick k random => if k =? j then [random] else []
                     | _ => []
                     end) evs.

(** A session with an upload, whose processing the backend has accepted. *)
Definition polling_session : World := run process_events uploaded.

(** ** The buttons of the guarded operations *)

Definition buttons_view (w : World) : Page * bool * bool :=
  (page w, processBtn_disabled (ui w), uploadBtn_disabled (ui w)).

(** Each button is disabled exactly while a call of its operation is
    suspended. *)
Definition buttons_ok (w : World) : Prop :=
  processBtn_disabled (ui w) = (0 <? submitting w)
  /\ uploadBtn_disabled (ui w) = el_uploadBtn (page w) && (0 <? uploading w).

Arguments buttons_view : simpl never.

(** ** The stream of the preview *)

(** The camera the handlers of the stream element are bound to. *)
Definition stream_camera (w : World) : option nat :=
  cameraStream_onerror (streamUi (ui w)).

(** The event delivers the stream of a camera to preview. *)
Definition answers_stream (e : Event) : bool :=
  match e with
  | Settle _ (Response true _ _ (Some (PStream _))) => true
  | _ => false
  end.

(** ** Processing needs an upload *)

(** Nothing of a processing has happened: no request for one has been
    sent, none is pending, no job polls and the guard is down. *)
Definition unprocessed (w : World) : Prop :=
  submissions w = 0 /\ submitting w = 0 /\ jobs w = [] /\ isProcessing (this w) = false.

(** The event delivers an answer that describes an upload. *)
Definition answers_upload (e : Event) : bool :=
  match e with
  | Settle _ (Response _ _ _ (Some (PUpload _))) => true
  | _ => false
  end.

(** ** The player and its modal *)

(** What the error listeners registered in the course of [evs] notify. *)
Definition registered (evs : list ViewerEvent) : list string :=
  flat_map (fun e => match e with
                     | ClickPlayUploaded _ => ["Error loading video. Please try again."]
                     | ClickPlayProcessed _ =>
                         ["Error loading processed video. Please try again."]
                     | _ => []
                     end) evs.

Definition is_ModalShow (e : ViewerEvent) : bool :=
  match e with ModalShow => true | _ => false end.

(** A page with the player, nothing played yet, the focus on a Play
    button. *)
Definition library_viewer : Viewer :=
  mkViewer true EmptyString true 0 [] [("id", "videoModal"); ("aria-hidden", "true")]
           (Some "play-7") None [].

(** * Properties *)

(** ** Tactics *)

Ltac gsimpl :=
  cbn -[Nat.ltb Nat.eqb Nat.leb show_nat String.append String.eqb N.mul N.of_nat
        notifications requests Qltb advance Math_round stage_text includes
        nth_error remove_nth update_nth nearest_double js_add js_sub js_mul].

(** Case analysis on the tests of a handler, innermost test first. *)
Ltac split_cases :=
  repeat match goal with
         | |- context [match ?x with _ => _ end] =>
             lazymatch x with
             | context [match _ with _ => _ end] => fail
             | _ => destruct x eqn:?; gsimpl
             end
         end.

Ltac clash :=
  match goal with
  | H : ?b = _, H' : context [?b] |- _ => rewrite H in H'; discriminate H'
  end.

(** A test that came out both ways. *)
Ltac absurd_test :=
  match goal with
  | H : _ = _ |- _ => cbn in H; discriminate H
  end.

Ltac frame := intros; split_cases; reflexivity.

(** ** Handlers that touch none of the guarded state *)

Lemma core_retry w w' : core_view w' = core_view w -> retry_view w' = retry_view w.
Proof. unfold core_view. congruence. Qed.

Lemma core_guards w w' : core_view w' = core_view w -> guards_view w' = guards_view w.
Proof. unfold core_view. congruence. Qed.

Lemma core_poller w w' : core_view w' = core_view w -> poller_view w' = poller_view w.
Proof. unfold core_view. congruence. Qed.

Lemma guards_processing w w' :
  guards_view w' = guards_view w -> processing_view w' = processing_view w.
Proof. unfold guards_view. congruence. Qed.

Lemma guards_uploading w w' :
  guards_view w' = guards_view w -> uploading_view w' = uploading_view w.
Proof. unfold guards_view. congruence. Qed.

Lemma loadCameras_core : keeps core_view loadCameras.
Proof. unfold loadCameras. frame. Qed.

Lemma loadVideos_core : keeps core_view loadVideos.
Proof. unfold loadVideos. frame. Qed.

Lemma loadUploadedVideos_core : keeps core_view (loadUploadedVideos false).
Proof. unfold loadUploadedVideos. frame. Qed.

Lemma snapshot_requests_no_submission (cams : list Camera) l :
  filter is_submission_request
    (rev (map (fun camera => Request "GET" (snapshot_url (id camera)) NoBody) cams) ++ l)
  = filter is_submission_request l.
Proof.
  rewrite filter_app, <- map_rev.
  induction (rev cams) as [|c cs IH]; [reflexivity | exact IH].
Qed.

Lemma updateCameraPreviews_core : keeps core_view updateCameraPreviews.
Proof.
  unfold updateCameraPreviews. intros; split_cases; try reflexivity.
  unfold core_view, poller_view, submissions. cbn [out emit_all suspend set_cameraPreview with_ui].
  rewrite snapshot_requests_no_submission. reflexivity.
Qed.

Lemma updateCameraPreviews_resume_core cams got :
  keeps core_view (updateCameraPreviews_resume cams got).
Proof. reflexivity. Qed.

Lemma showCameraPreviewModal_core d : keeps core_view (showCameraPreviewModal d).
Proof. unfold showCameraPreviewModal. frame. Qed.

Lemma previewCamera_resume_core s : keeps core_view (previewCamera_resume s).
Proof. unfold previewCamera_resume, showCameraPreviewModal. frame. Qed.

Lemma loadCameraSnapshot_resume_core s : keeps core_view (loadCameraSnapshot_resume s).
Proof. unfold loadCameraSnapshot_resume. frame. Qed.

Lemma uploadVideo_core : keeps core_view uploadVideo.
Proof. unfold uploadVideo. frame. Qed.

Lemma uploadVideo_resume_core s : keeps core_view (uploadVideo_resume s).
Proof. unfold uploadVideo_resume. frame. Qed.

Lemma hideProgressRow_core : keeps core_view hideProgressRow.
Proof. unfold hideProgressRow. frame. Qed.

Lemma captureSnapshot_resume_core s : keeps core_view (captureSnapshot_resume s).
Proof. unfold captureSnapshot_resume. frame. Qed.

Lemma addCamera_resume_core s : keeps core_view (addCamera_resume s).
Proof. unfold addCamera_resume, loadCameras. frame. Qed.

Lemma deleteCamera_core c b : keeps core_view (deleteCamera c b).
Proof. unfold deleteCamera. frame. Qed.

Lemma deleteCamera_resume_core s : keeps core_view (deleteCamera_resume s).
Proof. unfold deleteCamera_resume, loadCameras. frame. Qed.

Lemma deleteUploadedVideo_core v b : keeps core_view (deleteUploadedVideo v b).
Proof. unfold deleteUploadedVideo. frame. Qed.

Lemma deleteUploadedVideo_resume_core s : keeps core_view (deleteUploadedVideo_resume s).
Proof. unfold deleteUploadedVideo_resume, loadUploadedVideos. frame. Qed.

Lemma window_online_core : keeps core_view window_online.
Proof. unfold window_online, loadCameras, loadVideos, loadUploadedVideos. frame. Qed.

Lemma step_core e w : bystander e = true -> core_view (step e w) = core_view w.
Proof.
  destruct e; try discriminate; intros _; unfold step.
  - reflexivity.
  - reflexivity.
  - reflexivity.
  - reflexivity.
  - apply deleteCamera_core.
  - apply deleteUploadedVideo_core.
  - apply window_online_core.
  - reflexivity.
  - reflexivity.
  - destruct (el_videosGrid (page (loadCameras w)));
      now rewrite ?loadVideos_core, loadCameras_core.
  - apply updateCameraPreviews_core.
  - destruct (cameraStream_onerror (streamUi (ui w))); reflexivity.
  - destruct (cameraStream_onerror (streamUi (ui w))); reflexivity.
  - destruct (cameraStream_onerror (streamUi (ui w))); reflexivity.
Qed.

Lemma resume_core f s w : bystander_frame f = true -> core_view (resume f s w) = core_view w.
Proof.
  destruct f; try discriminate; intros _; cbn [resume].
  - apply uploadVideo_resume_core.
  - reflexivity.
  - apply previewCamera_resume_core.
  - apply loadCameraSnapshot_resume_core.
  - apply captureSnapshot_resume_core.
  - apply addCamera_resume_core.
  - apply deleteCamera_resume_core.
  - apply deleteUploadedVideo_resume_core.
Qed.

(** ** Retry counter *)

Lemma handleApiError_policy resource error w :
  let w' := handleApiError resource error w in
  if retryCount (this w) <? maxRetries (this w) then
    retry_view w' = (retryCount (this w) + 1, maxRetries (this w))
    /\ timers w' = ((1000 * N.of_nat (retryCount (this w) + 1))%N, RetryLoad resource)
                   :: timers w
    /\ notifications (out w') = notifications (out w)
  else
    retry_view w' = (0, maxRetries (this w))
    /\ timers w' = timers w
    /\ notifications (out w')
       = final_failure resource (maxRetries (this w)) :: notifications (out w).
Proof.
  unfold handleApiError. gsimpl.
  destruct (retryCount (this w) <? maxRetries (this w)); gsimpl; auto.
Qed.

Lemma handleApiError_retry_ok resource error w :
  retry_ok w -> retry_ok (handleApiError resource error w).
Proof.
  unfold retry_ok. intros [H1 H2].
  pose proof (handleApiError_policy resource error w) as P. cbv zeta in P.
  destruct (retryCount (this w) <? maxRetries (this w)) eqn:E;
    destruct P as [P _]; unfold retry_view in P; injection P as -> ->.
  - apply Nat.ltb_lt in E. lia.
  - lia.
Qed.

Lemma retry_ok_keeps w w' : retry_view w' = retry_view w -> retry_ok w -> retry_ok w'.
Proof. unfold retry_ok, retry_view. intros H. injection H as -> ->. auto. Qed.

Lemma loadCameras_resume_retry_ok s w : retry_ok w -> retry_ok (loadCameras_resume s w).
Proof.
  unfold loadCameras_resume. intros H.
  split_cases; try (apply handleApiError_retry_ok; exact H).
  unfold retry_ok in *. cbn. lia.
Qed.

Lemma loadVideos_resume_retry_ok s w : retry_ok w -> retry_ok (loadVideos_resume s w).
Proof.
  unfold loadVideos_resume. intros H.
  split_cases; try (apply handleApiError_retry_ok; exact H). exact H.
Qed.

Lemma loadUploadedVideos_resume_retry_ok s w :
  retry_ok w -> retry_ok (loadUploadedVideos_resume s w).
Proof.
  unfold loadUploadedVideos_resume. intros H.
  split_cases; try (apply handleApiError_retry_ok; exact H). exact H.
Qed.

Lemma handleVideoUpload_retry : keeps retry_view handleVideoUpload.
Proof. unfold handleVideoUpload. frame. Qed.

Lemma handleVideoUpload_finally_retry : keeps retry_view handleVideoUpload_finally.
Proof. unfold handleVideoUpload_finally. frame. Qed.

Lemma handleVideoUpload_resume_retry s : keeps retry_view (handleVideoUpload_resume s).
Proof.
  unfold handleVideoUpload_resume, handleVideoUpload_finally, loadUploadedVideos_pending,
    loadUploadedVideos.
  frame.
Qed.

Lemma processVideo_retry : keeps retry_view processVideo.
Proof. unfold processVideo. frame. Qed.

Lemma processVideo_resume_retry s : keeps retry_view (processVideo_resume s).
Proof. unfold processVideo_resume. frame. Qed.

Lemma poll_tick_retry j r : keeps retry_view (poll_tick j r).
Proof. unfold poll_tick. frame. Qed.

Lemma poll_tick_resume_retry j s : keeps retry_view (poll_tick_resume j s).
Proof. unfold poll_tick_resume. frame. Qed.

Lemma poll_deadline_retry j : keeps retry_view (poll_deadline j).
Proof. unfold poll_deadline. frame. Qed.

Lemma run_callback_retry cb : keeps retry_view (run_callback cb).
Proof.
  destruct cb; unfold run_callback; intros; split_cases;
    first [ reflexivity
          | apply core_retry, loadCameras_core
          | apply core_retry, loadVideos_core
          | apply core_retry, loadUploadedVideos_core
          | apply core_retry, hideProgressRow_core
          | apply core_retry, updateCameraPreviews_core
          | apply poll_deadline_retry ].
Qed.

Lemma resume_retry_ok f s w : retry_ok w -> retry_ok (resume f s w).
Proof.
  intros H. destruct (bystander_frame f) eqn:B.
  { eapply retry_ok_keeps; [apply core_retry, resume_core, B|exact H]. }
  destruct f as [ | | [|] | | | | | | | | | | | ]; try discriminate; cbn [resume].
  - now apply loadCameras_resume_retry_ok.
  - now apply loadVideos_resume_retry_ok.
  - unfold awaited_loadUploadedVideos_resume.
    eapply retry_ok_keeps; [apply handleVideoUpload_finally_retry|].
    now apply loadUploadedVideos_resume_retry_ok.
  - now apply loadUploadedVideos_resume_retry_ok.
  - eapply retry_ok_keeps; [apply processVideo_resume_retry|exact H].
  - eapply retry_ok_keeps; [apply handleVideoUpload_resume_retry|exact H].
  - eapply retry_ok_keeps; [apply poll_tick_resume_retry|exact H].
Qed.

Lemma step_retry_ok e w : retry_ok w -> retry_ok (step e w).
Proof.
  intros H. destruct (bystander e) eqn:B.
  { eapply retry_ok_keeps; [apply core_retry, step_core, B|exact H]. }
  destruct e; try discriminate; unfold step.
  - eapply retry_ok_keeps; [apply core_retry, uploadVideo_core|].
    eapply retry_ok_keeps; [apply handleVideoUpload_retry|exact H].
  - eapply retry_ok_keeps; [apply processVideo_retry|].
    eapply retry_ok_keeps; [apply processVideo_retry|exact H].
  - destruct (nth_error (inflight w) i) as [f|]; [|exact H].
    pose proof (resume_retry_ok f s (with_inflight (remove_nth i (inflight w)) w) H) as R.
    destruct f; first [exact R | exact H].
  - destruct (nth_error (inflight w) i) as [f|]; [|exact H].
    destruct f; try exact H;
      destruct (List.length got =? List.length cams); exact H.
  - destruct (nth_error (timers w) i) as [[ms cb]|]; [|exact H].
    eapply retry_ok_keeps; [apply run_callback_retry|exact H].
  - eapply retry_ok_keeps; [apply poll_tick_retry|exact H].
Qed.

Lemma boot_retry_view p : retry_view (boot p) = (0, 3).
Proof.
  unfold boot, loadCameras, loadVideos, loadUploadedVideos. split_cases; reflexivity.
Qed.

Lemma run_retry_ok evs : forall w, retry_ok w -> retry_ok (run evs w).
Proof.
  induction evs as [|e evs IH]; intros w H; [exact H|].
  apply IH, step_retry_ok, H.
Qed.

(** A failed load below the maximum, and its timer when it fires. *)
Lemma retry_timer_reissues (r : Resource) (s : Settled) (w : World) :
  failed s = true ->
  retryCount (this w) < maxRetries (this w) ->
  skipped r (page w) = false ->
  let w1 := loader_resume r s w in
  let w2 := step (Fire 0) w1 in
  timers w1 = ((1000 * N.of_nat (retryCount (this w) + 1))%N, RetryLoad (resource_name r))
              :: timers w
  /\ notifications (out w1) = notifications (out w)
  /\ w2 = loader r (with_timers (timers w) w1)
  /\ out w2 = Request "GET" (resource_url r) NoBody :: out w1
  /\ inflight w2 = loader_frame r :: inflight w
  /\ timers w2 = timers w.
Proof.
  intros F L K w1 w2. apply Nat.ltb_lt in L.
  assert (forall key error x,
             retryCount (this x) = retryCount (this w) ->
             maxRetries (this x) = maxRetries (this w) ->
             handleApiError key error x
             = setTimeout (RetryLoad key) (1000 * N.of_nat (retryCount (this w) + 1))
                 (console ("Retrying " ++ key ++ " (attempt "
                           ++ show_nat (retryCount (this w) + 1) ++ "/"
                           ++ show_nat (maxRetries (this w)) ++ ")...")
                    (set_retryCount (retryCount (this w) + 1)
                       (console ("Error loading " ++ key ++ ": " ++ error) x)))) as A.
  { intros key error x E1 E2. unfold handleApiError.
    cbn [this console emit set_retryCount with_this retryCount maxRetries].
    rewrite E1, E2, L. reflexivity. }
  destruct r; unfold skipped in K; try apply negb_false_iff in K;
    unfold w2, w1, loader_resume, loader, loader_frame, resource_name, resource_url;
    (destruct s as [e|[|] st tx body]; [|discriminate|]);
    unfold loadCameras_resume, loadVideos_resume, loadUploadedVideos_resume;
    rewrite A by reflexivity;
    unfold step; cbn [timers setTimeout nth_error run_callback];
    cbn -[String.append show_nat N.mul N.of_nat notifications];
    unfold loadCameras, loadVideos, loadUploadedVideos;
    cbn -[String.append show_nat N.mul N.of_nat notifications String.eqb];
    rewrite ?K; repeat split; reflexivity.
Qed.

(** C6. On a failed fetch, a counter below the maximum is incremented and
    a retry is scheduled after 1000 ms times the new attempt number,
    with console output only; a counter at the maximum gives one
    final-failure notification and goes back to zero.  With the
    constructor's maximum of 3 the delays are 1 s, 2 s and 3 s and the
    fourth failure in a row is the final one; the counter never exceeds
    the maximum in any session; every failed fetch of the three loaders
    (network error or non-success status) is handled this way.  The
    scheduled retry is the load itself: the timer of a key calls the
    loader of that key, and when it fires after a failed load the request
    for the same list goes out again. *)
Theorem retry_policy :
  forall (resource error : string),
    (forall w, let w' := handleApiError resource error w in
       if retryCount (this w) <? maxRetries (this w) then
         retry_view w' = (retryCount (this w) + 1, maxRetries (this w))
         /\ timers w' = ((1000 * N.of_nat (retryCount (this w) + 1))%N, RetryLoad resource)
                        :: timers w
         /\ notifications (out w') = notifications (out w)
       else
         retry_view w' = (0, maxRetries (this w))
         /\ timers w' = timers w
         /\ notifications (out w')
            = final_failure resource (maxRetries (this w)) :: notifications (out w))
    /\ (forall p,
          let w3 := fail_times 3 resource error (boot p) in
          let w4 := fail_times 4 resource error (boot p) in
          timers w3 = [(3000%N, RetryLoad resource); (2000%N, RetryLoad resource);
                       (1000%N, RetryLoad resource)] ++ timers (boot p)
          /\ notifications (out w3) = []
          /\ retryCount (this w3) = 3
          /\ timers w4 = timers w3
          /\ notifications (out w4) = [final_failure resource 3]
          /\ retryCount (this w4) = 0)
    /\ (forall p evs,
          maxRetries (this (run evs (boot p))) = 3
          /\ retryCount (this (run evs (boot p))) <= 3)
    /\ (forall w st tx body,
          loadCameras_resume (NetworkError error) w
          = handleApiError "cameras" error (console ("Error loading cameras: " ++ error) w)
          /\ loadVideos_resume (NetworkError error) w
             = handleApiError "videos" error (console ("Error loading videos: " ++ error) w)
          /\ loadUploadedVideos_resume (NetworkError error) w
             = handleApiError "uploaded-videos" error
                 (console ("Error loading uploaded videos: " ++ error) w)
          /\ loadCameras_resume (Response false st tx body) w
             = handleApiError "cameras" (http_error st tx)
                 (console ("Error loading cameras: " ++ http_error st tx) w)
          /\ loadVideos_resume (Response false st tx body) w
             = handleApiError "videos" (http_error st tx)
                 (console ("Error loading videos: " ++ http_error st tx) w)
          /\ loadUploadedVideos_resume (Response false st tx body) w
             = handleApiError "uploaded-videos" (http_error st tx)
                 (console ("Error loading uploaded videos: " ++ http_error st tx) w))
    /\ (forall w,
          run_callback (RetryLoad "cameras") w = loadCameras w
          /\ run_callback (RetryLoad "videos") w
             = (if el_videosGrid (page w) then loadVideos w else w)
          /\ run_callback (RetryLoad "uploaded-videos") w = loadUploadedVideos false w)
    /\ (forall (r : Resource) (s : Settled) (w : World),
          failed s = true ->
          retryCount (this w) < maxRetries (this w) ->
          skipped r (page w) = false ->
          let w1 := loader_resume r s w in
          let w2 := step (Fire 0) w1 in
          timers w1
          = ((1000 * N.of_nat (retryCount (this w) + 1))%N,
             RetryLoad match r with
                       | Cameras => "cameras"
                       | Videos => "videos"
                       | UploadedVideos => "uploaded-videos"
                       end) :: timers w
          /\ out w2
             = Request "GET" match r with
                             | Cameras => "/api/cameras"
                             | Videos => "/api/videos"
                             | UploadedVideos => "/api/uploaded-videos"
                             end NoBody :: out w1
          /\ inflight w2 = loader_frame r :: inflight w
          /\ timers w2 = timers w).
Proof.
  intros resource error. split; [|split; [|split; [|split; [|split]]]];
    [| | |repeat split|intros w; repeat split|].
  4: { intros r s w F L K.
       destruct (retry_timer_reissues r s w F L K) as (T1 & _ & _ & O2 & I2 & T2).
       cbv zeta. split; [|split; [|split]]; [|  |exact I2|exact T2].
       - rewrite T1. now destruct r.
       - rewrite O2. now destruct r. }
  - intros w. apply handleApiError_policy.
  - intros p. cbv zeta. cbn [fail_times].
    pose proof (boot_retry_view p) as B0.
    assert (notifications (out (boot p)) = []) as N0.
    { unfold boot, loadCameras, loadVideos, loadUploadedVideos. split_cases; reflexivity. }
    set (w0 := boot p) in *.
    pose proof (handleApiError_policy resource error w0) as P1.
    set (w1 := handleApiError resource error w0) in *.
    pose proof (handleApiError_policy resource error w1) as P2.
    set (w2 := handleApiError resource error w1) in *.
    pose proof (handleApiError_policy resource error w2) as P3.
    set (w3 := handleApiError resource error w2) in *.
    pose proof (handleApiError_policy resource error w3) as P4.
    set (w4 := handleApiError resource error w3) in *.
    cbv zeta in P1, P2, P3, P4. clearbody w4 w3 w2 w1 w0. unfold retry_view in *.
    injection B0 as R0 M0. rewrite R0, M0 in P1. cbn in P1.
    destruct P1 as (E1 & T1 & N1). injection E1 as R1 M1.
    rewrite R1, M1 in P2. cbn in P2.
    destruct P2 as (E2 & T2 & N2). injection E2 as R2 M2.
    rewrite R2, M2 in P3. cbn in P3.
    destruct P3 as (E3 & T3 & N3). injection E3 as R3 M3.
    rewrite R3, M3 in P4. cbn -[final_failure] in P4.
    destruct P4 as (E4 & T4 & N4). injection E4 as R4 M4.
    rewrite T4, T3, T2, T1, N4, N3, N2, N1, N0. repeat split; assumption.
  - intros p evs.
    assert (retry_ok (boot p)) as H.
    { unfold retry_ok, boot, loadCameras, loadVideos, loadUploadedVideos.
      split_cases; cbn; lia. }
    apply (run_retry_ok evs) in H. unfold retry_ok in H. lia.
Qed.

(** The theorem on the dashboard: the first fetch of the cameras cannot
    reach the backend; the retry is due after one second and, when its
    timer fires, asks for the cameras again. *)
Lemma retry_policy_witness :
  let w1 := loader_resume Cameras unreachable loaded in
  retryCount (this loaded) < maxRetries (this loaded)
  /\ timers w1 = (1000%N, RetryLoad "cameras") :: timers loaded
  /\ out (step (Fire 0) w1) = Request "GET" "/api/cameras" NoBody :: out w1.
Proof.
  intros w1.
  assert (retryCount (this loaded) < maxRetries (this loaded)) as L by (vm_compute; lia).
  split; [exact L|].
  destruct (retry_policy "cameras" "Failed to fetch") as (_ & _ & _ & _ & _ & Retry).
  destruct (Retry Cameras unreachable loaded eq_refl L eq_refl) as (T & O & _).
  split; [exact T|exact O].
Defined.

(** C5 (as stated) fails: the attempts are not kept per key.  After one
    failed fetch of the videos the first failed fetch of the cameras is
    counted as attempt 2 and retried after 2 s, and a later successful
    fetch of the videos leaves the counter where it was. *)
Lemma retry_state_not_per_key :
  let w1 := run [RefreshData; Settle 0 unreachable] loaded in
  let w2 := step (Settle 0 unreachable) w1 in
  let w3 := run [Fire 1; Settle 0 (ok (PVideos []))] w2 in
  retryCount (this loaded) = 0
  /\ inflight w1 = [F_loadCameras]
  /\ retryCount (this w1) = 1
  /\ timers w2 = (2000%N, RetryLoad "cameras") :: timers w1
  /\ hd_error (out w2) = Some (Console "Retrying cameras (attempt 2/3)...")
  /\ inflight w3 = []
  /\ retryCount (this w3) = 2.
Proof. vm_compute. repeat split. Qed.

Lemma handleApiError_retry_view resource error w :
  retry_view (handleApiError resource error w)
  = (if retryCount (this w) <? maxRetries (this w)
     then retryCount (this w) + 1 else 0, maxRetries (this w)).
Proof.
  pose proof (handleApiError_policy resource error w) as P.
  cbv zeta in P. destruct (retryCount (this w) <? maxRetries (this w)); apply P.
Qed.

(** C5 (amended).  There is one attempt counter for all resource keys: a
    failed fetch reads and updates it in the same way whatever the key,
    through each of the three loaders; a successful fetch of the camera
    list brings it back to zero. *)
Theorem retry_counter_shared :
  forall (w : World),
    (forall resource error,
        retry_view (handleApiError resource error w)
        = (if retryCount (this w) <? maxRetries (this w)
           then retryCount (this w) + 1 else 0, maxRetries (this w)))
    /\ (forall s,
          if failed s then
            retry_view (loadCameras_resume s w) = retry_view (handleApiError "" "" w)
            /\ retry_view (loadVideos_resume s w) = retry_view (handleApiError "" "" w)
            /\ retry_view (loadUploadedVideos_resume s w)
               = retry_view (handleApiError "" "" w)
          else True)
    /\ (forall status statusText l,
          retryCount (this (loadCameras_resume
                              (Response true status statusText (Some (PCameras l))) w))
          = 0).
Proof.
  intros w. split; [|split].
  - intros. apply handleApiError_retry_view.
  - intros [e|[|] st tx body]; cbn [failed negb]; auto;
      unfold loadCameras_resume, loadVideos_resume, loadUploadedVideos_resume;
      rewrite !handleApiError_retry_view; auto.
  - reflexivity.
Qed.

(** ** Guards *)

Lemma count_remove_nth P i l f :
  nth_error l i = Some f ->
  count P (remove_nth i l) + (if P f then 1 else 0) = count P l.
Proof.
  unfold remove_nth. revert l. induction i as [|i IH]; intros [|x l] H; try discriminate.
  - injection H as ->. unfold count. cbn. destruct (P f); cbn; lia.
  - specialize (IH l H). unfold count in *.
    change (firstn (S i) (x :: l)) with (x :: firstn i l).
    change (skipn (S (S i)) (x :: l)) with (skipn (S i) l).
    cbn [app filter]. destruct (P x); cbn [List.length]; lia.
Qed.

Lemma count_le P Q l : (forall f, P f = true -> Q f = true) -> count P l <= count Q l.
Proof.
  intros H. unfold count. induction l as [|x l IH]; [auto|]. cbn.
  destruct (P x) eqn:E.
  - rewrite (H _ E). cbn. lia.
  - destruct (Q x); cbn; lia.
Qed.

Lemma handleApiError_guards r e : keeps guards_view (handleApiError r e).
Proof. unfold handleApiError. frame. Qed.

Lemma loadCameras_resume_guards s : keeps guards_view (loadCameras_resume s).
Proof. unfold loadCameras_resume. intros; split_cases; now rewrite ?handleApiError_guards. Qed.

Lemma loadVideos_resume_guards s : keeps guards_view (loadVideos_resume s).
Proof. unfold loadVideos_resume. intros; split_cases; now rewrite ?handleApiError_guards. Qed.

Lemma loadUploadedVideos_resume_guards s : keeps guards_view (loadUploadedVideos_resume s).
Proof.
  unfold loadUploadedVideos_resume. intros; split_cases; now rewrite ?handleApiError_guards.
Qed.

Lemma poll_tick_guards j r : keeps guards_view (poll_tick j r).
Proof. unfold poll_tick. frame. Qed.

Lemma poll_tick_resume_guards j s : keeps guards_view (poll_tick_resume j s).
Proof. unfold poll_tick_resume. frame. Qed.

Lemma poll_deadline_guards j : keeps guards_view (poll_deadline j).
Proof. unfold poll_deadline. frame. Qed.

Lemma run_callback_guards cb : keeps guards_view (run_callback cb).
Proof.
  destruct cb; unfold run_callback; intros; split_cases;
    first [ reflexivity
          | apply core_guards, loadCameras_core
          | apply core_guards, loadVideos_core
          | apply core_guards, loadUploadedVideos_core
          | apply core_guards, hideProgressRow_core
          | apply core_guards, updateCameraPreviews_core
          | apply poll_deadline_guards ].
Qed.

Lemma single_flight_le b n n' : n' <= n -> single_flight (b, n) -> single_flight (b, n').
Proof.
  unfold single_flight. cbn. intros Hle [H1 H2]. split; [lia|].
  intros ->. apply H2. lia.
Qed.

Lemma guarded_keeps w w' : guards_view w' = guards_view w -> guarded w -> guarded w'.
Proof.
  intros H. unfold guarded.
  now rewrite (guards_processing _ _ H), (guards_uploading _ _ H).
Qed.

Lemma processVideo_uploading : keeps uploading_view processVideo.
Proof. unfold processVideo. frame. Qed.

Lemma processVideo_resume_uploading s : keeps uploading_view (processVideo_resume s).
Proof. unfold processVideo_resume. frame. Qed.

Lemma handleVideoUpload_processing : keeps processing_view handleVideoUpload.
Proof. unfold handleVideoUpload. frame. Qed.

Lemma handleVideoUpload_finally_processing : keeps processing_view handleVideoUpload_finally.
Proof. unfold handleVideoUpload_finally. frame. Qed.

Lemma handleVideoUpload_resume_processing s :
  keeps processing_view (handleVideoUpload_resume s).
Proof.
  unfold handleVideoUpload_resume, loadUploadedVideos_pending, loadUploadedVideos,
    handleVideoUpload_finally.
  frame.
Qed.

Lemma awaited_loadUploadedVideos_resume_processing s :
  keeps processing_view (awaited_loadUploadedVideos_resume s).
Proof.
  intros w. unfold awaited_loadUploadedVideos_resume.
  rewrite handleVideoUpload_finally_processing.
  apply guards_processing, loadUploadedVideos_resume_guards.
Qed.

Ltac flight :=
  unfold single_flight, processing_view, uploading_view, submitting, uploading, count in *;
  cbn [fst snd] in *; split_cases; split; intros; try clash; try lia; try congruence.

Lemma single_flight_idle b n : single_flight (b, n) -> b = false -> n = 0.
Proof.
  unfold single_flight. cbn. intros [H1 H2] ->.
  destruct n as [|[|n]]; auto; [|lia]. now specialize (H2 eq_refl).
Qed.

(** [processVideo]: a call is suspended only after the flag went up, and
    only when the flag was down. *)
Lemma processVideo_single_flight w :
  single_flight (processing_view w) -> single_flight (processing_view (processVideo w)).
Proof.
  intros H. pose proof (single_flight_idle _ _ H) as H0.
  unfold processVideo. destruct (isProcessing (this w)) eqn:E; [exact H|].
  specialize (H0 eq_refl). clear H. flight.
Qed.

(** When the submission settles no other submission is suspended, and the
    [finally] block lowers the flag. *)
Lemma processVideo_resume_single_flight s w :
  submitting w = 0 -> single_flight (processing_view (processVideo_resume s w)).
Proof. intros H0. unfold processVideo_resume. flight. Qed.

Lemma handleVideoUpload_single_flight w :
  single_flight (uploading_view w) -> single_flight (uploading_view (handleVideoUpload w)).
Proof.
  intros H. pose proof (single_flight_idle _ _ H) as H0.
  unfold handleVideoUpload. destruct (isUploading (this w)) eqn:E; [exact H|].
  specialize (H0 eq_refl). clear H. flight.
Qed.

Lemma handleVideoUpload_finally_single_flight w :
  uploading w = 0 -> single_flight (uploading_view (handleVideoUpload_finally w)).
Proof. intros H0. unfold handleVideoUpload_finally. flight. Qed.

Lemma handleVideoUpload_resume_single_flight s w :
  uploading w = 0 -> isUploading (this w) = true ->
  single_flight (uploading_view (handleVideoUpload_resume s w)).
Proof.
  intros H0 Hup.
  unfold handleVideoUpload_resume, loadUploadedVideos_pending, loadUploadedVideos,
    handleVideoUpload_finally, handleVideoUpload_catch.
  flight.
Qed.

Lemma awaited_loadUploadedVideos_resume_single_flight s w :
  uploading w = 0 ->
  single_flight (uploading_view (awaited_loadUploadedVideos_resume s w)).
Proof.
  intros H0. apply handleVideoUpload_finally_single_flight.
  pose proof (guards_uploading _ _ (loadUploadedVideos_resume_guards s w)) as H.
  unfold uploading_view in H. congruence.
Qed.

(** *** The guards along a session *)

Lemma guarded_remove i f w :
  nth_error (inflight w) i = Some f ->
  guarded w -> guarded (with_inflight (remove_nth i (inflight w)) w).
Proof.
  intros Hf [Hp Hu].
  pose proof (count_remove_nth is_submission _ _ _ Hf) as H1.
  pose proof (count_remove_nth is_upload _ _ _ Hf) as H2.
  split.
  - apply (single_flight_le _ (submitting w)); [|exact Hp].
    unfold submitting. cbn [inflight with_inflight]. lia.
  - apply (single_flight_le _ (uploading w)); [|exact Hu].
    unfold uploading. cbn [inflight with_inflight]. lia.
Qed.

Lemma resume_guarded i f s w :
  nth_error (inflight w) i = Some f ->
  guarded w -> guarded (resume f s (with_inflight (remove_nth i (inflight w)) w)).
Proof.
  intros Hf G. pose proof (guarded_remove _ _ _ Hf G) as G1.
  pose proof (count_remove_nth is_submission _ _ _ Hf) as H1.
  pose proof (count_remove_nth is_upload _ _ _ Hf) as H2.
  set (w1 := with_inflight (remove_nth i (inflight w)) w) in *.
  assert (submitting w1 = count is_submission (remove_nth i (inflight w))) as E1
      by reflexivity.
  assert (uploading w1 = count is_upload (remove_nth i (inflight w))) as E2
      by reflexivity.
  assert (isUploading (this w1) = isUploading (this w)) as E3 by reflexivity.
  destruct G as [[Gp1 Gp2] [Gu1 Gu2]].
  unfold processing_view, uploading_view in Gp1, Gp2, Gu1, Gu2. cbn [fst snd] in *.
  unfold submitting, uploading in Gp1, Gp2, Gu1, Gu2.
  clearbody w1.
  destruct (bystander_frame f) eqn:B.
  { eapply guarded_keeps; [apply core_guards, resume_core, B|exact G1]. }
  destruct f as [ | | [|] | | | | | | | | | | | ]; try discriminate;
    cbn [resume is_submission is_upload] in *.
  - eapply guarded_keeps; [apply loadCameras_resume_guards|exact G1].
  - eapply guarded_keeps; [apply loadVideos_resume_guards|exact G1].
  - destruct G1 as [Gp Gu]. split.
    + now rewrite awaited_loadUploadedVideos_resume_processing.
    + apply awaited_loadUploadedVideos_resume_single_flight. lia.
  - eapply guarded_keeps; [apply loadUploadedVideos_resume_guards|exact G1].
  - destruct G1 as [Gp Gu]. split.
    + apply processVideo_resume_single_flight. lia.
    + now rewrite processVideo_resume_uploading.
  - destruct G1 as [Gp Gu]. split.
    + now rewrite handleVideoUpload_resume_processing.
    + apply handleVideoUpload_resume_single_flight; [lia|].
      rewrite E3. apply Gu2. lia.
  - eapply guarded_keeps; [apply poll_tick_resume_guards|exact G1].
Qed.

Lemma step_guarded e w : guarded w -> guarded (step e w).
Proof.
  intros G. destruct (bystander e) eqn:B.
  { eapply guarded_keeps; [apply core_guards, step_core, B|exact G]. }
  destruct e; try discriminate; unfold step.
  - destruct G as [Gp Gu]. split.
    + rewrite (guards_processing _ _ (core_guards _ _ (uploadVideo_core _))).
      now rewrite handleVideoUpload_processing.
    + rewrite (guards_uploading _ _ (core_guards _ _ (uploadVideo_core _))).
      now apply handleVideoUpload_single_flight.
  - destruct G as [Gp Gu]. split.
    + now do 2 apply processVideo_single_flight.
    + now rewrite !processVideo_uploading.
  - destruct (nth_error (inflight w) i) as [f|] eqn:Hf; [|exact G].
    pose proof (resume_guarded i f s w Hf G) as R.
    destruct f; first [exact R | exact G].
  - destruct (nth_error (inflight w) i) as [f|] eqn:Hf; [|exact G].
    destruct f; try exact G.
    destruct (List.length got =? List.length cams); [|exact G].
    eapply guarded_keeps; [apply core_guards, updateCameraPreviews_resume_core|].
    eapply guarded_remove; eauto.
  - destruct (nth_error (timers w) i) as [[ms cb]|]; [|exact G].
    eapply guarded_keeps; [apply run_callback_guards|exact G].
  - eapply guarded_keeps; [apply poll_tick_guards|exact G].
Qed.

Lemma boot_guarded p : guarded (boot p).
Proof.
  unfold boot, guarded, single_flight, processing_view, uploading_view, submitting,
    uploading, count, loadCameras, loadVideos, loadUploadedVideos.
  cbn [fst snd]. split_cases; cbn; repeat split; intros; try lia; discriminate.
Qed.

Lemma run_guarded evs : forall w, guarded w -> guarded (run evs w).
Proof.
  induction evs as [|e evs IH]; intros w G; [exact G|].
  apply IH, step_guarded, G.
Qed.

(** C3 (as stated) fails.  The [processing] guard is lowered by the
    [finally] block as soon as the submission has settled: with the job of
    the first submission still polling, a second click is accepted and a
    second polling loop runs beside the first.  And a single submit of
    the upload form leaves two upload requests in flight. *)
Lemma second_job_accepted_while_polling :
  let w1 := run [ClickProcess; Settle 0 (ok (PProcess (process_reply "processed_1.mp4")));
                 Tick 0 (1 # 2)] uploaded in
  let w2 := run [ClickProcess; Settle 0 (ok (PProcess (process_reply "processed_2.mp4")))]
                w1 in
  let u := run [ChooseFile (Some clip); Submit] uploaded in
  polling w1 = 1
  /\ isProcessing (this w1) = false
  /\ submissions w2 = 2
  /\ polling w2 = 2
  /\ requests (out u) = [("POST", "/api/upload-video"); ("POST", "/api/upload-video")]
                        ++ requests (out uploaded)
  /\ inflight u = [F_uploadVideo; F_handleVideoUpload].
Proof. vm_compute. repeat split. Qed.

(** C3 (amended).  In every session at most one call of [processVideo] is
    waiting for its submission and at most one call of [handleVideoUpload]
    for its upload; while one is, the flag is up and a further call only
    writes its console line.  The processing flag is lowered whenever a
    submission settles, accepted or not; with the flag down a call of
    [processVideo] sends its request whenever a video has been uploaded
    and the page has the elements it needs, whatever jobs are polling. *)
Theorem submissions_single_flight :
  forall (p : Page) (evs : list Event),
    let w := run evs (boot p) in
    (submitting w <= 1
     /\ (if 0 <? submitting w then
           isProcessing (this w) = true
           /\ processVideo w
              = console "Processing already in progress, ignoring duplicate request" w
         else True))
    /\ (count is_upload_request (inflight w) <= 1
        /\ (if 0 <? count is_upload_request (inflight w) then
              isUploading (this w) = true
              /\ handleVideoUpload w
                 = console "Upload already in progress, ignoring duplicate request" w
            else True))
    /\ (forall s, isProcessing (this (processVideo_resume s w)) = false)
    /\ (if accepts w then
          isProcessing (this w) = false
          /\ inflight (processVideo w) = F_processVideo :: inflight w
          /\ submissions (processVideo w) = S (submissions w)
        else inflight (processVideo w) = inflight w).
Proof.
  intros p evs w.
  pose proof (run_guarded evs _ (boot_guarded p)) as [[P1 P2] [U1 U2]].
  fold w in P1, P2, U1, U2. unfold processing_view, uploading_view in *.
  cbn [fst snd] in *.
  assert (count is_upload_request (inflight w) <= uploading w) as L.
  { apply count_le. now intros []. }
  split; [|split; [|split]].
  - split; [exact P1|].
    destruct (0 <? submitting w) eqn:E; [|exact I].
    apply Nat.ltb_lt in E. assert (isProcessing (this w) = true) as F by (apply P2; lia).
    split; [exact F|]. unfold processVideo. now rewrite F.
  - split; [lia|].
    destruct (0 <? count is_upload_request (inflight w)) eqn:E; [|exact I].
    apply Nat.ltb_lt in E. assert (isUploading (this w) = true) as F by (apply U2; lia).
    split; [exact F|]. unfold handleVideoUpload. now rewrite F.
  - intros s. unfold processVideo_resume. split_cases; reflexivity.
  - clear. clearbody w. unfold accepts, processVideo, submissions.
    destruct (isProcessing (this w)); cbn; [reflexivity|].
    destruct (currentVideo (this w)); cbn; [|reflexivity].
    destruct (el_enableDepersonalization (page w)); cbn; [|reflexivity].
    destruct (el_processingProgressRow (page w)); cbn;
      destruct (el_progressBar (page w)), (el_progressText (page w)),
        (el_processingStatus (page w));
      cbn; repeat split; reflexivity.
Qed.

(** C1.  The code leaves a guard up on two early returns.
    [handleVideoUpload] on a file whose type is not accepted returns with
    [isUploading] still set, and the next upload, of an accepted file, is
    turned away as a duplicate; [processVideo] on a page without the
    depersonalization checkbox returns with [isProcessing] still set. *)
Theorem guard_left_up_by_early_return :
  let w := handleVideoUpload (set_videoFile (Some notes) uploaded) in
  let v := processVideo (uploaded_on plain_page) in
  isUploading (this uploaded) = false
  /\ inflight w = []
  /\ isUploading (this w) = true
  /\ handleVideoUpload (set_videoFile (Some clip) w)
     = console "Upload already in progress, ignoring duplicate request"
         (set_videoFile (Some clip) w)
  /\ isProcessing (this (uploaded_on plain_page)) = false
  /\ inflight v = []
  /\ isProcessing (this v) = true
  /\ processVideo v
     = console "Processing already in progress, ignoring duplicate request" v.
Proof. vm_compute. repeat split. Qed.

(** C7.  When the backend refuses the submission with a message of its
    own, the message only reaches the console: the notification and the
    status text say "Processing failed". *)
Theorem backend_message_not_notified :
  let w := run [ClickProcess; Settle 0 rejected] uploaded in
  history w
  = history uploaded
    ++ [Console "Progress section shown";
        Request "POST" "/api/process-video" (JsonProcess "clip.mp4" true);
        Console "Processing already in progress, ignoring duplicate request";
        Console "Processing error: Video file not found";
        Notification "Processing failed" "error"]
  /\ processingStatus (progressUi (ui w)) = "Processing failed"
  /\ jobs w = []
  /\ isProcessing (this w) = false.
Proof. vm_compute. repeat split. Qed.

(** C8.  A submit of the upload form with a file that is not a video:
    [handleVideoUpload] notifies but keeps [isUploading] set, and
    [uploadVideo], the second listener of the same form, sends the file. *)
Theorem invalid_type_still_uploaded :
  let w := run [ChooseFile (Some notes); Submit] uploaded in
  includes allowedTypes (file_type notes) = false
  /\ history w
     = history uploaded
       ++ [Notification "Please select a valid video file (MP4, AVI, MOV, MKV, WEBM)"
                        "warning";
           Request "POST" "/api/upload-video" (FormVideo notes)]
  /\ inflight w = [F_uploadVideo]
  /\ isUploading (this uploaded) = false
  /\ isUploading (this w) = true.
Proof. vm_compute. repeat split. Qed.

(** ** Poller *)

(** *** Doubles *)

Open Scope Q_scope.

Lemma pow2_pos e : 0 < 2 ^ e.
Proof. apply Qpower_0_lt. reflexivity. Qed.

Lemma pow2_add a b : 2 ^ (a + b) == 2 ^ a * 2 ^ b.
Proof. apply Qpower_plus. discriminate. Qed.

Lemma pow2_le a b : (a <= b)%Z -> 2 ^ a <= 2 ^ b.
Proof. intros H. apply Qpower_le_compat_l; [exact H|discriminate]. Qed.

Lemma pow2_lt a b : (a < b)%Z -> 2 ^ a < 2 ^ b.
Proof. intros H. apply Qpower_lt_compat_l; [exact H|reflexivity]. Qed.

Lemma pow2_le_inv a b : 2 ^ a <= 2 ^ b -> (a <= b)%Z.
Proof. intros H. apply (Qpower_le_compat_l_inv 2); [exact H|reflexivity]. Qed.

Lemma pow2_lt_inv a b : 2 ^ a < 2 ^ b -> (a < b)%Z.
Proof. intros H. apply (Qpower_lt_compat_l_inv 2); [exact H|reflexivity]. Qed.

Lemma pow2_Z n : (0 <= n)%Z -> 2 ^ n == inject_Z (2 ^ n).
Proof. intros H. now rewrite Zpower_Qpower. Qed.

(** A power of two is a whole multiple of every smaller one. *)
Lemma pow2_multiple c e : (c <= e)%Z -> 2 ^ e == inject_Z (2 ^ (e - c)) * 2 ^ c.
Proof.
  intros H. rewrite <- pow2_Z by lia. rewrite <- pow2_add. now replace (e - c + c)%Z with e by lia.
Qed.

(** *** Rounding to an integer *)

Lemma round_half_even_bounds x :
  (Qfloor x <= round_half_even x <= Qfloor x + 1)%Z.
Proof.
  unfold round_half_even.
  destruct (Qcompare (x - inject_Z (Qfloor x)) (1 # 2)); [|lia|lia].
  destruct (Z.even (Qfloor x)); lia.
Qed.

Lemma round_half_even_Z n : round_half_even (inject_Z n) = n.
Proof.
  unfold round_half_even. rewrite Qfloor_Z.
  destruct (Qcompare_spec (inject_Z n - inject_Z n) (1 # 2)); [exfalso; lra|reflexivity|exfalso; lra].
Qed.

#[global] Instance round_half_even_comp : Proper (Qeq ==> eq) round_half_even.
Proof.
  intros x y E. unfold round_half_even.
  rewrite (Qfloor_comp x y E).
  assert (x - inject_Z (Qfloor y) == y - inject_Z (Qfloor y)) as D by (rewrite E; reflexivity).
  now rewrite (Qcompare_comp _ _ D _ _ (Qeq_refl (1 # 2))).
Qed.

Lemma round_half_even_mono x y : x <= y -> (round_half_even x <= round_half_even y)%Z.
Proof.
  intros H. pose proof (Qfloor_resp_le x y H) as F.
  pose proof (round_half_even_bounds x) as Bx.
  pose proof (round_half_even_bounds y) as By.
  destruct (Z.eq_dec (Qfloor x) (Qfloor y)) as [E|N]; [|lia].
  unfold round_half_even. rewrite <- E.
  destruct (Qcompare_spec (x - inject_Z (Qfloor x)) (1 # 2)) as [Cx|Cx|Cx];
    destruct (Qcompare_spec (y - inject_Z (Qfloor x)) (1 # 2)) as [Cy|Cy|Cy];
    try (destruct (Z.even (Qfloor x))); try lia; exfalso; lra.
Qed.

(** *** Rounding to a grid of step [2 ^ c] *)

Lemma div_pow2_le c x y : x <= y -> x / 2 ^ c <= y / 2 ^ c.
Proof.
  intros H. unfold Qdiv. apply Qmult_le_compat_r; [exact H|].
  apply Qlt_le_weak, Qinv_lt_0_compat, pow2_pos.
Qed.

Lemma grid_mono c x y : x <= y -> grid c x <= grid c y.
Proof.
  intros H. unfold grid. apply Qmult_le_compat_r; [|apply Qlt_le_weak, pow2_pos].
  rewrite <- Zle_Qle. apply round_half_even_mono, div_pow2_le, H.
Qed.

Lemma grid_fix c m x : x == inject_Z m * 2 ^ c -> grid c x == x.
Proof.
  intros E. unfold grid. rewrite E at 1.
  rewrite Qdiv_mult_l by (pose proof (pow2_pos c); lra).
  now rewrite round_half_even_Z.
Qed.

Lemma grid_le c m x v : v == inject_Z m * 2 ^ c -> x <= v -> grid c x <= v.
Proof.
  intros E H. rewrite <- (grid_fix c m v E). now apply grid_mono.
Qed.

Lemma grid_ge c m x v : v == inject_Z m * 2 ^ c -> v <= x -> v <= grid c x.
Proof.
  intros E H. rewrite <- (grid_fix c m v E). now apply grid_mono.
Qed.

(** *** Binades *)

Lemma binade_spec x : 0 < x -> 2 ^ binade x <= x /\ x < 2 ^ (binade x + 1).
Proof.
  intros Hx. unfold binade.
  assert (x == inject_Z (Qnum x) / inject_Z (Z.pos (Qden x))) as E
      by (destruct x; apply Qmake_Qdiv).
  assert (0 < Qnum x)%Z as Hn by (unfold Qlt in Hx; cbn in Hx; lia).
  set (n := Qnum x) in *. set (d := Qden x) in *.
  set (a := Z.log2 n). set (b := Z.log2 (Z.pos d)).
  destruct (Z.log2_spec n Hn) as [A1 A2]. fold a in A1, A2.
  destruct (Z.log2_spec (Z.pos d) eq_refl) as [B1 B2]. fold b in B1, B2.
  assert (0 <= a)%Z as Ha by apply Z.log2_nonneg.
  assert (0 <= b)%Z as Hb by apply Z.log2_nonneg.
  set (N := inject_Z n) in *. set (D := inject_Z (Z.pos d)) in *.
  assert (2 ^ a <= N /\ N < 2 * 2 ^ a) as [N1 N2].
  { rewrite (pow2_Z a Ha). unfold N. change (2 : Q) with (inject_Z 2).
    rewrite <- inject_Z_mult, <- Zle_Qle, <- Zlt_Qlt.
    rewrite Z.pow_succ_r in A2 by exact Ha. lia. }
  assert (2 ^ b <= D /\ D < 2 * 2 ^ b) as [D1 D2].
  { rewrite (pow2_Z b Hb). unfold D. change (2 : Q) with (inject_Z 2).
    rewrite <- inject_Z_mult, <- Zle_Qle, <- Zlt_Qlt.
    rewrite Z.pow_succ_r in B2 by exact Hb. lia. }
  pose proof (pow2_pos a) as Pa. pose proof (pow2_pos b) as Pb.
  assert (0 < D) as PD by lra.
  assert (2 ^ (a - b) == 2 ^ a / 2 ^ b) as K by (apply Qpower_minus; discriminate).
  assert (2 ^ (a - b + 1) == 2 * 2 ^ a / 2 ^ b) as K1.
  { rewrite pow2_add, K. change (2 ^ 1) with 2. field. lra. }
  assert (2 ^ (a - b - 1) == 2 ^ a / (2 * 2 ^ b)) as K0.
  { replace (a - b - 1)%Z with ((a - b) + (-1))%Z by lia.
    rewrite pow2_add, K. change (2 ^ (-1)) with (/ 2). field. lra. }
  clearbody N D. clear A1 A2 B1 B2 Hn.
  set (A := 2 ^ a) in *. set (B := 2 ^ b) in *.
  assert (x * D == N) as E' by (rewrite E; field; lra).
  destruct (Qle_bool (2 ^ (a - b)) x) eqn:T.
  - apply Qle_bool_iff in T. split; [exact T|]. rewrite K1.
    apply Qlt_shift_div_l; [exact Pb|]. nra.
  - assert (x < 2 ^ (a - b)) as T'.
    { apply Qnot_le_lt. intros C. apply Qle_bool_iff in C. congruence. }
    split.
    + rewrite K0. apply Qle_shift_div_r; [lra|]. nra.
    + now replace (a - b - 1 + 1)%Z with (a - b)%Z by lia.
Qed.

Lemma binade_unique x e : 2 ^ e <= x -> x < 2 ^ (e + 1) -> binade x = e.
Proof.
  intros L U.
  assert (0 < x) as Hx by (pose proof (pow2_pos e); lra).
  destruct (binade_spec x Hx) as [L' U'].
  assert (2 ^ e < 2 ^ (binade x + 1)) as H1 by lra.
  assert (2 ^ binade x < 2 ^ (e + 1)) as H2 by lra.
  apply pow2_lt_inv in H1, H2. lia.
Qed.

Lemma binade_comp x y : 0 < x -> x == y -> binade x = binade y.
Proof.
  intros Hx E. destruct (binade_spec x Hx) as [L U]. symmetry.
  apply binade_unique; now rewrite <- E.
Qed.

Lemma binade_mono x y : 0 < x -> x <= y -> (binade x <= binade y)%Z.
Proof.
  intros Hx H. destruct (binade_spec x Hx) as [L _].
  destruct (binade_spec y) as [_ U]; [lra|].
  assert (2 ^ binade x < 2 ^ (binade y + 1)) as K by lra.
  apply pow2_lt_inv in K. lia.
Qed.

(** *** The nearest double *)

Lemma nearest_double_grid x : ~ x == 0 -> nearest_double x = grid (ulp_exponent x) x.
Proof.
  intros H. unfold nearest_double, grid.
  destruct (Qeq_bool x 0) eqn:E; [|reflexivity].
  apply Qeq_bool_iff in E. contradiction.
Qed.

Lemma nearest_double_0 x : x == 0 -> nearest_double x = 0.
Proof.
  intros H. unfold nearest_double. apply Qeq_bool_iff in H. now rewrite H.
Qed.

Lemma ulp_exponent_pos x : 0 < x -> ulp_exponent x = Z.max (binade x - 52) (-1074).
Proof.
  intros H. unfold ulp_exponent. f_equal. f_equal.
  apply binade_comp; [now apply Qabs_case; lra|apply Qabs_pos; lra].
Qed.

#[global] Instance nearest_double_comp : Proper (Qeq ==> Qeq) nearest_double.
Proof.
  intros x y E. destruct (Qeq_dec x 0) as [Z|N].
  - rewrite (nearest_double_0 x Z), (nearest_double_0 y); [reflexivity|now rewrite <- E].
  - assert (~ y == 0) as N' by now rewrite <- E.
    rewrite (nearest_double_grid x N), (nearest_double_grid y N').
    assert (ulp_exponent x = ulp_exponent y) as ->.
    { unfold ulp_exponent. f_equal. f_equal. apply binade_comp; [|now rewrite E].
      apply Qabs_case; intros; lra. }
    unfold grid. now rewrite E.
Qed.

Lemma grid_nonneg c x : 0 <= x -> 0 <= grid c x.
Proof.
  intros H. apply (grid_ge c 0); [ring|exact H].
Qed.

Lemma nearest_double_nonneg x : 0 <= x -> 0 <= nearest_double x.
Proof.
  intros H. destruct (Qeq_dec x 0) as [Z|N].
  - rewrite (nearest_double_0 x Z). lra.
  - rewrite (nearest_double_grid x N). now apply grid_nonneg.
Qed.

Lemma nearest_double_mono_nonneg x y :
  0 <= x -> x <= y -> nearest_double x <= nearest_double y.
Proof.
  intros Hx H. destruct (Qeq_dec x 0) as [Z|N].
  { rewrite (nearest_double_0 x Z). apply nearest_double_nonneg. lra. }
  assert (0 < x) as Px by lra. assert (0 < y) as Py by lra.
  rewrite (nearest_double_grid x N), (nearest_double_grid y) by lra.
  rewrite (ulp_exponent_pos x Px), (ulp_exponent_pos y Py).
  pose proof (binade_mono x y Px H) as B.
  destruct (binade_spec x Px) as [_ Ux]. destruct (binade_spec y Py) as [Ly _].
  set (ex := binade x) in *. set (ey := binade y) in *.
  destruct (Z.eq_dec (Z.max (ex - 52) (-1074)) (Z.max (ey - 52) (-1074))) as [E|D].
  - rewrite E. now apply grid_mono.
  - assert (ex + 1 <= ey)%Z as S by lia.
    assert (x <= 2 ^ ey) as Xv by (pose proof (pow2_le _ _ S); lra).
    apply Qle_trans with (2 ^ ey).
    + apply (grid_le _ (2 ^ (ey - Z.max (ex - 52) (-1074)))); [apply pow2_multiple; lia|exact Xv].
    + apply (grid_ge _ (2 ^ (ey - Z.max (ey - 52) (-1074)))); [apply pow2_multiple; lia|exact Ly].
Qed.

(** A whole multiple of a power of two with at most 53 bits is a
    double. *)
Lemma nearest_double_fix_nonneg m c x :
  (-1074 <= c)%Z -> (0 <= m <= 2 ^ 53)%Z -> x == inject_Z m * 2 ^ c ->
  nearest_double x == x.
Proof.
  intros Hc Hm E. destruct (Qeq_dec x 0) as [Z|N].
  { rewrite (nearest_double_0 x Z). now symmetry. }
  pose proof (pow2_pos c) as Pc.
  assert (0 < m)%Z as Pm.
  { destruct (Z.eq_dec m 0) as [->|]; [|lia]. exfalso. apply N. rewrite E. ring. }
  assert (0 < x) as Px.
  { rewrite E. apply Qmult_lt_0_compat; [|exact Pc]. change 0 with (inject_Z 0).
    now rewrite <- Zlt_Qlt. }
  rewrite (nearest_double_grid x N), (ulp_exponent_pos x Px).
  destruct (binade_spec x Px) as [L U]. set (e := binade x) in *.
  assert (inject_Z m <= 2 ^ 53) as M.
  { rewrite (pow2_Z 53) by lia. rewrite <- Zle_Qle. lia. }
  assert (e <= 53 + c)%Z as B.
  { apply pow2_le_inv. rewrite pow2_add. nra. }
  destruct (Z.eq_dec e (53 + c)) as [T|T].
  - assert (x == 2 ^ (53 + c)) as X.
    { apply Qle_antisym; [rewrite pow2_add; nra|now rewrite <- T]. }
    apply (grid_fix _ (2 ^ (53 + c - Z.max (e - 52) (-1074)))).
    rewrite X. apply pow2_multiple. lia.
  - apply (grid_fix _ (m * 2 ^ (c - Z.max (e - 52) (-1074)))).
    rewrite E, inject_Z_mult, <- Qmult_assoc. apply Qmult_comp; [reflexivity|].
    apply pow2_multiple. lia.
Qed.


Lemma nearest_double_idem_nonneg x :
  0 <= x -> nearest_double (nearest_double x) == nearest_double x.
Proof.
  intros Hx. destruct (Qeq_dec x 0) as [Z|N].
  { rewrite (nearest_double_0 x Z). reflexivity. }
  assert (0 < x) as Px by lra.
  rewrite (nearest_double_grid x N), (ulp_exponent_pos x Px).
  destruct (binade_spec x Px) as [_ U]. set (e := binade x) in *.
  set (c := Z.max (e - 52) (-1074)).
  pose proof (pow2_pos c) as Pc.
  apply (nearest_double_fix_nonneg (round_half_even (x / 2 ^ c)) c); [lia| |reflexivity].
  split.
  - rewrite <- (round_half_even_Z 0). apply round_half_even_mono.
    apply Qle_shift_div_l; [exact Pc|]. change (inject_Z 0) with 0. lra.
  - rewrite <- (round_half_even_Z (2 ^ 53)). apply round_half_even_mono.
    rewrite <- (pow2_Z 53) by lia.
    apply Qle_shift_div_r; [exact Pc|]. rewrite <- pow2_add.
    assert (2 ^ (e + 1) <= 2 ^ (53 + c)) by (apply pow2_le; lia). lra.
Qed.

(** *** Negative numbers *)

Lemma Qfloor_unique x n : inject_Z n <= x -> x < inject_Z (n + 1) -> Qfloor x = n.
Proof.
  intros L U. pose proof (Qfloor_le x) as F1. pose proof (Qlt_floor x) as F2.
  assert (inject_Z n < inject_Z (Qfloor x + 1)) as A by lra.
  assert (inject_Z (Qfloor x) < inject_Z (n + 1)) as B by lra.
  rewrite <- Zlt_Qlt in A, B. lia.
Qed.

Lemma round_half_even_opp x : round_half_even (- x) = (- round_half_even x)%Z.
Proof.
  pose proof (Qfloor_le x) as F1. pose proof (Qlt_floor x) as F2.
  set (n := Qfloor x) in *. rewrite inject_Z_plus in F2. change (inject_Z 1) with 1 in F2.
  destruct (Qeq_dec x (inject_Z n)) as [E|N].
  - rewrite E, <- inject_Z_opp, !round_half_even_Z. reflexivity.
  - assert (inject_Z (- n - 1) == - inject_Z n - 1) as I.
    { unfold Z.sub. rewrite inject_Z_plus, !inject_Z_opp. reflexivity. }
    assert (Qfloor (- x) = (- n - 1)%Z) as F.
    { apply Qfloor_unique.
      - rewrite I. lra.
      - replace (- n - 1 + 1)%Z with (- n)%Z by lia. rewrite inject_Z_opp.
        destruct (Qlt_le_dec (inject_Z n) x); [lra|]. exfalso. apply N. lra. }
    unfold round_half_even. rewrite F. fold n.
    assert (Z.even (- n - 1) = negb (Z.even n)) as P.
    { replace (- n - 1)%Z with (- (n + 1))%Z by lia.
      now rewrite Z.even_opp, Z.add_1_r, Z.even_succ, <- Z.negb_even. }
    destruct (Qcompare_spec (x - inject_Z n) (1 # 2)) as [C|C|C];
      destruct (Qcompare_spec (- x - inject_Z (- n - 1)) (1 # 2)) as [C'|C'|C'];
      rewrite ?I in C'; rewrite ?P; try (destruct (Z.even n); cbn [negb]); try lia; exfalso; lra.
Qed.

Lemma nearest_double_opp x : nearest_double (- x) == - nearest_double x.
Proof.
  destruct (Qeq_dec x 0) as [Z|N].
  - rewrite (nearest_double_0 x Z), (nearest_double_0 (- x)); [reflexivity|lra].
  - rewrite (nearest_double_grid x N), (nearest_double_grid (- x)) by lra.
    assert (ulp_exponent (- x) = ulp_exponent x) as ->.
    { unfold ulp_exponent. f_equal. f_equal. apply binade_comp; [|apply Qabs_opp].
      apply Qabs_case; intros; lra. }
    unfold grid.
    assert (- x / 2 ^ ulp_exponent x == - (x / 2 ^ ulp_exponent x)) as ->
        by (field; pose proof (pow2_pos (ulp_exponent x)); lra).
    rewrite round_half_even_opp, inject_Z_opp. ring.
Qed.

(** Rounding keeps the order. *)
Lemma nearest_double_mono x y : x <= y -> nearest_double x <= nearest_double y.
Proof.
  intros H. destruct (Qlt_le_dec x 0) as [Nx|Px]; [|now apply nearest_double_mono_nonneg].
  assert (nearest_double x <= 0) as Lx.
  { pose proof (nearest_double_nonneg (- x)) as K. rewrite nearest_double_opp in K. lra. }
  destruct (Qlt_le_dec y 0) as [Ny|Py].
  - pose proof (nearest_double_mono_nonneg (- y) (- x)) as K.
    rewrite !nearest_double_opp in K. lra.
  - pose proof (nearest_double_nonneg y Py). lra.
Qed.

(** A double is its own nearest double. *)
Lemma nearest_double_idem x : is_double (nearest_double x).
Proof.
  unfold is_double. destruct (Qlt_le_dec x 0) as [Nx|Px];
    [|now apply nearest_double_idem_nonneg].
  assert (nearest_double x == - nearest_double (- x)) as E
      by (rewrite nearest_double_opp; ring).
  rewrite E, nearest_double_opp, (nearest_double_idem_nonneg (- x)) by lra.
  reflexivity.
Qed.

(** The whole numbers up to 2^53 are doubles. *)
Lemma is_double_Z n : (Z.abs n <= 2 ^ 53)%Z -> is_double (inject_Z n).
Proof.
  intros H. unfold is_double.
  assert (forall m, (0 <= m <= 2 ^ 53)%Z -> nearest_double (inject_Z m) == inject_Z m) as P.
  { intros m Hm. apply (nearest_double_fix_nonneg m 0); [lia|exact Hm|].
    change (2 ^ 0) with 1. ring. }
  destruct (Z.le_gt_cases 0 n) as [Pn|Nn]; [apply P; lia|].
  replace n with (- - n)%Z by lia. rewrite inject_Z_opp, nearest_double_opp, P by lia.
  reflexivity.
Qed.

Lemma nearest_double_le_Z x n :
  (Z.abs n <= 2 ^ 53)%Z -> x <= inject_Z n -> nearest_double x <= inject_Z n.
Proof.
  intros Hn H. pose proof (is_double_Z n Hn) as D. unfold is_double in D.
  rewrite <- D. now apply nearest_double_mono.
Qed.

Lemma nearest_double_ge_Z x n :
  (Z.abs n <= 2 ^ 53)%Z -> inject_Z n <= x -> inject_Z n <= nearest_double x.
Proof.
  intros Hn H. pose proof (is_double_Z n Hn) as D. unfold is_double in D.
  rewrite <- D. now apply nearest_double_mono.
Qed.

(** *** Arithmetic of the estimator *)

Lemma Qltb_lt a b : Qltb a b = true <-> a < b.
Proof.
  unfold Qltb. rewrite negb_true_iff. split.
  - intros H. apply Qnot_le_lt. intros C. apply Qle_bool_iff in C. congruence.
  - intros H. destruct (Qle_bool b a) eqn:E; [|reflexivity].
    apply Qle_bool_iff in E. lra.
Qed.

Lemma Qltb_ge a b : Qltb a b = false <-> b <= a.
Proof.
  unfold Qltb. rewrite negb_false_iff. apply Qle_bool_iff.
Qed.

Lemma is_double_90 : is_double 90.
Proof. apply (is_double_Z 90). cbn. lia. Qed.

(** What one tick adds: [Math.random() * 8 + 2], rounded twice. *)
Lemma increment_bounds r :
  0 <= r -> 2 <= js_add (js_mul r 8) 2 /\ (r <= 1 -> js_add (js_mul r 8) 2 <= 10).
Proof.
  intros H. unfold js_add, js_mul.
  assert (0 <= nearest_double (r * 8)) as L by (apply nearest_double_nonneg; lra).
  split.
  - apply (nearest_double_ge_Z _ 2); [cbn; lia|]. change (inject_Z 2) with 2. lra.
  - intros U.
    assert (nearest_double (r * 8) <= 8) as M.
    { apply (nearest_double_le_Z _ 8); [cbn; lia|]. change (inject_Z 8) with 8. lra. }
    apply (nearest_double_le_Z _ 10); [cbn; lia|]. change (inject_Z 10) with 10. lra.
Qed.

Lemma advance_capped p r : p <= 90 -> advance p r <= 90.
Proof.
  intros H. unfold advance. destruct (Qltb p 90); [|exact H].
  destruct (Qltb 90 _) eqn:E; [lra|]. now apply Qltb_ge in E.
Qed.

Lemma advance_grows p r : is_double p -> 0 <= r -> p <= advance p r.
Proof.
  intros D H. unfold advance. destruct (Qltb p 90) eqn:E; [|apply Qle_refl].
  apply Qltb_lt in E. destruct (increment_bounds r H) as [I _].
  destruct (Qltb 90 _); [lra|].
  unfold is_double in D. rewrite <- D at 1. unfold js_add at 1.
  apply nearest_double_mono. lra.
Qed.

Lemma advance_double p r : is_double p -> is_double (advance p r).
Proof.
  intros D. unfold advance. destruct (Qltb p 90); [|exact D].
  destruct (Qltb 90 _); [apply is_double_90|apply nearest_double_idem].
Qed.

(** After [k] ticks from 0 the estimate is at least [2 * k] and at
    most [10 * k]: both bounds are doubles, and rounding keeps the
    order. *)
Lemma advance_above p r k :
  (0 <= k <= 44)%Z -> p <= 90 -> 0 <= r -> inject_Z (2 * k) <= p ->
  advance p r == 90 \/ inject_Z (2 * (k + 1)) <= advance p r.
Proof.
  intros Hk Hp Hr L. unfold advance. destruct (Qltb p 90) eqn:E.
  - destruct (Qltb 90 _); [left; reflexivity|right].
    destruct (increment_bounds r Hr) as [I _]. unfold js_add at 1.
    apply nearest_double_ge_Z; [lia|].
    replace (2 * (k + 1))%Z with (2 * k + 2)%Z by lia. rewrite inject_Z_plus.
    change (inject_Z 2) with 2. lra.
  - left. apply Qltb_ge in E. lra.
Qed.

Lemma advance_below p r k :
  (0 <= k <= 8)%Z -> 0 <= r -> r <= 1 -> p <= inject_Z (10 * k) ->
  advance p r <= inject_Z (10 * (k + 1)).
Proof.
  intros Hk Hr Hr' U.
  assert (inject_Z (10 * (k + 1)) == inject_Z (10 * k) + 10) as T.
  { replace (10 * (k + 1))%Z with (10 * k + 10)%Z by lia. now rewrite inject_Z_plus. }
  unfold advance. destruct (Qltb p 90) eqn:E; [|lra].
  destruct (increment_bounds r Hr) as [_ I]. specialize (I Hr').
  assert (js_add p (js_add (js_mul r 8) 2) <= inject_Z (10 * (k + 1))) as B.
  { unfold js_add at 1. apply nearest_double_le_Z; [lia|]. lra. }
  destruct (Qltb 90 _) eqn:E'; [|exact B].
  apply Qltb_lt in E'. lra.
Qed.

Close Scope Q_scope.

Lemma Math_round_mono x y : (x <= y)%Q -> (Math_round x <= Math_round y)%Z.
Proof.
  intros H. unfold Math_round. apply Qfloor_resp_le. lra.
Qed.


(** *** Updates of the job list *)


Lemma nth_error_update_nth {A} j k (f : A -> A) l :
  nth_error (update_nth j f l) k
  = if k =? j then option_map f (nth_error l k) else nth_error l k.
Proof.
  revert j k. induction l as [|x l IH]; intros [|j] [|k]; cbn; auto.
  now destruct (k =? j).
Qed.

Lemma Forall_update_nth {A} (P : A -> Prop) j (f : A -> A) l :
  Forall P l -> (forall x, P x -> P (f x)) -> Forall P (update_nth j f l).
Proof.
  intros H Hf. revert j. induction H as [|x l Hx Hl IH]; intros [|j]; cbn; auto.
Qed.





(** *** The invariant, step by step *)











(** *** What the handlers do to the view *)

Lemma handleApiError_poller r e : keeps poller_view (handleApiError r e).
Proof. unfold handleApiError. frame. Qed.

Lemma loadCameras_resume_poller s : keeps poller_view (loadCameras_resume s).
Proof. unfold loadCameras_resume. intros; split_cases; now rewrite ?handleApiError_poller. Qed.

Lemma loadVideos_resume_poller s : keeps poller_view (loadVideos_resume s).
Proof. unfold loadVideos_resume. intros; split_cases; now rewrite ?handleApiError_poller. Qed.

Lemma loadUploadedVideos_resume_poller s : keeps poller_view (loadUploadedVideos_resume s).
Proof.
  unfold loadUploadedVideos_resume. intros; split_cases; now rewrite ?handleApiError_poller.
Qed.

Lemma handleVideoUpload_poller : keeps poller_view handleVideoUpload.
Proof. unfold handleVideoUpload. frame. Qed.

Lemma handleVideoUpload_finally_poller : keeps poller_view handleVideoUpload_finally.
Proof. unfold handleVideoUpload_finally. frame. Qed.

Lemma handleVideoUpload_resume_poller s : keeps poller_view (handleVideoUpload_resume s).
Proof.
  unfold handleVideoUpload_resume, loadUploadedVideos_pending, loadUploadedVideos,
    handleVideoUpload_finally.
  frame.
Qed.

Lemma awaited_loadUploadedVideos_resume_poller s :
  keeps poller_view (awaited_loadUploadedVideos_resume s).
Proof.
  intros w. unfold awaited_loadUploadedVideos_resume.
  now rewrite handleVideoUpload_finally_poller, loadUploadedVideos_resume_poller.
Qed.

Lemma processVideo_view w :
  poller_view (processVideo w)
  = if accepts w then
      mkView (jobs w) 0 0 (S (submissions w)) (S (submitting w)) (probes w)
    else poller_view w.
Proof.
  unfold processVideo, accepts. split_cases; first [reflexivity | absurd_test].
Qed.

Lemma processVideo_resume_view s w :
  poller_view (processVideo_resume s w)
  = match s with
    | Response true _ _ (Some (PProcess data)) =>
        mkView (jobs w ++ [mkJob (processed_filename data) 0 0 true])
               (width w) (shown w) (submissions w) (submitting w) (probes w)
    | _ => poller_view w
    end.
Proof. unfold processVideo_resume. split_cases; reflexivity. Qed.

Lemma poll_tick_view j r w :
  poller_view (poll_tick j r w)
  = match nth_error (jobs w) j with
    | Some b =>
        if pollInterval b then
          mkView (update_nth j (fun b0 => mkJob (processedFilename b0)
                                                (advance (progress b) r)
                                                (lastProgress b0) (pollInterval b0))
                             (jobs w))
                 (advance (progress b) r) (Math_round (advance (progress b) r))
                 (submissions w) (submitting w) (j :: probes w)
        else poller_view w
    | None => poller_view w
    end.
Proof.
  unfold poll_tick. destruct (nth_error (jobs w) j) as [b|]; [|reflexivity].
  destruct (pollInterval b); reflexivity.
Qed.

Lemma poll_tick_resume_view j s w :
  poller_view (poll_tick_resume j s w)
  = match nth_error (jobs w) j with
    | Some b =>
        if found s then
          mkView (update_nth j (fun b => mkJob (processedFilename b) (progress b)
                                               (lastProgress b) false) (jobs w))
                 100 100 (submissions w) (submitting w) (probes w)
        else
          mkView (update_nth j (fun b => mkJob (processedFilename b) (progress b)
                                               (progress b) (pollInterval b)) (jobs w))
                 (width w) (shown w) (submissions w) (submitting w) (probes w)
    | None => poller_view w
    end.
Proof.
  unfold poll_tick_resume. destruct (nth_error (jobs w) j) as [b|]; [|reflexivity].
  destruct s as [e|[|] st tx body]; cbn [found]; split_cases; reflexivity.
Qed.

Lemma poll_deadline_view j w :
  poller_view (poll_deadline j w)
  = match nth_error (jobs w) j with
    | Some b =>
        mkView (update_nth j (fun b => mkJob (processedFilename b) (progress b)
                                             (lastProgress b) false) (jobs w))
               (width w) (shown w) (submissions w) (submitting w) (probes w)
    | None => poller_view w
    end.
Proof.
  unfold poll_deadline. destruct (nth_error (jobs w) j) as [b|]; [|reflexivity].
  split_cases; reflexivity.
Qed.

(** *** The poller along a session *)

Lemma In_remove_nth {A} i (l : list A) x : In x (remove_nth i l) -> In x l.
Proof.
  unfold remove_nth. revert l. induction i as [|i IH]; intros [|y l]; cbn; auto.
  intros [H|H]; auto.
Qed.

Lemma probes_remove i w k :
  In k (probes (with_inflight (remove_nth i (inflight w)) w)) -> In k (probes w).
Proof.
  unfold probes. cbn [inflight with_inflight]. rewrite !in_flat_map.
  intros (f & Hf & Hk). exists f. split; [|exact Hk]. eapply In_remove_nth; eauto.
Qed.


















Ltac draws :=
  repeat (constructor;
          [first [exact I | cbn [valid_draw]; split; [unfold Qle|unfold Qlt]; cbn; lia]|]).


(** C2.  The ten-minute timer is never cancelled and tests the local
    [progress], which success does not set to 100: after the success
    outcome has fired, the expiry of the timer overwrites the status text
    and notifies a timeout. *)
Theorem timeout_fires_after_success :
  let w := run (process_events ++ completion_events) uploaded in
  let w' := step (Fire 0) w in
  history w
  = history uploaded
    ++ [Console "Progress section shown";
        Request "POST" "/api/process-video" (JsonProcess "clip.mp4" true);
        Console "Processing already in progress, ignoring duplicate request";
        Request "GET" "/api/processed-video/processed_clip.mp4" NoBody;
        Request "GET" "/api/processed-video/processed_clip.mp4" NoBody;
        Notification "Video processed successfully!" "success"]
  /\ processingStatus (progressUi (ui w)) = "Processing completed successfully!"
  /\ shown w = 100%Z
  /\ map Qred (map progress (jobs w)) = [14%Q]
  /\ timers w = [(600000%N, PollDeadline 0)]
  /\ history w'
     = history w ++ [Notification "Processing timeout - check server logs" "warning"]
  /\ processingStatus (progressUi (ui w')) = "Processing timeout - check server logs".
Proof. vm_compute. repeat split. Qed.

(** ** Camera previews *)

Lemma nth_error_previews cams got k c s :
  nth_error cams k = Some c -> nth_error got k = Some s ->
  nth_error (map (fun cs => preview_of (fst cs) (snd cs)) (combine cams got)) k
  = Some (preview_of c s).
Proof.
  revert got k. induction cams as [|c0 cams IH]; intros [|s0 got] [|k] Hc Hs;
    try discriminate; cbn in *.
  - now injection Hc as ->; injection Hs as ->.
  - now apply IH.
Qed.

Lemma map_camera_previews cams got :
  List.length got = List.length cams ->
  map camera (map (fun cs => preview_of (fst cs) (snd cs)) (combine cams got)) = cams.
Proof.
  revert got. induction cams as [|c cams IH]; intros [|s got] H; try discriminate; cbn.
  - reflexivity.
  - f_equal; [|apply IH; now injection H].
    now destruct s as [e|[|] st tx [[]|]].
Qed.

(** *** The camera of the stream *)

Ltac same_stream := intros; split_cases; first [reflexivity | congruence].

Lemma handleApiError_stream resource error w :
  stream_camera (handleApiError resource error w) = stream_camera w.
Proof. unfold handleApiError. same_stream. Qed.

Lemma loadCameras_stream w : stream_camera (loadCameras w) = stream_camera w.
Proof. unfold loadCameras. same_stream. Qed.

Lemma loadVideos_stream w : stream_camera (loadVideos w) = stream_camera w.
Proof. unfold loadVideos. same_stream. Qed.

Lemma loadUploadedVideos_stream b w :
  stream_camera (loadUploadedVideos b w) = stream_camera w.
Proof. unfold loadUploadedVideos. same_stream. Qed.

Lemma loadCameras_resume_stream s w :
  stream_camera (loadCameras_resume s w) = stream_camera w.
Proof.
  unfold loadCameras_resume. split_cases; now rewrite ?handleApiError_stream.
Qed.

Lemma loadVideos_resume_stream s w :
  stream_camera (loadVideos_resume s w) = stream_camera w.
Proof.
  unfold loadVideos_resume. split_cases; now rewrite ?handleApiError_stream.
Qed.

Lemma loadUploadedVideos_resume_stream s w :
  stream_camera (loadUploadedVideos_resume s w) = stream_camera w.
Proof.
  unfold loadUploadedVideos_resume. split_cases; now rewrite ?handleApiError_stream.
Qed.

Lemma updateCameraPreviews_stream w :
  stream_camera (updateCameraPreviews w) = stream_camera w.
Proof. unfold updateCameraPreviews. same_stream. Qed.

Lemma updateCameraPreviews_resume_stream cams got w :
  stream_camera (updateCameraPreviews_resume cams got w) = stream_camera w.
Proof. unfold updateCameraPreviews_resume. same_stream. Qed.

Lemma loadCameraSnapshot_stream c w :
  stream_camera (loadCameraSnapshot c w) = stream_camera w.
Proof. unfold loadCameraSnapshot. same_stream. Qed.

Lemma loadCameraSnapshot_resume_stream s w :
  stream_camera (loadCameraSnapshot_resume s w) = stream_camera w.
Proof. unfold loadCameraSnapshot_resume. same_stream. Qed.

Lemma previewCamera_stream c w :
  stream_camera (previewCamera c w) = stream_camera w.
Proof. unfold previewCamera. same_stream. Qed.

Lemma captureSnapshot_stream c w :
  stream_camera (captureSnapshot c w) = stream_camera w.
Proof. unfold captureSnapshot. same_stream. Qed.

Lemma captureSnapshot_resume_stream s w :
  stream_camera (captureSnapshot_resume s w) = stream_camera w.
Proof. unfold captureSnapshot_resume. same_stream. Qed.

Lemma addCamera_stream w : stream_camera (addCamera w) = stream_camera w.
Proof. unfold addCamera. same_stream. Qed.

Lemma addCamera_resume_stream s w :
  stream_camera (addCamera_resume s w) = stream_camera w.
Proof. unfold addCamera_resume, loadCameras. same_stream. Qed.

Lemma deleteCamera_stream c b w :
  stream_camera (deleteCamera c b w) = stream_camera w.
Proof. unfold deleteCamera. same_stream. Qed.

Lemma deleteCamera_resume_stream s w :
  stream_camera (deleteCamera_resume s w) = stream_camera w.
Proof. unfold deleteCamera_resume, loadCameras. same_stream. Qed.

Lemma deleteUploadedVideo_stream v b w :
  stream_camera (deleteUploadedVideo v b w) = stream_camera w.
Proof. unfold deleteUploadedVideo. same_stream. Qed.

Lemma deleteUploadedVideo_resume_stream s w :
  stream_camera (deleteUploadedVideo_resume s w) = stream_camera w.
Proof. unfold deleteUploadedVideo_resume, loadUploadedVideos. same_stream. Qed.

Lemma handleVideoUpload_stream w :
  stream_camera (handleVideoUpload w) = stream_camera w.
Proof. unfold handleVideoUpload. same_stream. Qed.

Lemma handleVideoUpload_finally_stream w :
  stream_camera (handleVideoUpload_finally w) = stream_camera w.
Proof. unfold handleVideoUpload_finally. same_stream. Qed.

Lemma awaited_loadUploadedVideos_resume_stream s w :
  stream_camera (awaited_loadUploadedVideos_resume s w) = stream_camera w.
Proof.
  unfold awaited_loadUploadedVideos_resume.
  now rewrite handleVideoUpload_finally_stream, loadUploadedVideos_resume_stream.
Qed.

Lemma uploadVideo_stream w : stream_camera (uploadVideo w) = stream_camera w.
Proof. unfold uploadVideo. same_stream. Qed.

Lemma processVideo_stream w : stream_camera (processVideo w) = stream_camera w.
Proof. unfold processVideo. same_stream. Qed.

Lemma processVideo_resume_stream s w :
  stream_camera (processVideo_resume s w) = stream_camera w.
Proof.
  unfold processVideo_resume, processVideo_finally, processVideo_catch,
    startProgressPolling.
  same_stream.
Qed.

Lemma poll_tick_stream j random w :
  stream_camera (poll_tick j random w) = stream_camera w.
Proof. unfold poll_tick. same_stream. Qed.

Lemma poll_tick_resume_stream j s w :
  stream_camera (poll_tick_resume j s w) = stream_camera w.
Proof. unfold poll_tick_resume. same_stream. Qed.

Lemma poll_deadline_stream j w :
  stream_camera (poll_deadline j w) = stream_camera w.
Proof. unfold poll_deadline. same_stream. Qed.

Lemma hideProgressRow_stream w :
  stream_camera (hideProgressRow w) = stream_camera w.
Proof. unfold hideProgressRow. same_stream. Qed.

Lemma window_online_stream w :
  stream_camera (window_online w) = stream_camera w.
Proof. unfold window_online, loadCameras, loadVideos, loadUploadedVideos. same_stream. Qed.

Lemma run_callback_stream cb w :
  stream_camera (run_callback cb w) = stream_camera w.
Proof.
  destruct cb; unfold run_callback; split_cases;
    first [ reflexivity
          | apply loadCameras_stream
          | apply loadVideos_stream
          | apply loadUploadedVideos_stream
          | apply hideProgressRow_stream
          | apply poll_deadline_stream
          | apply updateCameraPreviews_stream ].
Qed.


Lemma handleVideoUpload_resume_stream s w :
  stream_camera (handleVideoUpload_resume s w) = stream_camera w.
Proof.
  unfold handleVideoUpload_resume, handleVideoUpload_catch, handleVideoUpload_finally,
    loadUploadedVideos_pending, loadUploadedVideos.
  same_stream.
Qed.

Lemma uploadVideo_resume_stream s w :
  stream_camera (uploadVideo_resume s w) = stream_camera w.
Proof. unfold uploadVideo_resume, showVideoInfo. same_stream. Qed.

Lemma loadCameraSnapshot_resume_panel s w :
  cameraPreview (ui (loadCameraSnapshot_resume s w)) = cameraPreview (ui w).
Proof. unfold loadCameraSnapshot_resume. same_stream. Qed.

(** The modal binds the handlers of the stream to its camera. *)
Lemma showCameraPreviewModal_stream cameraData w :
  el_cameraPreviewModal (page w) && el_cameraStream (page w)
  && el_streamStatus (page w) && el_cameraInfo (page w) = true ->
  stream_camera (showCameraPreviewModal cameraData w) = Some (camera_id cameraData).
Proof. intros H. unfold showCameraPreviewModal. now rewrite H. Qed.

Lemma previewCamera_resume_stream i s w :
  answers_stream (Settle i s) = false ->
  stream_camera (previewCamera_resume s w) = stream_camera w.
Proof.
  unfold previewCamera_resume. destruct s as [e|[|] st tx [[]|]]; try discriminate;
    intros _; reflexivity.
Qed.

Lemma resume_stream i f s w :
  answers_stream (Settle i s) = false -> stream_camera (resume f s w) = stream_camera w.
Proof.
  intros H.
  destruct f as [ | | [|] | | | | j | | | | | | | ]; cbn [resume];
    first [ now apply (previewCamera_resume_stream i)
          | apply loadCameras_resume_stream
          | apply loadVideos_resume_stream
          | apply loadUploadedVideos_resume_stream
          | apply awaited_loadUploadedVideos_resume_stream
          | apply processVideo_resume_stream
          | apply handleVideoUpload_resume_stream
          | apply uploadVideo_resume_stream
          | apply poll_tick_resume_stream
          | apply loadCameraSnapshot_resume_stream
          | apply captureSnapshot_resume_stream
          | apply addCamera_resume_stream
          | apply deleteCamera_resume_stream
          | apply deleteUploadedVideo_resume_stream
          | reflexivity ].
Qed.

(** Only an answer with the stream of a camera rebinds the handlers. *)
Lemma step_stream e w :
  answers_stream e = false -> stream_camera (step e w) = stream_camera w.
Proof.
  intros H. destruct e; unfold step;
    try (first [ reflexivity
               | apply previewCamera_stream
               | apply captureSnapshot_stream
               | apply addCamera_stream
               | apply deleteCamera_stream
               | apply deleteUploadedVideo_stream
               | apply window_online_stream
               | apply poll_tick_stream
               | apply updateCameraPreviews_stream ]; fail).
  - now rewrite uploadVideo_stream, handleVideoUpload_stream.
  - now rewrite !processVideo_stream.
  - destruct (nth_error (inflight w) i) as [f|]; [|reflexivity].
    pose proof (resume_stream i f s (with_inflight (remove_nth i (inflight w)) w) H) as R.
    destruct f; first [exact R | reflexivity].
  - destruct (nth_error (inflight w) i) as [[]|]; try reflexivity.
    destruct (List.length got =? List.length cams); [|reflexivity].
    now rewrite updateCameraPreviews_resume_stream.
  - destruct (nth_error (timers w) i) as [[ms cb]|]; [|reflexivity].
    now rewrite run_callback_stream.
  - destruct (el_videosGrid (page (loadCameras w)));
      now rewrite ?loadVideos_stream, loadCameras_stream.
  - destruct (cameraStream_onerror (streamUi (ui w))); reflexivity.
  - destruct (cameraStream_onerror (streamUi (ui w))); reflexivity.
  - destruct (cameraStream_onerror (streamUi (ui w))) eqn:E; [|reflexivity].
    unfold cameraStream_onerror_handler. rewrite loadCameraSnapshot_stream.
    reflexivity.
Qed.

Lemma run_stream evs :
  forall w, forallb (fun e => negb (answers_stream e)) evs = true ->
            stream_camera (run evs w) = stream_camera w.
Proof.
  induction evs as [|e evs IH]; intros w H; [reflexivity|].
  cbn [forallb] in H. apply andb_true_iff in H. destruct H as [He H].
  apply negb_true_iff in He.
  change (run (e :: evs) w) with (run evs (step e w)).
  now rewrite (IH _ H), step_stream.
Qed.

(** C9.  The handlers of the stream in the preview modal stay bound to
    the camera of the modal whatever else happens, until another preview
    is answered; when the stream fails, its handler sends the snapshot
    request for that camera, and neither it nor the outcome of that
    request tags anything in the panel.  A refresh sends one snapshot
    request per camera; when they have all settled, the panel is rendered
    with one entry per camera, in order, each made from the result of its
    own request: "online" with the snapshot when that request delivered
    one, "offline" without snapshot when it failed or its body could not
    be read. *)
Theorem preview_degrades_per_camera :
  (forall (w : World) (cameraData : StreamInfo) (evs : list Event),
      el_cameraPreviewModal (page w) && el_cameraStream (page w)
      && el_streamStatus (page w) && el_cameraInfo (page w) = true ->
      forallb (fun e => negb (answers_stream e)) evs = true ->
      stream_camera (run evs (showCameraPreviewModal cameraData w))
      = Some (camera_id cameraData))
  /\ (forall (w : World) (cameraId : nat),
        stream_camera w = Some cameraId ->
        let w' := step StreamError w in
        out w'
        = Request "GET" ("/api/stream/" ++ show_nat cameraId ++ "/snapshot") NoBody :: out w
        /\ inflight w' = F_loadCameraSnapshot :: inflight w
        /\ cameraPreview (ui w') = cameraPreview (ui w)
        /\ forall s, cameraPreview (ui (step (Settle 0 s) w')) = cameraPreview (ui w))
  /\ (forall (w : World),
        if (List.length (cameras (this w)) =? 0) || negb (el_cameraPreview (page w)) then
          updateCameraPreviews w = w
        else
          out (updateCameraPreviews w)
          = rev (map (fun c => Request "GET" ("/api/stream/" ++ show_nat (id c) ++ "/snapshot")
                                       NoBody)
                     (cameras (this w))) ++ out w
          /\ inflight (updateCameraPreviews w) = F_previews (cameras (this w)) :: inflight w)
  /\ (forall (w : World) (i : nat) (cams : list Camera) (got : list Settled),
        nth_error (inflight w) i = Some (F_previews cams) ->
        List.length got = List.length cams ->
        exists previews,
          cameraPreview (ui (step (Join i got) w)) = PanelGrid previews
          /\ map camera previews = cams
          /\ forall k c s, nth_error cams k = Some c -> nth_error got k = Some s ->
                           nth_error previews k = Some (preview_of c s))
  /\ (forall (c : Camera) (s : Settled),
        if failed s then preview_of c s = mkPreview c None "offline"
        else match json_of s with
             | Some (PBlob objectUrl) => preview_of c s = mkPreview c (Some objectUrl) "online"
             | _ => preview_of c s = mkPreview c None "offline"
             end).
Proof.
  split; [|split; [|split; [|split]]].
  - intros w cameraData evs Hel Hev.
    rewrite (run_stream evs _ Hev). now apply showCameraPreviewModal_stream.
  - intros w cameraId H w'. unfold stream_camera in H.
    assert (w' = loadCameraSnapshot cameraId (set_streamStatus StatusTryingSnapshot w)) as E
        by (unfold w', step; now rewrite H).
    rewrite E. split; [reflexivity|]. split; [reflexivity|]. split; [reflexivity|].
    intros s. unfold step, loadCameraSnapshot, fetch. cbn [inflight suspend emit nth_error].
    cbn [resume]. now rewrite loadCameraSnapshot_resume_panel.
  - intros w. unfold updateCameraPreviews.
    destruct (List.length (cameras (this w)) =? 0); [reflexivity|].
    destruct (el_cameraPreview (page w)); cbn; auto.
  - intros w i cams got Hf Hlen.
    unfold step. rewrite Hf, Hlen, Nat.eqb_refl. eexists. split; [reflexivity|]. split.
    + now apply map_camera_previews.
    + intros k c s. apply nth_error_previews.
  - intros c [e|[|] st tx [[]|]]; reflexivity.
Qed.

(** The theorem on the dashboard: the preview of the gate's stream,
    which fails after it has started to load, and a refresh of the two
    cameras in which the gate delivers a snapshot and the yard cannot be
    reached. *)
Lemma preview_degrades_per_camera_witness :
  let opened := showCameraPreviewModal (mkStreamInfo None 1 "Gate" "rtsp://gate/stream1")
                                       loaded in
  let failing := step StreamError (run [StreamLoadStart; Offline] opened) in
  let w := step RefreshPreviews loaded in
  let got := [ok (PBlob "blob:gate"); unreachable] in
  hd_error (out failing) = Some (Request "GET" "/api/stream/1/snapshot" NoBody)
  /\ cameraPreview (ui (step (Join 0 got) w))
     = PanelGrid [mkPreview gate (Some "blob:gate") "online"; mkPreview yard None "offline"].
Proof.
  intros opened failing w got.
  destruct preview_degrades_per_camera as (Bound & Error & _ & Joined & _).
  split.
  - pose proof (Bound loaded (mkStreamInfo None 1 "Gate" "rtsp://gate/stream1")
                  [StreamLoadStart; Offline] eq_refl eq_refl) as B.
    destruct (Error _ 1 B) as (O & _). unfold failing, opened. now rewrite O.
  - destruct (Joined w 0 [gate; yard] got eq_refl eq_refl) as (previews & E & _).
    rewrite E. vm_compute in E. injection E as <-. reflexivity.
Defined.

(** C10.  With no camera known, a preview refresh returns at once: the
    session is left exactly as it was, by the periodic refresh as by the
    first one. *)
Theorem refresh_without_cameras :
  forall (w : World),
    cameras (this w) = [] ->
    updateCameraPreviews w = w
    /\ step RefreshPreviews w = w
    /\ run_callback FirstPreviews w = w.
Proof.
  intros w H. unfold step, run_callback, updateCameraPreviews. now rewrite H.
Qed.

Lemma refresh_without_cameras_witness :
  cameras (this (boot dashboard)) = []
  /\ step RefreshPreviews (boot dashboard) = boot dashboard.
Proof.
  split; [reflexivity|].
  apply (refresh_without_cameras (boot dashboard)). reflexivity.
Defined.

(** ** Lists that a page skips *)

Ltac mute := intros; split_cases; unfold loads_view, loads; cbn; reflexivity.

Lemma keeps_quiet h : keeps loads_view h -> quiet h.
Proof.
  intros K r w _. specialize (K w). unfold loads_view in K.
  injection K as P C V U. destruct r; split; assumption.
Qed.

Lemma quiet_compose h1 h2 : quiet h1 -> quiet h2 -> quiet (fun w => h2 (h1 w)).
Proof.
  intros Q1 Q2 r w H. destruct (Q1 r w H) as [P1 L1].
  destruct (Q2 r (h1 w)) as [P2 L2]; [now rewrite P1|].
  split; congruence.
Qed.

Lemma quiet_id : quiet (fun w => w).
Proof. intros r w _. split; reflexivity. Qed.

Lemma quiet_here r w : page w = page w /\ loads r w = loads r w.
Proof. split; reflexivity. Qed.

(** A handler that is quiet after a prefix that is. *)
Lemma quiet_after r w w' h :
  quiet h -> skipped r (page w) = true ->
  page w' = page w /\ loads r w' = loads r w ->
  page (h w') = page w /\ loads r (h w') = loads r w.
Proof.
  intros Q H [P L]. destruct (Q r w') as [P' L']; [now rewrite P|].
  split; congruence.
Qed.

Lemma handleApiError_loads resource error : keeps loads_view (handleApiError resource error).
Proof. unfold handleApiError. mute. Qed.

Lemma loadCameras_resume_loads s : keeps loads_view (loadCameras_resume s).
Proof.
  unfold loadCameras_resume. intros; split_cases; rewrite ?handleApiError_loads;
    reflexivity.
Qed.

Lemma loadVideos_resume_loads s : keeps loads_view (loadVideos_resume s).
Proof.
  unfold loadVideos_resume. intros; split_cases; rewrite ?handleApiError_loads;
    reflexivity.
Qed.

Lemma loadUploadedVideos_resume_loads s : keeps loads_view (loadUploadedVideos_resume s).
Proof.
  unfold loadUploadedVideos_resume. intros; split_cases; rewrite ?handleApiError_loads;
    reflexivity.
Qed.

Lemma snapshot_requests_no_load r (cams : list Camera) l :
  filter (is_load r)
    (rev (map (fun camera => Request "GET" (snapshot_url (id camera)) NoBody) cams) ++ l)
  = filter (is_load r) l.
Proof.
  rewrite filter_app, <- map_rev.
  induction (rev cams) as [|c cs IH]; [reflexivity|].
  destruct r; exact IH.
Qed.

Lemma updateCameraPreviews_loads : keeps loads_view updateCameraPreviews.
Proof.
  unfold updateCameraPreviews. intros; split_cases; try reflexivity.
  unfold loads_view, loads. cbn [out page emit_all suspend set_cameraPreview with_ui].
  now rewrite !snapshot_requests_no_load.
Qed.

Lemma loadCameraSnapshot_loads c : keeps loads_view (loadCameraSnapshot c).
Proof. unfold loadCameraSnapshot. mute. Qed.

Lemma loadCameraSnapshot_resume_loads s : keeps loads_view (loadCameraSnapshot_resume s).
Proof. unfold loadCameraSnapshot_resume. mute. Qed.

Lemma previewCamera_loads c : keeps loads_view (previewCamera c).
Proof. unfold previewCamera. mute. Qed.

Lemma previewCamera_resume_loads s : keeps loads_view (previewCamera_resume s).
Proof. unfold previewCamera_resume, showCameraPreviewModal. mute. Qed.

Lemma captureSnapshot_loads c : keeps loads_view (captureSnapshot c).
Proof. unfold captureSnapshot. mute. Qed.

Lemma captureSnapshot_resume_loads s : keeps loads_view (captureSnapshot_resume s).
Proof. unfold captureSnapshot_resume. mute. Qed.

Lemma addCamera_loads : keeps loads_view addCamera.
Proof. unfold addCamera. mute. Qed.

Lemma deleteCamera_loads c b : keeps loads_view (deleteCamera c b).
Proof. unfold deleteCamera. mute. Qed.

Lemma deleteUploadedVideo_loads v b : keeps loads_view (deleteUploadedVideo v b).
Proof. unfold deleteUploadedVideo. mute. Qed.

Lemma handleVideoUpload_loads : keeps loads_view handleVideoUpload.
Proof. unfold handleVideoUpload. mute. Qed.

Lemma handleVideoUpload_finally_loads : keeps loads_view handleVideoUpload_finally.
Proof. unfold handleVideoUpload_finally. mute. Qed.

Lemma handleVideoUpload_catch_loads m : keeps loads_view (handleVideoUpload_catch m).
Proof. unfold handleVideoUpload_catch. mute. Qed.

Lemma awaited_loadUploadedVideos_resume_loads s :
  keeps loads_view (awaited_loadUploadedVideos_resume s).
Proof.
  intros w. unfold awaited_loadUploadedVideos_resume.
  now rewrite handleVideoUpload_finally_loads, loadUploadedVideos_resume_loads.
Qed.

Lemma uploadVideo_loads : keeps loads_view uploadVideo.
Proof. unfold uploadVideo. mute. Qed.

Lemma uploadVideo_resume_loads s : keeps loads_view (uploadVideo_resume s).
Proof. unfold uploadVideo_resume, showVideoInfo. mute. Qed.

Lemma processVideo_loads : keeps loads_view processVideo.
Proof. unfold processVideo. mute. Qed.

Lemma processVideo_resume_loads s : keeps loads_view (processVideo_resume s).
Proof.
  unfold processVideo_resume, processVideo_finally, processVideo_catch,
    startProgressPolling.
  mute.
Qed.

Lemma poll_tick_loads j random : keeps loads_view (poll_tick j random).
Proof. unfold poll_tick. mute. Qed.

Lemma poll_tick_resume_loads j s : keeps loads_view (poll_tick_resume j s).
Proof. unfold poll_tick_resume. mute. Qed.

Lemma poll_deadline_loads j : keeps loads_view (poll_deadline j).
Proof. unfold poll_deadline. mute. Qed.

Lemma hideProgressRow_loads : keeps loads_view hideProgressRow.
Proof. unfold hideProgressRow. mute. Qed.

(** *** The loaders and their callers *)

Ltac quiet_loader :=
  let r := fresh "r" in let w := fresh "w" in let H := fresh "H" in
  intros r w H; destruct r; unfold skipped in H; try apply negb_true_iff in H;
    gsimpl; rewrite ?H; gsimpl;
    repeat match goal with
           | |- context [match ?x with _ => _ end] =>
               lazymatch x with
               | context [match _ with _ => _ end] => fail
               | _ => destruct x eqn:?; gsimpl; rewrite ?H; gsimpl
               end
           end;
    (split; [reflexivity|]); unfold loads; cbn; reflexivity.

Lemma loadCameras_quiet : quiet loadCameras.
Proof. unfold loadCameras. quiet_loader. Qed.

Lemma loadUploadedVideos_quiet b : quiet (loadUploadedVideos b).
Proof. unfold loadUploadedVideos. quiet_loader. Qed.

(** [loadVideos] behind the test for its grid. *)
Lemma loadVideos_quiet :
  quiet (fun w => if el_videosGrid (page w) then loadVideos w else w).
Proof. unfold loadVideos. quiet_loader. Qed.

Lemma mute_here r w w' :
  loads_view w' = loads_view w -> page w' = page w /\ loads r w' = loads r w.
Proof.
  unfold loads_view. intros K. injection K as P C V U. destruct r; split; assumption.
Qed.

(** The goal is about a world that differs from [w] by writes that are
    no requests for a list. *)
Ltac muted :=
  match goal with
  | |- _ /\ loads ?r ?x = loads ?r ?w => apply (mute_here r w x); reflexivity
  end.

(** The goal is about [h x], with [h] quiet. *)
Ltac after Q :=
  match goal with
  | H : skipped ?r (page ?w) = true |- _ /\ loads ?r (?h ?x) = loads ?r ?w =>
      apply (quiet_after r w x h Q H)
  end.

Lemma addCamera_resume_quiet s : quiet (addCamera_resume s).
Proof.
  unfold addCamera_resume. intros r w H.
  split_cases; first [muted | after loadCameras_quiet; muted].
Qed.

Lemma deleteCamera_resume_quiet s : quiet (deleteCamera_resume s).
Proof.
  unfold deleteCamera_resume. intros r w H.
  split_cases; first [muted | after loadCameras_quiet; muted].
Qed.

Lemma deleteUploadedVideo_resume_quiet s : quiet (deleteUploadedVideo_resume s).
Proof.
  unfold deleteUploadedVideo_resume. intros r w H.
  split_cases; first [muted | after (loadUploadedVideos_quiet false); muted].
Qed.

Lemma handleVideoUpload_resume_quiet s : quiet (handleVideoUpload_resume s).
Proof.
  unfold handleVideoUpload_resume. intros r w H.
  split_cases; try muted;
    try (apply mute_here; now rewrite handleVideoUpload_finally_loads,
                                      ?handleVideoUpload_catch_loads);
    try after (keeps_quiet _ handleVideoUpload_finally_loads);
    after (loadUploadedVideos_quiet true); muted.
Qed.

Lemma window_online_quiet : quiet window_online.
Proof. unfold window_online, loadCameras, loadVideos, loadUploadedVideos. quiet_loader. Qed.

Lemma run_callback_quiet cb : quiet (run_callback cb).
Proof.
  destruct cb; unfold run_callback.
  - unfold loadCameras, loadVideos, loadUploadedVideos. quiet_loader.
  - apply keeps_quiet, hideProgressRow_loads.
  - apply keeps_quiet, poll_deadline_loads.
  - apply keeps_quiet, updateCameraPreviews_loads.
Qed.

Lemma resume_quiet f s : quiet (resume f s).
Proof.
  destruct f as [ | | [|] | | | | j | | | | | | | ]; cbn [resume];
    first [ apply addCamera_resume_quiet
          | apply deleteCamera_resume_quiet
          | apply deleteUploadedVideo_resume_quiet
          | apply handleVideoUpload_resume_quiet
          | apply keeps_quiet;
            first [ apply loadCameras_resume_loads
                  | apply loadVideos_resume_loads
                  | apply loadUploadedVideos_resume_loads
                  | apply awaited_loadUploadedVideos_resume_loads
                  | apply processVideo_resume_loads
                  | apply uploadVideo_resume_loads
                  | apply poll_tick_resume_loads
                  | apply previewCamera_resume_loads
                  | apply loadCameraSnapshot_resume_loads
                  | apply captureSnapshot_resume_loads
                  | intros w; reflexivity ] ].
Qed.

Lemma step_quiet e : quiet (step e).
Proof.
  destruct e; unfold step.
  - apply keeps_quiet. intros w. reflexivity.
  - apply (quiet_compose handleVideoUpload uploadVideo); apply keeps_quiet;
      [apply handleVideoUpload_loads | apply uploadVideo_loads].
  - apply (quiet_compose processVideo processVideo); apply keeps_quiet, processVideo_loads.
  - apply keeps_quiet, previewCamera_loads.
  - apply keeps_quiet, captureSnapshot_loads.
  - apply keeps_quiet, addCamera_loads.
  - apply keeps_quiet, deleteCamera_loads.
  - apply keeps_quiet, deleteUploadedVideo_loads.
  - apply window_online_quiet.
  - apply keeps_quiet. intros w. reflexivity.
  - apply keeps_quiet. intros w. reflexivity.
  - intros r w H. destruct (nth_error (inflight w) i) as [f|]; [|apply quiet_here].
    assert (page (resume f s (with_inflight (remove_nth i (inflight w)) w)) = page w
            /\ loads r (resume f s (with_inflight (remove_nth i (inflight w)) w))
               = loads r w) as R
        by exact (resume_quiet f s r (with_inflight (remove_nth i (inflight w)) w) H).
    destruct f; first [exact R | apply quiet_here].
  - intros r w H. destruct (nth_error (inflight w) i) as [[]|]; try apply quiet_here.
    destruct (List.length got =? List.length cams); split; reflexivity.
  - intros r w H. destruct (nth_error (timers w) i) as [[ms cb]|]; [|apply quiet_here].
    exact (run_callback_quiet cb r (with_timers (remove_nth i (timers w)) w) H).
  - apply keeps_quiet, poll_tick_loads.
  - apply (quiet_compose loadCameras _ loadCameras_quiet loadVideos_quiet).
  - apply keeps_quiet, updateCameraPreviews_loads.
  - apply keeps_quiet. intros w. destruct (cameraStream_onerror (streamUi (ui w))); reflexivity.
  - apply keeps_quiet. intros w. destruct (cameraStream_onerror (streamUi (ui w))); reflexivity.
  - apply keeps_quiet. intros w. destruct (cameraStream_onerror (streamUi (ui w))); [|reflexivity].
    unfold cameraStream_onerror_handler. now rewrite loadCameraSnapshot_loads.
Qed.

Lemma run_quiet evs : quiet (run evs).
Proof.
  induction evs as [|e evs IH]; [apply quiet_id|].
  apply (quiet_compose (step e) (run evs) (step_quiet e) IH).
Qed.

Lemma boot_skipped r p : skipped r p = true -> page (boot p) = p /\ loads r (boot p) = [].
Proof.
  revert r p.
  assert (quiet (fun w => setTimeout FirstPreviews 2000%N
                            (loadUploadedVideos false
                               ((fun w => if el_videosGrid (page w) then loadVideos w else w)
                                  (loadCameras w))))) as Q.
  { apply (quiet_compose _ (fun w => setTimeout FirstPreviews 2000%N w)).
    - apply (quiet_compose _ (loadUploadedVideos false)).
      + apply (quiet_compose loadCameras _ loadCameras_quiet loadVideos_quiet).
      + apply loadUploadedVideos_quiet.
    - apply keeps_quiet. intros w. reflexivity. }
  intros r p H. exact (Q r (mkWorld new_App p new_Ui [] [] [] []) H).
Qed.

Lemma run_skipped r p evs :
  skipped r p = true -> loads r (run evs (boot p)) = [].
Proof.
  intros H. destruct (boot_skipped r p H) as [P L].
  destruct (run_quiet evs r (boot p)) as [_ L']; [now rewrite P|]. congruence.
Qed.

(** X1.  On the library page no session ever asks for the list of
    cameras or for the list of uploaded videos: not at the start, not in
    the periodic refresh, not after a camera has been added or deleted, a
    video uploaded or deleted, not when the network comes back and not in
    a retry. *)
Theorem library_page_asks_for_no_lists (p : Page) (evs : list Event) :
  pathname p = "/library" ->
  loads Cameras (run evs (boot p)) = []
  /\ loads UploadedVideos (run evs (boot p)) = [].
Proof.
  intros H. split; apply run_skipped; cbn [skipped]; rewrite H; reflexivity.
Qed.

Lemma library_page_asks_for_no_lists_witness :
  let evs := [Online; RefreshData; SubmitCamera;
              Settle 0 (Response true 201 "CREATED" (Some (PResult true)));
              ClickDeleteVideo 7 true;
              Settle 0 (ok (PResult true))] in
  pathname library = "/library"
  /\ requests (history (run evs (boot library)))
     = [("GET", "/api/videos"); ("GET", "/api/videos"); ("POST", "/api/cameras");
        ("DELETE", "/api/uploaded-videos/7")]
  /\ loads Cameras (run evs (boot library)) = []
  /\ loads UploadedVideos (run evs (boot library)) = [].
Proof.
  intros evs. split; [reflexivity|]. split; [reflexivity|].
  apply (library_page_asks_for_no_lists library evs). reflexivity.
Defined.

(** X2.  On a page without the grid of recorded videos no session ever
    asks for the list of recorded videos. *)
Theorem recordings_need_their_grid (p : Page) (evs : list Event) :
  el_videosGrid p = false ->
  loads Videos (run evs (boot p)) = [].
Proof.
  intros H. apply run_skipped. cbn [skipped]. now rewrite H.
Qed.

Lemma recordings_need_their_grid_witness :
  let evs := [Online; RefreshData; Settle 3 unreachable; Fire 0] in
  el_videosGrid no_recordings = false
  /\ requests (history (run evs (boot no_recordings)))
     = [("GET", "/api/cameras"); ("GET", "/api/uploaded-videos");
        ("GET", "/api/cameras"); ("GET", "/api/uploaded-videos");
        ("GET", "/api/cameras"); ("GET", "/api/uploaded-videos")]
  /\ loads Videos (run evs (boot no_recordings)) = [].
Proof.
  intros evs. split; [reflexivity|]. split; [reflexivity|].
  apply (recordings_need_their_grid no_recordings evs). reflexivity.
Defined.

(** ** The moves of the poller *)

Lemma moves_trans draw v1 v2 v3 :
  poller_moves draw v1 v2 -> poller_moves draw v2 v3 -> poller_moves draw v1 v3.
Proof.
  induction 1 as [|v1 v2 v2' M _ IH]; [auto|]. intros H. eapply moves_next; eauto.
Qed.

Lemma moves_one draw v1 v2 : poller_move draw v1 v2 -> poller_moves draw v1 v2.
Proof. intros M. eapply moves_next; [exact M|apply moves_done]. Qed.

Lemma keeps_moves draw w w' :
  poller_view w' = poller_view w -> poller_moves draw (poller_view w) (poller_view w').
Proof. intros ->. apply moves_done. Qed.

Lemma remove_moves draw i f w :
  nth_error (inflight w) i = Some f ->
  poller_moves draw (poller_view w)
    (poller_view (with_inflight (remove_nth i (inflight w)) w)).
Proof.
  intros Hf. apply moves_one.
  apply (move_settle draw (poller_view w)
           (submitting (with_inflight (remove_nth i (inflight w)) w))
           (probes (with_inflight (remove_nth i (inflight w)) w))).
  - pose proof (count_remove_nth is_submission _ _ _ Hf).
    unfold poller_view, submitting. cbn [v_submitting inflight with_inflight]. lia.
  - intros k. apply probes_remove.
Qed.

Lemma processVideo_moves draw w :
  poller_moves draw (poller_view w) (poller_view (processVideo w)).
Proof.
  rewrite processVideo_view. destruct (accepts w); [|apply moves_done].
  apply moves_one. exact (move_submit draw (poller_view w)).
Qed.

Lemma processVideo_resume_moves draw s w :
  poller_moves draw (poller_view w) (poller_view (processVideo_resume s w)).
Proof.
  rewrite processVideo_resume_view.
  destruct s as [e|[|] st tx [[| |data| | | | |]|]]; try apply moves_done.
  apply moves_one. exact (move_start draw (poller_view w) (processed_filename data)).
Qed.

Lemma poll_tick_moves (draw : Q -> Prop) j r w :
  draw r -> poller_moves draw (poller_view w) (poller_view (poll_tick j r w)).
Proof.
  intros D. rewrite poll_tick_view.
  destruct (nth_error (jobs w) j) as [b|] eqn:Hj; [|apply moves_done].
  destruct (pollInterval b) eqn:Hb; [|apply moves_done].
  apply moves_one. exact (move_tick draw (poller_view w) j b r Hj Hb D).
Qed.

Lemma poll_tick_resume_moves draw j s w :
  poller_moves draw (poller_view w) (poller_view (poll_tick_resume j s w)).
Proof.
  rewrite poll_tick_resume_view.
  destruct (nth_error (jobs w) j) as [b|] eqn:Hj; [|apply moves_done].
  apply moves_one. destruct (found s).
  - exact (move_found draw (poller_view w) j b Hj).
  - exact (move_waiting draw (poller_view w) j b Hj).
Qed.

Lemma poll_deadline_moves draw j w :
  poller_moves draw (poller_view w) (poller_view (poll_deadline j w)).
Proof.
  rewrite poll_deadline_view.
  destruct (nth_error (jobs w) j) as [b|] eqn:Hj; [|apply moves_done].
  apply moves_one. exact (move_deadline draw (poller_view w) j b Hj).
Qed.

Lemma run_callback_moves draw cb w :
  poller_moves draw (poller_view w) (poller_view (run_callback cb w)).
Proof.
  destruct cb; unfold run_callback; split_cases;
    first [ apply moves_done
          | apply poll_deadline_moves
          | apply keeps_moves;
            first [ apply core_poller, loadCameras_core
                  | apply core_poller, loadVideos_core
                  | apply core_poller, loadUploadedVideos_core
                  | apply core_poller, hideProgressRow_core
                  | apply core_poller, updateCameraPreviews_core ] ].
Qed.

Lemma resume_moves draw f s w :
  poller_moves draw (poller_view w) (poller_view (resume f s w)).
Proof.
  destruct (bystander_frame f) eqn:B.
  { apply keeps_moves, core_poller. now apply resume_core. }
  destruct f as [ | | [|] | | | | j | | | | | | | ]; try discriminate; cbn [resume].
  - apply keeps_moves, loadCameras_resume_poller.
  - apply keeps_moves, loadVideos_resume_poller.
  - apply keeps_moves, awaited_loadUploadedVideos_resume_poller.
  - apply keeps_moves, loadUploadedVideos_resume_poller.
  - apply processVideo_resume_moves.
  - apply keeps_moves, handleVideoUpload_resume_poller.
  - apply poll_tick_resume_moves.
Qed.

Lemma step_moves draw e w :
  draws_of draw e -> poller_moves draw (poller_view w) (poller_view (step e w)).
Proof.
  intros D. destruct (bystander e) eqn:B.
  { apply keeps_moves, core_poller. now apply step_core. }
  destruct e; try discriminate; unfold step.
  - apply keeps_moves.
    now rewrite (core_poller _ _ (uploadVideo_core _)), handleVideoUpload_poller.
  - eapply moves_trans; apply processVideo_moves.
  - destruct (nth_error (inflight w) i) as [f|] eqn:Hf; [|apply moves_done].
    assert (poller_moves draw (poller_view w)
              (poller_view (resume f s (with_inflight (remove_nth i (inflight w)) w))))
      as R by (eapply moves_trans; [exact (remove_moves draw i f w Hf)|apply resume_moves]).
    destruct f; first [exact R | apply moves_done].
  - destruct (nth_error (inflight w) i) as [f|] eqn:Hf; [|apply moves_done].
    destruct f; try apply moves_done.
    destruct (List.length got =? List.length cams); [|apply moves_done].
    exact (remove_moves draw i _ w Hf).
  - destruct (nth_error (timers w) i) as [[ms cb]|]; [|apply moves_done].
    exact (run_callback_moves draw cb (with_timers (remove_nth i (timers w)) w)).
  - apply poll_tick_moves. exact D.
Qed.

Lemma run_moves draw evs :
  forall w, Forall (draws_of draw) evs ->
            poller_moves draw (poller_view w) (poller_view (run evs w)).
Proof.
  induction evs as [|e evs IH]; intros w V; [apply moves_done|].
  inversion V as [|? ? Ve Vs]; subst.
  change (run (e :: evs) w) with (run evs (step e w)).
  eapply moves_trans; [apply step_moves; exact Ve|apply IH; exact Vs].
Qed.

(** An invariant of the moves is one of the sessions. *)
Lemma moves_invariant draw (I : PollerView -> Prop) :
  (forall v v', poller_move draw v v' -> I v -> I v') ->
  forall v v', poller_moves draw v v' -> I v -> I v'.
Proof. intros Step v v' M. induction M; eauto. Qed.

(** ** The poller along a session: cleared intervals, the display, the estimate *)

Lemma Forall_update_at {A} (P : A -> Prop) j (f : A -> A) l b :
  Forall P l -> nth_error l j = Some b -> P (f b) -> Forall P (update_nth j f l).
Proof.
  intros H. revert j. induction H as [|x l Hx Hl IH]; intros [|j] E Hb; cbn in *;
    try discriminate.
  - injection E as ->. now constructor.
  - constructor; [exact Hx|]. now apply IH.
Qed.

(** *** A cleared interval stays cleared *)

Lemma cleared_move draw j v v' :
  poller_move draw v v' ->
  (exists b, nth_error (v_jobs v) j = Some b /\ pollInterval b = false) ->
  exists b', nth_error (v_jobs v') j = Some b' /\ pollInterval b' = false.
Proof.
  intros M (b & Hb & Cb).
  destruct M as [m pr _ _| |fn|k c r Hk Hc _|k c Hk|k c Hk|k c Hk]; cbn [v_jobs];
    try (exists b; split; [exact Hb|exact Cb]).
  - exists b. split; [|exact Cb]. rewrite nth_error_app1; [exact Hb|].
    apply nth_error_Some. congruence.
  - rewrite nth_error_update_nth, Hb. destruct (j =? k) eqn:E; cbn.
    + apply Nat.eqb_eq in E. subst k. eexists. split; [reflexivity|]. exact Cb.
    + exists b. auto.
  - rewrite nth_error_update_nth, Hb. destruct (j =? k); cbn; eexists; split; eauto.
  - rewrite nth_error_update_nth, Hb. destruct (j =? k); cbn; eexists; split; eauto.
  - rewrite nth_error_update_nth, Hb. destruct (j =? k); cbn; eexists; split; eauto.
Qed.

Lemma cleared_spec j w :
  cleared j w = true <-> exists b, nth_error (jobs w) j = Some b /\ pollInterval b = false.
Proof.
  unfold cleared. destruct (nth_error (jobs w) j) as [b|].
  - rewrite negb_true_iff. split; [eauto|]. now intros (b' & [= <-] & H).
  - split; [discriminate|]. now intros (b' & [=] & _).
Qed.

Lemma draws_of_True evs : Forall (draws_of (fun _ => True)) evs.
Proof. induction evs as [|e evs IH]; constructor; auto. now destruct e. Qed.

Lemma cleared_run j evs w : cleared j w = true -> cleared j (run evs w) = true.
Proof.
  rewrite !cleared_spec. intros H.
  exact (moves_invariant (fun _ => True)
           (fun v => exists b, nth_error (v_jobs v) j = Some b /\ pollInterval b = false)
           (fun v v' => cleared_move _ j v v')
           (poller_view w) (poller_view (run evs w))
           (run_moves _ evs w (draws_of_True evs)) H).
Qed.

(** *** The display stays in range *)

Lemma Math_round_Z z : Math_round (inject_Z z) = z.
Proof.
  unfold Math_round. 
  assert (Qfloor (inject_Z z + (1 # 2)) <= z /\ z <= Qfloor (inject_Z z + (1 # 2)))%Z as [A B].
  { split.
    - apply Z.lt_succ_r. rewrite Zlt_Qlt. unfold Z.succ. rewrite inject_Z_plus.
      eapply Qle_lt_trans; [apply Qfloor_le|]. change (inject_Z 1) with 1%Q. lra.
    - rewrite <- (Qfloor_Z z) at 1. apply Qfloor_resp_le. lra. }
  lia.
Qed.

Lemma in_range l wd sh n m pr :
  (0 <= wd)%Q -> (wd <= 100)%Q -> sh = Math_round wd -> Forall job_ok l ->
  display_in_range (mkView l wd sh n m pr).
Proof. intros. repeat split; assumption. Qed.

Lemma range_move v v' :
  poller_move (fun r => 0 <= r)%Q v v' -> display_in_range v -> display_in_range v'.
Proof.
  intros M ((W0 & W1) & S & J).
  destruct M as [m pr _ _| |fn|k c r Hk Hc Hr|k c Hk|k c Hk|k c Hk].
  - now apply in_range.
  - apply in_range; [lra|lra|reflexivity|exact J].
  - apply in_range; [exact W0|exact W1|exact S|].
    apply Forall_app. split; [exact J|].
    constructor; [|constructor]. split; [cbn; lra|]. apply (is_double_Z 0). cbn. lia.
  - assert (job_ok c) as ((L0 & L1 & L2) & D)
        by (rewrite Forall_forall in J; eapply J, nth_error_In; eauto).
    pose proof (advance_capped (progress c) r L2).
    pose proof (advance_grows (progress c) r D Hr).
    apply in_range; [lra|lra|reflexivity|].
    eapply Forall_update_at; [exact J|exact Hk|].
    split; [cbn; lra|]. now apply advance_double.
  - apply in_range; [lra|lra|exact (eq_sym (Math_round_Z 100))|].
    apply Forall_update_nth; [exact J|]. intros x Hx. exact Hx.
  - apply in_range; [exact W0|exact W1|exact S|].
    apply Forall_update_nth; [exact J|]. intros x ((L0 & L1 & L2) & D).
    split; [cbn; lra|exact D].
  - apply in_range; [exact W0|exact W1|exact S|].
    apply Forall_update_nth; [exact J|]. intros x Hx. exact Hx.
Qed.

Lemma valid_draws_nonneg evs :
  Forall valid_draw evs -> Forall (draws_of (fun r => 0 <= r)%Q) evs.
Proof.
  intros V. eapply Forall_impl; [|exact V]. intros [] H; cbn in *; tauto.
Qed.

Lemma boot_in_range p : display_in_range (poller_view (boot p)).
Proof.
  unfold boot, loadCameras, loadVideos, loadUploadedVideos.
  split_cases; unfold poller_view;
    (apply in_range; [apply Qle_refl|discriminate|reflexivity|constructor]).
Qed.

(** X4.  In every session, whatever the number of processing requests
    and of polling loops, the bar's width stays between 0 and 100 and
    [aria-valuenow] is that width rounded, hence between 0 and 100 as
    well; of every job the estimate stays between the value it had at the
    last probe and the ceiling of 90. *)
Theorem display_stays_in_range (p : Page) (evs : list Event) :
  Forall valid_draw evs ->
  let w := run evs (boot p) in
  (0 <= width w /\ width w <= 100)%Q
  /\ shown w = Math_round (width w)
  /\ (0 <= shown w <= 100)%Z
  /\ Forall (fun b => 0 <= lastProgress b /\ lastProgress b <= progress b
                      /\ progress b <= 90)%Q (jobs w).
Proof.
  intros V w.
  assert (display_in_range (poller_view w)) as ((W0 & W1) & S & J).
  { apply (moves_invariant (fun r => 0 <= r)%Q display_in_range range_move
             (poller_view (boot p))).
    - apply run_moves, valid_draws_nonneg, V.
    - apply boot_in_range. }
  change (v_width (poller_view w)) with (width w) in *.
  change (v_shown (poller_view w)) with (shown w) in *.
  change (v_jobs (poller_view w)) with (jobs w) in *.
  split; [split; assumption|]. split; [exact S|]. split; [split|].
  - rewrite S. change 0%Z with (Math_round (inject_Z 0)). apply Math_round_mono. exact W0.
  - rewrite S. rewrite <- (Math_round_Z 100). apply Math_round_mono. exact W1.
  - eapply Forall_impl; [|exact J]. intros b [H _]. exact H.
Qed.

Lemma display_stays_in_range_witness :
  let w := run (upload_events ++ process_events ++ completion_events ++ process_events)
               (boot dashboard) in
  (0 <= width w /\ width w <= 100)%Q
  /\ shown w = Math_round (width w)
  /\ (0 <= shown w <= 100)%Z
  /\ Forall (fun b => 0 <= lastProgress b /\ lastProgress b <= progress b
                      /\ progress b <= 90)%Q (jobs w).
Proof.
  apply (display_stays_in_range dashboard
           (upload_events ++ process_events ++ completion_events ++ process_events)).
  repeat constructor; cbn; lra.
Defined.

(** *** The estimate of a running job *)

Lemma still_move j b v v' :
  poller_move (fun _ => False) v v' ->
  nth_error (v_jobs v) j = Some b ->
  exists b', nth_error (v_jobs v') j = Some b' /\ progress b' = progress b.
Proof.
  intros M Hb.
  destruct M as [m pr _ _| |fn|k c r Hk Hc []|k c Hk|k c Hk|k c Hk]; cbn [v_jobs];
    try (exists b; split; [exact Hb|reflexivity]);
    try (rewrite nth_error_update_nth, Hb; destruct (j =? k); cbn; eexists; split;
         reflexivity).
  exists b. split; [|reflexivity]. rewrite nth_error_app1; [exact Hb|].
  apply nth_error_Some. congruence.
Qed.

Lemma still_moves j v v' :
  poller_moves (fun _ => False) v v' ->
  forall b, nth_error (v_jobs v) j = Some b ->
            exists b', nth_error (v_jobs v') j = Some b' /\ progress b' = progress b.
Proof.
  induction 1 as [v|v1 v2 v3 M _ IH]; intros b Hb; [eauto|].
  destruct (still_move j b v1 v2 M Hb) as (b2 & H2 & E2).
  destruct (IH b2 H2) as (b3 & H3 & E3). exists b3. split; [exact H3|congruence].
Qed.

(** What one event does to the estimate of job [j]. *)
Lemma step_estimate j b e w :
  nth_error (jobs w) j = Some b ->
  exists b', nth_error (jobs (step e w)) j = Some b'
             /\ progress b'
                = match e with
                  | Tick k random =>
                      if (k =? j) && pollInterval b then advance (progress b) random
                      else progress b
                  | _ => progress b
                  end.
Proof.
  intros Hb.
  assert (draws_of (fun _ => False) e ->
          exists b', nth_error (jobs (step e w)) j = Some b' /\ progress b' = progress b) as Q.
  { intros D. exact (still_moves j _ _ (step_moves _ e w D) b Hb). }
  destruct e as [ | | | | | | | | | | | | | |k random| | | | | ]; try exact (Q I).
  change (jobs (step (Tick k random) w))
    with (v_jobs (poller_view (poll_tick k random w))).
  rewrite poll_tick_view.
  destruct (k =? j) eqn:E.
  - apply Nat.eqb_eq in E. subst k. rewrite Hb. cbn [andb].
    destruct (pollInterval b); [|now exists b].
    cbn [v_jobs]. rewrite nth_error_update_nth, Nat.eqb_refl, Hb. cbn. eauto.
  - cbn [andb].
    destruct (nth_error (jobs w) k) as [c|]; [|now exists b].
    destruct (pollInterval c); [|now exists b].
    cbn [v_jobs]. rewrite nth_error_update_nth, Hb.
    rewrite Nat.eqb_sym, E. now exists b.
Qed.

Lemma estimate_of_run j evs :
  forall w b,
    nth_error (jobs w) j = Some b ->
    cleared j (run evs w) = false ->
    exists b', nth_error (jobs (run evs w)) j = Some b'
               /\ progress b' = fold_left advance (draws_for j evs) (progress b).
Proof.
  induction evs as [|e evs IH]; intros w b Hb C; [now exists b|].
  change (run (e :: evs) w) with (run evs (step e w)) in *.
  destruct (step_estimate j b e w Hb) as (b1 & H1 & E1).
  destruct (IH (step e w) b1 H1 C) as (b' & H' & E').
  exists b'. split; [exact H'|]. rewrite E', E1.
  unfold draws_for. cbn [flat_map]. rewrite fold_left_app. f_equal.
  destruct e; try reflexivity.
  destruct (j0 =? j) eqn:E; [|reflexivity]. cbn [andb fold_left].
  destruct (pollInterval b) eqn:A; [reflexivity|].
  (* a tick of a cleared job: the job would still be cleared at the end *)
  exfalso. apply Nat.eqb_eq in E. subst j0.
  assert (cleared j w = true) as Cw by (unfold cleared; now rewrite Hb, A).
  pose proof (cleared_run j (Tick j random :: evs) w Cw) as Cr.
  change (run (Tick j random :: evs) w) with (run evs (step (Tick j random) w)) in Cr.
  congruence.
Qed.

(** X5.  The estimate of a job whose interval is still running is
    determined by the draws of its own ticks, in their order: neither the
    outcome of its probes nor any other event of the session (other jobs,
    uploads, reloads, timers) touches it. *)
Theorem estimate_follows_own_ticks
    (w : World) (j : nat) (b : Job) (evs : list Event) :
  nth_error (jobs w) j = Some b ->
  cleared j (run evs w) = false ->
  exists b', nth_error (jobs (run evs w)) j = Some b'
             /\ progress b' = fold_left advance (draws_for j evs) (progress b).
Proof. apply estimate_of_run. Qed.

Lemma estimate_follows_own_ticks_witness :
  let evs := [Settle 0 (Response false 404 "NOT FOUND" None); Tick 0 (3 # 4);
              ClickProcess; Settle 0 (ok (PProcess (process_reply "processed_2.mp4")));
              Tick 1 (1 # 8)] in
  exists b', nth_error (jobs (run evs polling_session)) 0 = Some b'
             /\ (progress b' == 14)%Q.
Proof.
  intros evs.
  destruct (estimate_follows_own_ticks polling_session 0
              (mkJob "processed_clip.mp4" (advance 0 (1 # 2)) 0 true) evs
              eq_refl eq_refl)
    as (b' & H & E).
  exists b'. split; [exact H|]. rewrite E. vm_compute. reflexivity.
Defined.

(** *** How fast the estimate reaches its ceiling *)

Lemma fold_advance_bounds draws :
  Forall (fun r => 0 <= r /\ r < 1)%Q draws ->
  forall (q : Q) (k : nat),
    (q <= 90)%Q ->
    (q == 90 \/ inject_Z (2 * Z.of_nat k) <= q)%Q ->
    (q <= inject_Z (10 * Z.of_nat k))%Q ->
    let e := fold_left advance draws q in
    let n := k + List.length draws in
    (e <= 90)%Q
    /\ (e == 90 \/ inject_Z (2 * Z.of_nat n) <= e)%Q
    /\ (e <= inject_Z (10 * Z.of_nat n))%Q.
Proof.
  induction 1 as [|r draws [R0 R1] V IH]; intros q k H L U.
  - cbn [fold_left List.length]. rewrite Nat.add_0_r. auto.
  - cbn [fold_left List.length].
    replace (k + S (List.length draws)) with (S k + List.length draws) by lia.
    pose proof (advance_capped q r H) as C.
    apply IH; [exact C| |].
    + destruct (Z.le_gt_cases (Z.of_nat k) 44) as [Small|Big].
      * destruct L as [L|L].
        -- left. unfold advance. destruct (Qltb q 90) eqn:E; [|exact L].
           apply Qltb_lt in E. lra.
        -- replace (Z.of_nat (S k)) with (Z.of_nat k + 1)%Z by lia.
           apply advance_above; [lia|exact H|exact R0|exact L].
      * left. assert (q == 90)%Q as Q90.
        { destruct L as [L|L]; [exact L|].
          assert (90 <= inject_Z (2 * Z.of_nat k))%Q; [|lra].
          change 90%Q with (inject_Z 90). rewrite <- Zle_Qle. lia. }
        unfold advance. destruct (Qltb q 90) eqn:E; [|exact Q90].
        apply Qltb_lt in E. lra.
    + destruct (Z.le_gt_cases (Z.of_nat k) 8) as [Small|Big].
      * replace (Z.of_nat (S k)) with (Z.of_nat k + 1)%Z by lia.
        apply advance_below; [lia|exact R0|lra|exact U].
      * assert (90 <= inject_Z (10 * Z.of_nat (S k)))%Q; [|lra].
        change 90%Q with (inject_Z 90). rewrite <- Zle_Qle. lia.
Qed.

(** X6.  The estimate of a job that is still running, started at 0:
    after [n] of its ticks it stands between [2 * n] and [10 * n], and at
    90 at most.  So it is below 90 during the first eight ticks and
    stands at exactly 90 from the 45th tick on, where it stays until a
    probe succeeds.  Both bounds are reached: a tick with the draw 0 adds
    2, and a tick with the largest double below 1 adds 10, the sum being
    rounded to the nearest double. *)
Theorem estimate_reaches_ceiling
    (w : World) (j : nat) (b : Job) (evs : list Event) :
  nth_error (jobs w) j = Some b ->
  progress b = 0%Q ->
  cleared j (run evs w) = false ->
  Forall valid_draw evs ->
  exists b',
    nth_error (jobs (run evs w)) j = Some b'
    /\ let ticks := List.length (draws_for j evs) in
       (progress b' <= 90)%Q
       /\ (ticks <= 45 -> (inject_Z (Z.of_nat (2 * ticks)) <= progress b')%Q)
       /\ (progress b' <= inject_Z (Z.of_nat (10 * ticks)))%Q
       /\ (ticks <= 8 -> (progress b' < 90)%Q)
       /\ (45 <= ticks -> (progress b' == 90)%Q).
Proof.
  intros Hb P0 C V.
  destruct (estimate_of_run j evs w b Hb C) as (b' & H' & E).
  exists b'. split; [exact H'|]. intros ticks. rewrite E, P0.
  assert (Forall (fun r => 0 <= r /\ r < 1)%Q (draws_for j evs)) as D.
  { unfold draws_for. apply Forall_flat_map. eapply Forall_impl; [|exact V].
    intros [] H; try constructor. destruct (j0 =? j); constructor; [exact H|constructor]. }
  destruct (fold_advance_bounds (draws_for j evs) D 0%Q 0) as (B1 & B2 & B3);
    [lra|right; apply Qle_refl|apply Qle_refl|].
  cbn [Nat.add] in B2, B3. fold ticks in B2, B3.
  set (e := fold_left advance (draws_for j evs) 0%Q) in *.
  assert (forall a, Z.of_nat (a * ticks) = (Z.of_nat a * Z.of_nat ticks)%Z) as M
      by (intros; lia).
  rewrite !M. change (Z.of_nat 2) with 2%Z. change (Z.of_nat 10) with 10%Z.
  split; [exact B1|]. split; [|split; [|split]].
  - intros L. destruct B2 as [B2|B2]; [|exact B2]. rewrite B2.
    change 90%Q with (inject_Z 90). rewrite <- Zle_Qle. lia.
  - exact B3.
  - intros L. apply Qle_lt_trans with (inject_Z (10 * Z.of_nat ticks)); [exact B3|].
    change 90%Q with (inject_Z 90). rewrite <- Zlt_Qlt. lia.
  - intros L. destruct B2 as [B2|B2]; [exact B2|]. apply Qle_antisym; [exact B1|].
    apply Qle_trans with (inject_Z (2 * Z.of_nat ticks)); [|exact B2].
    change 90%Q with (inject_Z 90). rewrite <- Zle_Qle. lia.
Qed.

(** The theorem at nine ticks that each draw the largest double below 1:
    every one of them adds exactly 10. *)
Lemma estimate_reaches_ceiling_witness :
  let w := run [ClickProcess; Settle 0 (ok (PProcess (process_reply "processed_clip.mp4")))]
               uploaded in
  let evs := repeat (Tick 0 (1 - (1 # 9007199254740992))) 9 in
  exists b', nth_error (jobs (run evs w)) 0 = Some b'
             /\ (18 <= progress b' /\ progress b' <= 90)%Q
             /\ (progress b' == 90)%Q.
Proof.
  intros w evs.
  destruct (estimate_reaches_ceiling w 0 (mkJob "processed_clip.mp4" 0 0 true) evs
              eq_refl eq_refl eq_refl)
    as (b' & H & Cap & Lo & _).
  - repeat constructor; vm_compute; try reflexivity; discriminate.
  - exists b'. split; [exact H|]. split.
    + split; [|exact Cap]. apply Lo. vm_compute. lia.
    + vm_compute in H. injection H as <-. reflexivity.
Defined.

(** ** One round of the poller *)

Lemma stage_text_below p current :
  (p < 90)%Q -> stage_text p current = stage_text p "" /\ In (stage_text p current) stage_texts.
Proof.
  intros H. apply Qltb_lt in H. unfold stage_text, stage_texts.
  destruct (Qltb p 20); [cbn; auto|].
  destruct (Qltb p 40); [cbn; auto|].
  destruct (Qltb p 60); [cbn; auto|].
  destruct (Qltb p 80); [cbn; auto 6|].
  rewrite H. cbn; auto 7.
Qed.

(** The estimate after a tick is a whole number above the mark of the
    last probe, unless it stands at the ceiling. *)
Lemma round_apart p l r :
  (0 <= l)%Q -> (l <= p)%Q -> (p <= 90)%Q -> (0 <= r)%Q -> (advance p r < 90)%Q ->
  Qltb (Math_abs (js_sub (advance p r) l)) 1 = false.
Proof.
  intros L0 L1 L2 Hr Lt. apply Qltb_ge.
  assert (l + 1 <= advance p r)%Q as A.
  { unfold advance in *. destruct (Qltb p 90) eqn:E; [|apply Qltb_ge in E; lra].
    destruct (Qltb 90 _); [lra|].
    destruct (increment_bounds r Hr) as [I _].
    pose proof (Qfloor_le l) as F1. pose proof (Qlt_floor l) as F2.
    assert (0 <= Qfloor l <= 90)%Z as [Z0 Z1].
    { split.
      - rewrite <- (Qfloor_Z 0). now apply Qfloor_resp_le.
      - rewrite <- (Qfloor_Z 90). apply Qfloor_resp_le. change (inject_Z 90) with 90%Q. lra. }
    rewrite inject_Z_plus in F2. change (inject_Z 1) with 1%Q in F2.
    apply Qle_trans with (inject_Z (Qfloor l + 2)).
    - rewrite inject_Z_plus. change (inject_Z 2) with 2%Q. lra.
    - unfold js_add at 1. apply nearest_double_ge_Z; [lia|].
      rewrite inject_Z_plus. change (inject_Z 2) with 2%Q. lra. }
  assert (1 <= js_sub (advance p r) l)%Q as B.
  { unfold js_sub. apply (nearest_double_ge_Z _ 1); [cbn; lia|].
    change (inject_Z 1) with 1%Q. lra. }
  unfold Math_abs. rewrite Qabs_pos by lra. exact B.
Qed.

Lemma round_stalled p l r :
  (l <= p)%Q -> (p <= 90)%Q -> (l == 90)%Q ->
  advance p r = p /\ Qltb (Math_abs (js_sub (advance p r) l)) 1 = true.
Proof.
  intros L1 L2 At.
  assert (advance p r = p) as E.
  { unfold advance. destruct (Qltb p 90) eqn:P; [|reflexivity].
    apply Qltb_lt in P. lra. }
  split; [exact E|]. rewrite E. unfold js_sub.
  rewrite (nearest_double_0 (p - l)) by lra. reflexivity.
Qed.

(** X7.  One round of a running job: a tick, then its probe comes back
    without the processed file.  While the estimate is below 90 the status
    line shows the stage of the estimate, never "Processing in progress...
    Please wait"; once the estimate stood at 90 at the previous probe
    already, it shows that message.  Either way the probe leaves the
    estimate as the mark for the next round. *)
Theorem waiting_round_status
    (w : World) (j : nat) (b : Job) (random : Q) (s : Settled) :
  nth_error (jobs w) j = Some b ->
  pollInterval b = true ->
  (0 <= lastProgress b /\ lastProgress b <= progress b /\ progress b <= 90)%Q ->
  (0 <= random)%Q ->
  found s = false ->
  let estimate := advance (progress b) random in
  let w1 := step (Tick j random) w in
  let w2 := step (Settle 0 s) w1 in
  let status := processingStatus (progressUi (ui w2)) in
  out w1 = Request "GET" (processed_url (processedFilename b)) NoBody :: out w
  /\ inflight w2 = inflight w
  /\ ((estimate < 90)%Q ->
      status = stage_text estimate "" /\ In status stage_texts)
  /\ ((lastProgress b == 90)%Q -> status = "Processing in progress... Please wait")
  /\ nth_error (jobs w2) j
     = Some (mkJob (processedFilename b) estimate estimate true).
Proof.
  intros Hb Ha (L0 & L1 & L2) Hr Hs estimate w1 w2 status.
  assert (w1 = fetch "GET" (processed_url (processedFilename b)) NoBody (F_probe j)
                 (set_processingStatus
                    (stage_text estimate (processingStatus (progressUi (ui w))))
                    (show_progress estimate (Math_round estimate)
                       (update_job j (fun b0 => mkJob (processedFilename b0) estimate
                                                      (lastProgress b0) (pollInterval b0))
                                   w)))) as E1.
  { unfold w1, step, poll_tick. rewrite Hb, Ha. reflexivity. }
  assert (nth_error (jobs w1) j
          = Some (mkJob (processedFilename b) estimate (lastProgress b) true)) as J1.
  { rewrite E1. cbn [jobs fetch suspend emit set_processingStatus show_progress
                     with_progressUi with_ui update_job with_jobs].
    rewrite nth_error_update_nth, Nat.eqb_refl, Hb. cbn. now rewrite Ha. }
  assert (w2 = poll_tick_resume j s (with_inflight (inflight w) w1)) as E2.
  { unfold w2, step. rewrite E1 at 1. cbn [inflight fetch suspend nth_error].
    rewrite E1 at 1. cbn [inflight fetch suspend remove_nth firstn skipn app].
    destruct s; reflexivity. }
  assert (forall x, processingStatus (progressUi (ui (update_job j x
            (with_inflight (inflight w) w1)))) = processingStatus (progressUi (ui w1))) as U
      by reflexivity.
  assert (processingStatus (progressUi (ui w1))
          = stage_text estimate (processingStatus (progressUi (ui w)))) as S1
      by (rewrite E1; reflexivity).
  split; [rewrite E1; reflexivity|].
  assert (found s = false -> w2 =
            update_job j (fun b => mkJob (processedFilename b) (progress b) (progress b)
                                         (pollInterval b))
              (if Qltb (Math_abs (js_sub estimate (lastProgress b))) 1
               then set_processingStatus "Processing in progress... Please wait"
                      (with_inflight (inflight w) w1)
               else with_inflight (inflight w) w1)) as E3.
  { intros _. rewrite E2. unfold poll_tick_resume.
    change (jobs (with_inflight (inflight w) w1)) with (jobs w1). rewrite J1.
    cbn [progress lastProgress].
    destruct s as [e|[|] st tx body]; [reflexivity|discriminate|reflexivity]. }
  specialize (E3 Hs).
  split; [rewrite E3; now destruct (Qltb (Math_abs (js_sub estimate (lastProgress b))) 1)|].
  split; [|split].
  - intros Lt. unfold status. rewrite E3.
    pose proof (round_apart _ _ _ L0 L1 L2 Hr Lt) as Q. fold estimate in Q.
    rewrite Q, U, S1. apply stage_text_below, Lt.
  - intros At. unfold status. rewrite E3.
    destruct (round_stalled (progress b) (lastProgress b) random L1 L2 At) as [_ Q].
    fold estimate in Q. now rewrite Q.
  - rewrite E3.
    assert (forall x, nth_error (jobs (update_job j
              (fun b => mkJob (processedFilename b) (progress b) (progress b)
                              (pollInterval b)) x)) j
            = option_map (fun b => mkJob (processedFilename b) (progress b) (progress b)
                                         (pollInterval b)) (nth_error (jobs x) j)) as N.
    { intros x. unfold update_job. cbn [jobs with_jobs].
      now rewrite nth_error_update_nth, Nat.eqb_refl. }
    rewrite N.
    destruct (Qltb (Math_abs (js_sub estimate (lastProgress b))) 1);
      [change (jobs (set_processingStatus "Processing in progress... Please wait"
                       (with_inflight (inflight w) w1))) with (jobs w1)
      |change (jobs (with_inflight (inflight w) w1)) with (jobs w1)];
      rewrite J1; reflexivity.
Qed.

Lemma waiting_round_status_witness :
  let w := run [ClickProcess; Settle 0 (ok (PProcess (process_reply "processed_clip.mp4")))]
               uploaded in
  let w2 := step (Settle 0 (Response false 404 "NOT FOUND" None))
                 (step (Tick 0 (1 # 2)) w) in
  processingStatus (progressUi (ui w2)) = "Initializing video processing..."
  /\ nth_error (jobs w2) 0
     = Some (mkJob "processed_clip.mp4" (advance 0 (1 # 2)) (advance 0 (1 # 2)) true).
Proof.
  intros w w2.
  destruct (waiting_round_status w 0 (mkJob "processed_clip.mp4" 0 0 true) (1 # 2)
              (Response false 404 "NOT FOUND" None) eq_refl eq_refl)
    as (_ & _ & Below & _ & J).
  - cbn. lra.
  - lra.
  - reflexivity.
  - split; [|exact J]. apply Below. vm_compute. reflexivity.
Defined.

(** ** The upload guard and the reload of the list *)





(** ** The retry of a failed load *)

(** X9.  A failed load that is retried comes back as the same load: the
    timer set by [handleApiError] for the key of the list, when it fires,
    sends the request for that very list again and suspends its loader;
    nothing is notified on the way. *)
Theorem retry_reissues_the_load (r : Resource) (s : Settled) (w : World) :
  failed s = true ->
  retryCount (this w) < maxRetries (this w) ->
  skipped r (page w) = false ->
  let w1 := loader_resume r s w in
  let w2 := step (Fire 0) w1 in
  timers w1 = ((1000 * N.of_nat (retryCount (this w) + 1))%N, RetryLoad (resource_name r))
              :: timers w
  /\ notifications (out w1) = notifications (out w)
  /\ w2 = loader r (with_timers (timers w) w1)
  /\ out w2 = Request "GET" (resource_url r) NoBody :: out w1
  /\ inflight w2 = loader_frame r :: inflight w
  /\ timers w2 = timers w.
Proof. apply retry_timer_reissues. Qed.

Lemma retry_reissues_the_load_witness :
  let w1 := loader_resume Videos unreachable (boot dashboard) in
  requests (out (step (Fire 0) w1)) = ("GET", "/api/videos") :: requests (out w1).
Proof.
  intros w1.
  destruct (retry_reissues_the_load Videos unreachable (boot dashboard) eq_refl)
    as (_ & _ & _ & O & _).
  - vm_compute. lia.
  - reflexivity.
  - fold w1 in O. rewrite O. reflexivity.
Defined.

(** ** The buttons of the guarded operations *)

Lemma handleApiError_buttons resource error :
  keeps buttons_view (handleApiError resource error).
Proof. unfold handleApiError. frame. Qed.

Lemma loadCameras_buttons : keeps buttons_view loadCameras.
Proof. unfold loadCameras. frame. Qed.

Lemma loadVideos_buttons : keeps buttons_view loadVideos.
Proof. unfold loadVideos. frame. Qed.

Lemma loadUploadedVideos_buttons b : keeps buttons_view (loadUploadedVideos b).
Proof. unfold loadUploadedVideos. frame. Qed.

Lemma loadCameras_resume_buttons s : keeps buttons_view (loadCameras_resume s).
Proof.
  unfold loadCameras_resume. intros; split_cases; now rewrite ?handleApiError_buttons.
Qed.

Lemma loadVideos_resume_buttons s : keeps buttons_view (loadVideos_resume s).
Proof.
  unfold loadVideos_resume. intros; split_cases; now rewrite ?handleApiError_buttons.
Qed.

Lemma loadUploadedVideos_resume_buttons s : keeps buttons_view (loadUploadedVideos_resume s).
Proof.
  unfold loadUploadedVideos_resume. intros; split_cases; now rewrite ?handleApiError_buttons.
Qed.

Lemma updateCameraPreviews_buttons : keeps buttons_view updateCameraPreviews.
Proof. unfold updateCameraPreviews. frame. Qed.

Lemma loadCameraSnapshot_resume_buttons s : keeps buttons_view (loadCameraSnapshot_resume s).
Proof. unfold loadCameraSnapshot_resume. frame. Qed.

Lemma previewCamera_resume_buttons s : keeps buttons_view (previewCamera_resume s).
Proof. unfold previewCamera_resume, showCameraPreviewModal. frame. Qed.

Lemma captureSnapshot_resume_buttons s : keeps buttons_view (captureSnapshot_resume s).
Proof. unfold captureSnapshot_resume. frame. Qed.

Lemma addCamera_resume_buttons s : keeps buttons_view (addCamera_resume s).
Proof. unfold addCamera_resume, loadCameras. frame. Qed.

Lemma deleteCamera_buttons c b : keeps buttons_view (deleteCamera c b).
Proof. unfold deleteCamera. frame. Qed.

Lemma deleteCamera_resume_buttons s : keeps buttons_view (deleteCamera_resume s).
Proof. unfold deleteCamera_resume, loadCameras. frame. Qed.

Lemma deleteUploadedVideo_buttons v b : keeps buttons_view (deleteUploadedVideo v b).
Proof. unfold deleteUploadedVideo. frame. Qed.

Lemma deleteUploadedVideo_resume_buttons s :
  keeps buttons_view (deleteUploadedVideo_resume s).
Proof. unfold deleteUploadedVideo_resume, loadUploadedVideos. frame. Qed.

Lemma uploadVideo_buttons : keeps buttons_view uploadVideo.
Proof. unfold uploadVideo. frame. Qed.

Lemma uploadVideo_resume_buttons s : keeps buttons_view (uploadVideo_resume s).
Proof. unfold uploadVideo_resume, showVideoInfo. frame. Qed.

Lemma poll_tick_buttons j random : keeps buttons_view (poll_tick j random).
Proof. unfold poll_tick. frame. Qed.

Lemma poll_tick_resume_buttons j s : keeps buttons_view (poll_tick_resume j s).
Proof. unfold poll_tick_resume. frame. Qed.

Lemma poll_deadline_buttons j : keeps buttons_view (poll_deadline j).
Proof. unfold poll_deadline. frame. Qed.

Lemma hideProgressRow_buttons : keeps buttons_view hideProgressRow.
Proof. unfold hideProgressRow. frame. Qed.

Lemma window_online_buttons : keeps buttons_view window_online.
Proof. unfold window_online, loadCameras, loadVideos, loadUploadedVideos. frame. Qed.

Lemma run_callback_buttons cb : keeps buttons_view (run_callback cb).
Proof.
  destruct cb; unfold run_callback; intros; split_cases;
    first [ reflexivity
          | apply loadCameras_buttons
          | apply loadVideos_buttons
          | apply loadUploadedVideos_buttons
          | apply hideProgressRow_buttons
          | apply poll_deadline_buttons
          | apply updateCameraPreviews_buttons ].
Qed.

Lemma step_buttons e w : bystander e = true -> buttons_view (step e w) = buttons_view w.
Proof.
  destruct e; try discriminate; intros _; unfold step.
  - reflexivity.
  - reflexivity.
  - reflexivity.
  - reflexivity.
  - apply deleteCamera_buttons.
  - apply deleteUploadedVideo_buttons.
  - apply window_online_buttons.
  - reflexivity.
  - reflexivity.
  - destruct (el_videosGrid (page (loadCameras w)));
      now rewrite ?loadVideos_buttons, loadCameras_buttons.
  - apply updateCameraPreviews_buttons.
  - destruct (cameraStream_onerror (streamUi (ui w))); reflexivity.
  - destruct (cameraStream_onerror (streamUi (ui w))); reflexivity.
  - destruct (cameraStream_onerror (streamUi (ui w))); reflexivity.
Qed.

Lemma resume_buttons f s w :
  bystander_frame f = true -> buttons_view (resume f s w) = buttons_view w.
Proof.
  destruct f; try discriminate; intros _; cbn [resume].
  - apply uploadVideo_resume_buttons.
  - reflexivity.
  - apply previewCamera_resume_buttons.
  - apply loadCameraSnapshot_resume_buttons.
  - apply captureSnapshot_resume_buttons.
  - apply addCamera_resume_buttons.
  - apply deleteCamera_resume_buttons.
  - apply deleteUploadedVideo_resume_buttons.
Qed.

(** A handler that leaves the guards and the buttons alone. *)
Lemma buttons_kept w w' :
  guards_view w' = guards_view w -> buttons_view w' = buttons_view w ->
  buttons_ok w -> buttons_ok w'.
Proof.
  unfold guards_view, processing_view, uploading_view, buttons_view, buttons_ok.
  intros G B. injection G as _ Gs _ Gu. injection B as Bp Bq Bu.
  now rewrite Bp, Bq, Bu, Gs, Gu.
Qed.

Ltac press :=
  unfold buttons_ok, submitting, uploading, count in *;
  split_cases; (split; [|split]); cbn [fst snd] in *; try reflexivity;
  try congruence; try (now rewrite ?andb_false_r, ?andb_true_r).

Ltac button_end :=
  cbn [page set_isUploading set_uploadBtn_disabled with_this with_ui emit console
       showNotification fetch suspend] in *;
  repeat match goal with
         | H : el_uploadBtn _ = _ |- _ => rewrite H in *; clear H
         end;
  cbn [andb Nat.ltb Nat.leb] in *; first [reflexivity | assumption | congruence].

Lemma processVideo_buttons w : buttons_ok w -> buttons_ok (processVideo w).
Proof.
  intros [P U]. unfold processVideo, buttons_ok, submitting, uploading, count in *.
  split_cases; split; assumption || reflexivity.
Qed.

Lemma processVideo_resume_buttons s w :
  submitting w = 0 ->
  uploadBtn_disabled (ui w) = el_uploadBtn (page w) && (0 <? uploading w) ->
  buttons_ok (processVideo_resume s w).
Proof.
  intros S U.
  unfold processVideo_resume, processVideo_finally, processVideo_catch, startProgressPolling,
    buttons_ok, submitting, uploading, count in *.
  split_cases; (split; [now rewrite S|exact U]).
Qed.

Lemma handleVideoUpload_buttons w : buttons_ok w -> buttons_ok (handleVideoUpload w).
Proof.
  intros [P U]. unfold handleVideoUpload, buttons_ok, submitting, uploading, count in *.
  split_cases; split; try assumption; try reflexivity; button_end.
Qed.

Lemma handleVideoUpload_finally_buttons w :
  uploading w = 0 ->
  processBtn_disabled (ui w) = (0 <? submitting w) ->
  uploadBtn_disabled (ui w) = el_uploadBtn (page w) ->
  buttons_ok (handleVideoUpload_finally w).
Proof.
  intros U0 P U.
  unfold handleVideoUpload_finally, buttons_ok, submitting, uploading, count in *.
  split_cases; (split; [exact P|]); rewrite U0; rewrite ?andb_false_r; button_end.
Qed.

Lemma handleVideoUpload_resume_buttons s w :
  uploading w = 0 ->
  processBtn_disabled (ui w) = (0 <? submitting w) ->
  uploadBtn_disabled (ui w) = el_uploadBtn (page w) ->
  buttons_ok (handleVideoUpload_resume s w).
Proof.
  intros U0 P U.
  assert (forall x, uploading x = 0 -> buttons_view x = buttons_view w ->
                    submitting x = submitting w ->
                    buttons_ok (handleVideoUpload_finally x)) as Fin.
  { intros x X0 B S. unfold buttons_view in B. injection B as Bp Bq Bu.
    apply handleVideoUpload_finally_buttons; congruence. }
  unfold handleVideoUpload_resume, handleVideoUpload_catch.
  destruct s as [e|[|] st tx [[| | |r| | | |]|]];
    try (apply Fin; [exact U0|reflexivity|reflexivity]).
  destruct (success r); [|apply Fin; [exact U0|reflexivity|reflexivity]].
  unfold loadUploadedVideos_pending, loadUploadedVideos.
  destruct (String.eqb (pathname (page w)) "/library") eqn:L;
    destruct (video_info r) as [v|];
    repeat match goal with
           | |- context [String.eqb (pathname (page ?x)) "/library"] =>
               change (String.eqb (pathname (page x)) "/library")
                 with (String.eqb (pathname (page w)) "/library");
               rewrite L; cbn [negb]
           end;
    try (apply Fin; [exact U0|reflexivity|reflexivity]).
  all: unfold buttons_ok, submitting, uploading, count in *; gsimpl;
    (split; [exact P|]); rewrite U; now rewrite andb_true_r.
Qed.

Lemma awaited_loadUploadedVideos_resume_buttons s w :
  uploading w = 0 ->
  processBtn_disabled (ui w) = (0 <? submitting w) ->
  uploadBtn_disabled (ui w) = el_uploadBtn (page w) ->
  buttons_ok (awaited_loadUploadedVideos_resume s w).
Proof.
  intros U0 P U. unfold awaited_loadUploadedVideos_resume.
  pose proof (loadUploadedVideos_resume_buttons s w) as B.
  pose proof (loadUploadedVideos_resume_guards s w) as G.
  unfold buttons_view in B. injection B as Bp Bq Bu.
  unfold guards_view, processing_view, uploading_view in G. injection G as _ Gs _ Gu.
  apply handleVideoUpload_finally_buttons; congruence.
Qed.

(** *** The buttons along a session *)

Lemma resume_buttons_ok i f s w :
  nth_error (inflight w) i = Some f ->
  guarded w -> buttons_ok w ->
  buttons_ok (resume f s (with_inflight (remove_nth i (inflight w)) w)).
Proof.
  intros Hf G [Bp Bu].
  pose proof (count_remove_nth is_submission _ _ _ Hf) as H1.
  pose proof (count_remove_nth is_upload _ _ _ Hf) as H2.
  destruct G as [[Gp _] [Gu _]].
  unfold processing_view, uploading_view in Gp, Gu. cbn [fst snd] in Gp, Gu.
  set (w1 := with_inflight (remove_nth i (inflight w)) w).
  assert (submitting w1 + (if is_submission f then 1 else 0) = submitting w) as E1
      by exact H1.
  assert (uploading w1 + (if is_upload f then 1 else 0) = uploading w) as E2 by exact H2.
  assert (processBtn_disabled (ui w1) = processBtn_disabled (ui w)) as E3 by reflexivity.
  assert (uploadBtn_disabled (ui w1) = uploadBtn_disabled (ui w)) as E4 by reflexivity.
  assert (page w1 = page w) as E5 by reflexivity.
  clearbody w1. clear H1 H2.
  assert (is_submission f = false -> is_upload f = false -> buttons_ok w1) as Same.
  { intros F1 F2. rewrite F1 in E1. rewrite F2 in E2. unfold buttons_ok.
    rewrite E3, E4, E5, Bp, Bu. replace (submitting w1) with (submitting w) by lia.
    replace (uploading w1) with (uploading w) by lia. auto. }
  destruct (bystander_frame f) eqn:B.
  { apply (buttons_kept w1); [apply core_guards, resume_core, B|apply resume_buttons, B|].
    destruct f; try discriminate; now apply Same. }
  destruct f as [ | | [|] | | | | | | | | | | | ]; try discriminate;
    cbn [resume is_submission is_upload] in *.
  - apply (buttons_kept w1);
      [apply loadCameras_resume_guards|apply loadCameras_resume_buttons|now apply Same].
  - apply (buttons_kept w1);
      [apply loadVideos_resume_guards|apply loadVideos_resume_buttons|now apply Same].
  - assert (uploading w = 1) as One by lia.
    apply awaited_loadUploadedVideos_resume_buttons.
    + lia.
    + rewrite E3, Bp. f_equal. lia.
    + rewrite E4, E5, Bu, One. now rewrite andb_true_r.
  - apply (buttons_kept w1);
      [apply loadUploadedVideos_resume_guards|apply loadUploadedVideos_resume_buttons
      |now apply Same].
  - apply processVideo_resume_buttons.
    + lia.
    + rewrite E4, E5, Bu. f_equal. f_equal. lia.
  - assert (uploading w = 1) as One by lia.
    apply handleVideoUpload_resume_buttons.
    + lia.
    + rewrite E3, Bp. f_equal. lia.
    + rewrite E4, E5, Bu, One. now rewrite andb_true_r.
  - apply (buttons_kept w1);
      [apply poll_tick_resume_guards|apply poll_tick_resume_buttons|now apply Same].
Qed.

Lemma remove_buttons_ok i cams w :
  nth_error (inflight w) i = Some (F_previews cams) ->
  buttons_ok w -> buttons_ok (with_inflight (remove_nth i (inflight w)) w).
Proof.
  intros Hf [Bp Bu].
  pose proof (count_remove_nth is_submission _ _ _ Hf) as H1.
  pose proof (count_remove_nth is_upload _ _ _ Hf) as H2.
  cbn [is_submission is_upload] in *. unfold buttons_ok, submitting, uploading in *.
  cbn [inflight ui page with_inflight].
  replace (count is_submission (remove_nth i (inflight w)))
    with (count is_submission (inflight w)) by lia.
  replace (count is_upload (remove_nth i (inflight w)))
    with (count is_upload (inflight w)) by lia.
  auto.
Qed.

Lemma step_buttons_ok e w : guarded w -> buttons_ok w -> buttons_ok (step e w).
Proof.
  intros G B. destruct (bystander e) eqn:E.
  { apply (buttons_kept w); [apply core_guards, step_core, E|apply step_buttons, E|exact B]. }
  destruct e; try discriminate; unfold step.
  - apply (buttons_kept (handleVideoUpload w));
      [apply core_guards, uploadVideo_core|apply uploadVideo_buttons|].
    now apply handleVideoUpload_buttons.
  - now do 2 apply processVideo_buttons.
  - destruct (nth_error (inflight w) i) as [f|] eqn:Hf; [|exact B].
    pose proof (resume_buttons_ok i f s w Hf G B) as R.
    destruct f; first [exact R | exact B].
  - destruct (nth_error (inflight w) i) as [f|] eqn:Hf; [|exact B].
    destruct f; try exact B.
    destruct (List.length got =? List.length cams); [|exact B].
    apply (buttons_kept (with_inflight (remove_nth i (inflight w)) w));
      [reflexivity|reflexivity|].
    eapply remove_buttons_ok; eauto.
  - destruct (nth_error (timers w) i) as [[ms cb]|]; [|exact B].
    apply (buttons_kept (with_timers (remove_nth i (timers w)) w));
      [apply run_callback_guards|apply run_callback_buttons|exact B].
  - apply (buttons_kept w); [apply poll_tick_guards|apply poll_tick_buttons|exact B].
Qed.

Lemma boot_buttons_ok p : buttons_ok (boot p) /\ page (boot p) = p.
Proof.
  unfold boot, buttons_ok, submitting, uploading, count, loadCameras, loadVideos,
    loadUploadedVideos.
  split_cases; cbn; rewrite ?andb_false_r; auto.
Qed.

Lemma run_buttons_ok evs :
  forall w, guarded w -> buttons_ok w -> guarded (run evs w) /\ buttons_ok (run evs w).
Proof.
  induction evs as [|e evs IH]; intros w G B; [auto|].
  apply IH; [apply step_guarded, G|apply step_buttons_ok; assumption].
Qed.

(** *** The page *)

Lemma buttons_page w w' : buttons_view w' = buttons_view w -> page w' = page w.
Proof. unfold buttons_view. intros H. now injection H. Qed.

Lemma loads_page w w' : loads_view w' = loads_view w -> page w' = page w.
Proof. unfold loads_view. intros H. now injection H. Qed.

Lemma handleVideoUpload_resume_page s : keeps page (handleVideoUpload_resume s).
Proof.
  unfold handleVideoUpload_resume, loadUploadedVideos_pending, loadUploadedVideos,
    handleVideoUpload_finally.
  frame.
Qed.

Lemma resume_page f s : keeps page (resume f s).
Proof.
  intros w. destruct (bystander_frame f) eqn:B.
  { apply buttons_page, resume_buttons, B. }
  destruct f as [ | | [|] | | | | | | | | | | | ]; try discriminate; cbn [resume].
  - apply buttons_page, loadCameras_resume_buttons.
  - apply buttons_page, loadVideos_resume_buttons.
  - apply loads_page, awaited_loadUploadedVideos_resume_loads.
  - apply buttons_page, loadUploadedVideos_resume_buttons.
  - apply loads_page, processVideo_resume_loads.
  - apply handleVideoUpload_resume_page.
  - apply buttons_page, poll_tick_resume_buttons.
Qed.

Lemma step_page e : keeps page (step e).
Proof.
  intros w. destruct (bystander e) eqn:E.
  { apply buttons_page, step_buttons, E. }
  destruct e; try discriminate; unfold step.
  - rewrite (buttons_page _ _ (uploadVideo_buttons _)).
    apply loads_page, handleVideoUpload_loads.
  - now rewrite !(loads_page _ _ (processVideo_loads _)).
  - destruct (nth_error (inflight w) i) as [f|]; [|reflexivity].
    pose proof (resume_page f s (with_inflight (remove_nth i (inflight w)) w)) as R.
    destruct f; first [exact R | reflexivity].
  - destruct (nth_error (inflight w) i) as [[]|]; try reflexivity.
    now destruct (List.length got =? List.length cams).
  - destruct (nth_error (timers w) i) as [[ms cb]|]; [|reflexivity].
    exact (buttons_page _ _ (run_callback_buttons cb _)).
  - apply buttons_page, poll_tick_buttons.
Qed.

Lemma run_page evs : keeps page (run evs).
Proof.
  induction evs as [|e evs IH]; intros w; [reflexivity|].
  change (run (e :: evs) w) with (run evs (step e w)). now rewrite IH, step_page.
Qed.

(** X10.  In every session the Process button is disabled exactly
    while a call of [processVideo] waits for the answer to its request,
    and the Upload button, on a page that has one, exactly while a call of
    [handleVideoUpload] waits for its upload or for the reload of the list
    that follows it: no button stays disabled once its request has
    settled. *)
Theorem buttons_follow_requests (p : Page) (evs : list Event) :
  let w := run evs (boot p) in
  processBtn_disabled (ui w) = (0 <? submitting w)
  /\ uploadBtn_disabled (ui w) = el_uploadBtn p && (0 <? uploading w)
  /\ submitting w <= 1
  /\ uploading w <= 1.
Proof.
  intros w.
  destruct (boot_buttons_ok p) as [B P].
  destruct (run_buttons_ok evs (boot p) (boot_guarded p) B) as [[[Gp _] [Gu _]] [Bp Bu]].
  fold w in Gp, Gu, Bp, Bu.
  assert (page w = p) as Pw by (unfold w; now rewrite run_page).
  rewrite Pw in Bu. auto.
Qed.

(** ** A probe that outlives the deadline *)

(** X11.  The ten-minute timer stops the interval but not the probes
    that are on their way: when such a probe finds the processed file
    after the timer has fired, the job is completed all the same, bar at
    100 and success notified, after the timeout has been notified. *)
Theorem late_probe_completes_after_timeout
    (w : World) (j i : nat) (b : Job) (s : Settled) :
  nth_error (jobs w) j = Some b ->
  nth_error (inflight w) i = Some (F_probe j) ->
  (progress b < 100)%Q ->
  found s = true ->
  let w1 := poll_deadline j w in
  let w2 := step (Settle i s) w1 in
  notifications (out w1)
  = ("Processing timeout - check server logs", "warning") :: notifications (out w)
  /\ processingStatus (progressUi (ui w1)) = "Processing timeout - check server logs"
  /\ notifications (out w2)
     = ("Video processed successfully!", "success") :: notifications (out w1)
  /\ processingStatus (progressUi (ui w2)) = "Processing completed successfully!"
  /\ shown w2 = 100%Z
  /\ timers w2 = (3000%N, HideProgressRow) :: timers w.
Proof.
  intros Hb Hi Lt Hs w1 w2. apply Qltb_lt in Lt.
  assert (w1 = showNotification "Processing timeout - check server logs" "warning"
                 (set_processingStatus "Processing timeout - check server logs"
                    (clearInterval j w))) as E1.
  { unfold w1, poll_deadline. now rewrite Hb, Lt. }
  assert (exists b', nth_error (jobs w1) j = Some b') as [b' Hb'].
  { rewrite E1. cbn [jobs showNotification emit set_processingStatus with_progressUi
                     with_ui clearInterval update_job with_jobs].
    rewrite nth_error_update_nth, Nat.eqb_refl, Hb. cbn. eauto. }
  assert (nth_error (inflight w1) i = Some (F_probe j)) as Hi1 by (rewrite E1; exact Hi).
  assert (w2 = poll_tick_resume j s (with_inflight (remove_nth i (inflight w1)) w1)) as E2.
  { unfold w2, step. now rewrite Hi1. }
  destruct s as [e|[|] st tx body]; try discriminate.
  assert (forall x, jobs x = jobs w1 ->
            poll_tick_resume j (Response true st tx body) x
            = setTimeout HideProgressRow 3000
                (showNotification "Video processed successfully!" "success"
                   ((fun y => if el_processedVideo (page y)
                              then set_processedVideo_src
                                     (processed_url (processedFilename b')) y
                              else y)
                      (set_processingStatus "Processing completed successfully!"
                         (show_progress 100 100 (clearInterval j x)))))) as E3.
  { intros x Hx. unfold poll_tick_resume. now rewrite Hx, Hb'. }
  rewrite E2, E3 by reflexivity.
  split; [rewrite E1; reflexivity|]. split; [rewrite E1; reflexivity|].
  cbv beta.
  destruct (el_processedVideo _); (split; [reflexivity|]); (split; [reflexivity|]);
    (split; [reflexivity|]); rewrite E1; reflexivity.
Qed.

Lemma late_probe_completes_after_timeout_witness :
  let w2 := step (Settle 0 (Response true 200 "OK" None))
                 (poll_deadline 0 polling_session) in
  notifications (out w2)
  = ("Video processed successfully!", "success")
    :: ("Processing timeout - check server logs", "warning")
    :: notifications (out polling_session)
  /\ shown w2 = 100%Z.
Proof.
  intros w2.
  destruct (late_probe_completes_after_timeout polling_session 0 0
              (mkJob "processed_clip.mp4" (advance 0 (1 # 2)) 0 true)
              (Response true 200 "OK" None) eq_refl eq_refl)
    as (N1 & _ & N2 & _ & S & _).
  - vm_compute. reflexivity.
  - reflexivity.
  - split; [|exact S]. unfold w2. rewrite N2, N1. reflexivity.
Defined.

(** ** Processing needs an upload *)

(** *** Who writes [currentVideo] *)

Ltac same_video := intros; split_cases; first [reflexivity | congruence].

Lemma handleApiError_video resource error w :
  currentVideo (this (handleApiError resource error w)) = currentVideo (this w).
Proof. unfold handleApiError. same_video. Qed.

Lemma loadCameras_video w : currentVideo (this (loadCameras w)) = currentVideo (this w).
Proof. unfold loadCameras. same_video. Qed.

Lemma loadVideos_video w : currentVideo (this (loadVideos w)) = currentVideo (this w).
Proof. unfold loadVideos. same_video. Qed.

Lemma loadUploadedVideos_video b w :
  currentVideo (this (loadUploadedVideos b w)) = currentVideo (this w).
Proof. unfold loadUploadedVideos. same_video. Qed.

Lemma loadCameras_resume_video s w :
  currentVideo (this (loadCameras_resume s w)) = currentVideo (this w).
Proof.
  unfold loadCameras_resume. split_cases; now rewrite ?handleApiError_video.
Qed.

Lemma loadVideos_resume_video s w :
  currentVideo (this (loadVideos_resume s w)) = currentVideo (this w).
Proof.
  unfold loadVideos_resume. split_cases; now rewrite ?handleApiError_video.
Qed.

Lemma loadUploadedVideos_resume_video s w :
  currentVideo (this (loadUploadedVideos_resume s w)) = currentVideo (this w).
Proof.
  unfold loadUploadedVideos_resume. split_cases; now rewrite ?handleApiError_video.
Qed.

Lemma updateCameraPreviews_video w :
  currentVideo (this (updateCameraPreviews w)) = currentVideo (this w).
Proof. unfold updateCameraPreviews. same_video. Qed.

Lemma updateCameraPreviews_resume_video cams got w :
  currentVideo (this (updateCameraPreviews_resume cams got w)) = currentVideo (this w).
Proof. unfold updateCameraPreviews_resume. same_video. Qed.

Lemma loadCameraSnapshot_video c w :
  currentVideo (this (loadCameraSnapshot c w)) = currentVideo (this w).
Proof. unfold loadCameraSnapshot. same_video. Qed.

Lemma loadCameraSnapshot_resume_video s w :
  currentVideo (this (loadCameraSnapshot_resume s w)) = currentVideo (this w).
Proof. unfold loadCameraSnapshot_resume. same_video. Qed.

Lemma previewCamera_video c w :
  currentVideo (this (previewCamera c w)) = currentVideo (this w).
Proof. unfold previewCamera. same_video. Qed.

Lemma previewCamera_resume_video s w :
  currentVideo (this (previewCamera_resume s w)) = currentVideo (this w).
Proof. unfold previewCamera_resume, showCameraPreviewModal. same_video. Qed.

Lemma captureSnapshot_video c w :
  currentVideo (this (captureSnapshot c w)) = currentVideo (this w).
Proof. unfold captureSnapshot. same_video. Qed.

Lemma captureSnapshot_resume_video s w :
  currentVideo (this (captureSnapshot_resume s w)) = currentVideo (this w).
Proof. unfold captureSnapshot_resume. same_video. Qed.

Lemma addCamera_video w : currentVideo (this (addCamera w)) = currentVideo (this w).
Proof. unfold addCamera. same_video. Qed.

Lemma addCamera_resume_video s w :
  currentVideo (this (addCamera_resume s w)) = currentVideo (this w).
Proof. unfold addCamera_resume, loadCameras. same_video. Qed.

Lemma deleteCamera_video c b w :
  currentVideo (this (deleteCamera c b w)) = currentVideo (this w).
Proof. unfold deleteCamera. same_video. Qed.

Lemma deleteCamera_resume_video s w :
  currentVideo (this (deleteCamera_resume s w)) = currentVideo (this w).
Proof. unfold deleteCamera_resume, loadCameras. same_video. Qed.

Lemma deleteUploadedVideo_video v b w :
  currentVideo (this (deleteUploadedVideo v b w)) = currentVideo (this w).
Proof. unfold deleteUploadedVideo. same_video. Qed.

Lemma deleteUploadedVideo_resume_video s w :
  currentVideo (this (deleteUploadedVideo_resume s w)) = currentVideo (this w).
Proof. unfold deleteUploadedVideo_resume, loadUploadedVideos. same_video. Qed.

Lemma handleVideoUpload_video w :
  currentVideo (this (handleVideoUpload w)) = currentVideo (this w).
Proof. unfold handleVideoUpload. same_video. Qed.

Lemma handleVideoUpload_finally_video w :
  currentVideo (this (handleVideoUpload_finally w)) = currentVideo (this w).
Proof. unfold handleVideoUpload_finally. same_video. Qed.

Lemma awaited_loadUploadedVideos_resume_video s w :
  currentVideo (this (awaited_loadUploadedVideos_resume s w)) = currentVideo (this w).
Proof.
  unfold awaited_loadUploadedVideos_resume.
  now rewrite handleVideoUpload_finally_video, loadUploadedVideos_resume_video.
Qed.

Lemma uploadVideo_video w : currentVideo (this (uploadVideo w)) = currentVideo (this w).
Proof. unfold uploadVideo. same_video. Qed.

Lemma processVideo_video w : currentVideo (this (processVideo w)) = currentVideo (this w).
Proof. unfold processVideo. same_video. Qed.

Lemma processVideo_resume_video s w :
  currentVideo (this (processVideo_resume s w)) = currentVideo (this w).
Proof.
  unfold processVideo_resume, processVideo_finally, processVideo_catch,
    startProgressPolling.
  same_video.
Qed.

Lemma poll_tick_video j random w :
  currentVideo (this (poll_tick j random w)) = currentVideo (this w).
Proof. unfold poll_tick. same_video. Qed.

Lemma poll_tick_resume_video j s w :
  currentVideo (this (poll_tick_resume j s w)) = currentVideo (this w).
Proof. unfold poll_tick_resume. same_video. Qed.

Lemma poll_deadline_video j w :
  currentVideo (this (poll_deadline j w)) = currentVideo (this w).
Proof. unfold poll_deadline. same_video. Qed.

Lemma hideProgressRow_video w :
  currentVideo (this (hideProgressRow w)) = currentVideo (this w).
Proof. unfold hideProgressRow. same_video. Qed.

Lemma window_online_video w :
  currentVideo (this (window_online w)) = currentVideo (this w).
Proof. unfold window_online, loadCameras, loadVideos, loadUploadedVideos. same_video. Qed.

Lemma run_callback_video cb w :
  currentVideo (this (run_callback cb w)) = currentVideo (this w).
Proof.
  destruct cb; unfold run_callback; split_cases;
    first [ reflexivity
          | apply loadCameras_video
          | apply loadVideos_video
          | apply loadUploadedVideos_video
          | apply hideProgressRow_video
          | apply poll_deadline_video
          | apply updateCameraPreviews_video ].
Qed.

(** The two continuations that write it: the description of the upload,
    when the answer has one. *)
Lemma handleVideoUpload_resume_video s w :
  currentVideo (this (handleVideoUpload_resume s w)) = currentVideo (this w)
  \/ (exists st tx r ok, s = Response ok st tx (Some (PUpload r)))
     /\ currentVideo (this (handleVideoUpload_resume s w)) <> None.
Proof.
  unfold handleVideoUpload_resume, handleVideoUpload_catch, loadUploadedVideos_pending.
  destruct s as [e|[|] st tx [[| | |r| | | |]|]];
    try (left; now rewrite handleVideoUpload_finally_video).
  destruct (success r); [|left; now rewrite handleVideoUpload_finally_video].
  destruct (video_info r) as [v|] eqn:V.
  - right. split; [now exists st, tx, r, true|].
    match goal with
    | |- context [if ?c then _ else _] => destruct c
    end; rewrite ?handleVideoUpload_finally_video, loadUploadedVideos_video; discriminate.
  - left.
    match goal with
    | |- context [if ?c then _ else _] => destruct c
    end; now rewrite ?handleVideoUpload_finally_video, loadUploadedVideos_video.
Qed.

Lemma uploadVideo_resume_video s w :
  currentVideo (this (uploadVideo_resume s w)) = currentVideo (this w)
  \/ (exists st tx r ok, s = Response ok st tx (Some (PUpload r)))
     /\ currentVideo (this (uploadVideo_resume s w)) <> None.
Proof.
  unfold uploadVideo_resume, showVideoInfo.
  destruct s as [e|[|] st tx [[| | |r| | | |]|]]; try (left; reflexivity).
  right. split; [now exists st, tx, r, true|discriminate].
Qed.

Lemma resume_video f s w :
  currentVideo (this (resume f s w)) = currentVideo (this w)
  \/ (exists st tx r ok, s = Response ok st tx (Some (PUpload r)))
     /\ currentVideo (this (resume f s w)) <> None.
Proof.
  destruct f as [ | | [|] | | | | j | | | | | | | ]; cbn [resume];
    first [ apply handleVideoUpload_resume_video
          | apply uploadVideo_resume_video
          | left;
            first [ apply loadCameras_resume_video
                  | apply loadVideos_resume_video
                  | apply loadUploadedVideos_resume_video
                  | apply awaited_loadUploadedVideos_resume_video
                  | apply processVideo_resume_video
                  | apply poll_tick_resume_video
                  | apply previewCamera_resume_video
                  | apply loadCameraSnapshot_resume_video
                  | apply captureSnapshot_resume_video
                  | apply addCamera_resume_video
                  | apply deleteCamera_resume_video
                  | apply deleteUploadedVideo_resume_video
                  | reflexivity ] ].
Qed.

(** Only an answer that describes an upload gives the session a video,
    and none takes it away. *)
Lemma step_video e w :
  currentVideo (this (step e w)) = currentVideo (this w)
  \/ answers_upload e = true /\ currentVideo (this (step e w)) <> None.
Proof.
  destruct e; unfold step;
    try (left;
         first [ reflexivity
               | apply previewCamera_video
               | apply captureSnapshot_video
               | apply addCamera_video
               | apply deleteCamera_video
               | apply deleteUploadedVideo_video
               | apply window_online_video
               | apply poll_tick_video
               | apply updateCameraPreviews_video ]; fail).
  - left. now rewrite uploadVideo_video, handleVideoUpload_video.
  - left. now rewrite !processVideo_video.
  - destruct (nth_error (inflight w) i) as [f|]; [|left; reflexivity].
    destruct (resume_video f s (with_inflight (remove_nth i (inflight w)) w))
      as [K|[(st & tx & r & ok & E) K]].
    + left. destruct f; first [exact K | reflexivity].
    + right. split; [subst s; reflexivity|]. destruct f; exact K.
  - left. destruct (nth_error (inflight w) i) as [[]|]; try reflexivity.
    destruct (List.length got =? List.length cams); [|reflexivity].
    now rewrite updateCameraPreviews_resume_video.
  - left. destruct (nth_error (timers w) i) as [[ms cb]|]; [|reflexivity].
    now rewrite run_callback_video.
  - left. destruct (el_videosGrid (page (loadCameras w)));
      now rewrite ?loadVideos_video, loadCameras_video.
  - left. destruct (cameraStream_onerror (streamUi (ui w))); reflexivity.
  - left. destruct (cameraStream_onerror (streamUi (ui w))); reflexivity.
  - left. destruct (cameraStream_onerror (streamUi (ui w))); [|reflexivity].
    unfold cameraStream_onerror_handler. now rewrite loadCameraSnapshot_video.
Qed.

(** *** A session without a video *)

Lemma unprocessed_kept w w' :
  poller_view w' = poller_view w -> processing_view w' = processing_view w ->
  unprocessed w -> unprocessed w'.
Proof.
  unfold poller_view, processing_view, unprocessed.
  intros P G. injection P as J _ _ S M _. injection G as I _.
  now rewrite J, S, M, I.
Qed.

Lemma unprocessed_core w w' : core_view w' = core_view w -> unprocessed w -> unprocessed w'.
Proof.
  intros C. apply unprocessed_kept; [now apply core_poller|].
  now apply guards_processing, core_guards.
Qed.

Lemma unprocessed_remove i f w :
  nth_error (inflight w) i = Some f ->
  unprocessed w -> unprocessed (with_inflight (remove_nth i (inflight w)) w).
Proof.
  intros H (S & M & J & I). repeat split; try assumption.
  unfold submitting in *. cbn [inflight with_inflight].
  pose proof (count_remove_nth is_submission i (inflight w) f H). lia.
Qed.

(** Without a video both listeners of the Process button turn the click
    away. *)
Lemma processVideo_without_video w :
  currentVideo (this w) = None -> isProcessing (this w) = false ->
  processVideo w
  = set_isProcessing false
      (showNotification "Please upload a video first" "error" (set_isProcessing true w)).
Proof. intros V I. unfold processVideo. rewrite I. cbn. now rewrite V. Qed.

Lemma processVideo_unprocessed w :
  currentVideo (this w) = None -> unprocessed w -> unprocessed (processVideo w).
Proof.
  intros V (S & M & J & I). rewrite (processVideo_without_video w V I).
  repeat split; assumption.
Qed.

Lemma no_job_no_tick j random w : jobs w = [] -> poll_tick j random w = w.
Proof. intros J. unfold poll_tick. rewrite J. now destruct j. Qed.

Lemma no_job_no_probe j s w : jobs w = [] -> poll_tick_resume j s w = w.
Proof. intros J. unfold poll_tick_resume. rewrite J. now destruct j. Qed.

Lemma no_job_no_deadline j w : jobs w = [] -> poll_deadline j w = w.
Proof. intros J. unfold poll_deadline. rewrite J. now destruct j. Qed.

Lemma run_callback_unprocessed cb w : unprocessed w -> unprocessed (run_callback cb w).
Proof.
  intros U. destruct cb; unfold run_callback.
  - split_cases; try exact U; eapply unprocessed_core; try exact U;
      first [apply loadCameras_core | apply loadVideos_core | apply loadUploadedVideos_core].
  - eapply unprocessed_core; [apply hideProgressRow_core|exact U].
  - destruct U as (S & M & J & I). rewrite (no_job_no_deadline _ _ J).
    repeat split; assumption.
  - eapply unprocessed_core; [apply updateCameraPreviews_core|exact U].
Qed.

Lemma resume_unprocessed f s w :
  is_submission f = false -> unprocessed w -> unprocessed (resume f s w).
Proof.
  intros F U. destruct (bystander_frame f) eqn:B.
  { eapply unprocessed_core; [now apply resume_core|exact U]. }
  destruct f as [ | | [|] | | | | j | | | | | | | ]; try discriminate; cbn [resume].
  - eapply unprocessed_kept; [apply loadCameras_resume_poller| |exact U].
    apply guards_processing, loadCameras_resume_guards.
  - eapply unprocessed_kept; [apply loadVideos_resume_poller| |exact U].
    apply guards_processing, loadVideos_resume_guards.
  - eapply unprocessed_kept; [apply awaited_loadUploadedVideos_resume_poller| |exact U].
    apply awaited_loadUploadedVideos_resume_processing.
  - eapply unprocessed_kept; [apply loadUploadedVideos_resume_poller| |exact U].
    apply guards_processing, loadUploadedVideos_resume_guards.
  - eapply unprocessed_kept; [apply handleVideoUpload_resume_poller| |exact U].
    apply handleVideoUpload_resume_processing.
  - destruct U as (S & M & J & I). rewrite (no_job_no_probe _ _ _ J).
    repeat split; assumption.
Qed.

Lemma step_unprocessed e w :
  currentVideo (this w) = None -> unprocessed w -> unprocessed (step e w).
Proof.
  intros V U. destruct (bystander e) eqn:B.
  { eapply unprocessed_core; [now apply step_core|exact U]. }
  destruct e; try discriminate; unfold step.
  - eapply unprocessed_kept; [| |exact U].
    + now rewrite (core_poller _ _ (uploadVideo_core _)), handleVideoUpload_poller.
    + now rewrite (guards_processing _ _ (core_guards _ _ (uploadVideo_core _))),
        handleVideoUpload_processing.
  - apply processVideo_unprocessed; [now rewrite processVideo_video|].
    now apply processVideo_unprocessed.
  - destruct (nth_error (inflight w) i) as [f|] eqn:Hf; [|exact U].
    pose proof (unprocessed_remove i f w Hf U) as U'.
    destruct (is_submission f) eqn:F.
    + exfalso. destruct U as (_ & M & _). unfold submitting in M.
      pose proof (count_remove_nth is_submission i (inflight w) f Hf) as C.
      rewrite F in C. lia.
    + pose proof (resume_unprocessed f s _ F U') as R.
      destruct f; first [exact R | exact U].
  - destruct (nth_error (inflight w) i) as [[]|] eqn:Hf; try exact U.
    destruct (List.length got =? List.length cams); [|exact U].
    eapply unprocessed_core; [apply updateCameraPreviews_resume_core|].
    now apply (unprocessed_remove i _ w Hf).
  - destruct (nth_error (timers w) i) as [[ms cb]|]; [|exact U].
    apply run_callback_unprocessed. exact U.
  - destruct U as (S & M & J & I). rewrite (no_job_no_tick _ _ _ J).
    repeat split; assumption.
Qed.

Lemma boot_unprocessed p : currentVideo (this (boot p)) = None /\ unprocessed (boot p).
Proof.
  unfold boot, loadCameras, loadVideos, loadUploadedVideos.
  split_cases; repeat split; reflexivity.
Qed.

Lemma run_unprocessed evs :
  forall w, (currentVideo (this w) = None -> unprocessed w) ->
            currentVideo (this (run evs w)) = None -> unprocessed (run evs w).
Proof.
  induction evs as [|e evs IH]; intros w K; [exact K|].
  change (run (e :: evs) w) with (run evs (step e w)). apply IH.
  intros V. destruct (step_video e w) as [E|[_ N]]; [|contradiction].
  rewrite E in V. apply step_unprocessed; auto.
Qed.

Lemma run_without_answer evs :
  forall w, forallb (fun e => negb (answers_upload e)) evs = true ->
            currentVideo (this (run evs w)) = currentVideo (this w).
Proof.
  induction evs as [|e evs IH]; intros w H; [reflexivity|].
  cbn [forallb] in H. apply andb_true_iff in H. destruct H as [He H].
  apply negb_true_iff in He.
  change (run (e :: evs) w) with (run evs (step e w)). rewrite (IH _ H).
  destruct (step_video e w) as [E|[A _]]; [exact E|congruence].
Qed.

(** X12.  A session sends no request to process a video before an
    answer to an upload has described one: as long as [currentVideo] is
    unset (which it is as long as no answer has carried an upload reply)
    no processing request has been sent or is pending and no job polls;
    a click on Process then gets "Please upload a video first" from each
    of the two listeners of the button, and leaves the guard down. *)
Theorem processing_needs_an_upload (p : Page) (evs : list Event) :
  let w := run evs (boot p) in
  (forallb (fun e => negb (answers_upload e)) evs = true ->
   currentVideo (this w) = None)
  /\ (currentVideo (this w) = None ->
      submissions w = 0 /\ submitting w = 0 /\ jobs w = []
      /\ out (step ClickProcess w)
         = Notification "Please upload a video first" "error"
           :: Notification "Please upload a video first" "error" :: out w
      /\ inflight (step ClickProcess w) = inflight w
      /\ isProcessing (this (step ClickProcess w)) = false).
Proof.
  intros w. destruct (boot_unprocessed p) as [V0 U0]. split.
  - intros H. unfold w. now rewrite run_without_answer.
  - intros V.
    assert (unprocessed w) as U by (apply run_unprocessed; auto).
    pose proof U as (S & M & J & I).
    split; [exact S|]. split; [exact M|]. split; [exact J|].
    unfold step. rewrite (processVideo_without_video w V I).
    rewrite processVideo_without_video by first [exact V | reflexivity].
    repeat split; reflexivity.
Qed.

Lemma processing_needs_an_upload_witness :
  let evs := load_events
             ++ [ChooseFile (Some clip); Submit; Settle 0 unreachable; ClickProcess] in
  let w := run evs (boot dashboard) in
  forallb (fun e => negb (answers_upload e)) evs = true
  /\ submissions w = 0
  /\ isProcessing (this (step ClickProcess w)) = false.
Proof.
  intros evs w. split; [reflexivity|].
  destruct (processing_needs_an_upload dashboard evs) as [V K].
  destruct (K (V eq_refl)) as (S & _ & _ & _ & _ & I).
  split; [exact S|exact I].
Defined.

(** ** Formatting *)

(** *** Decimal numerals *)

Lemma to_uint_nonnil n : Nat.to_uint n <> Decimal.Nil.
Proof.
  rewrite <- (DecimalNat.Unsigned.of_to n) at 1. rewrite DecimalNat.Unsigned.to_of.
  apply DecimalFacts.unorm_nonnil.
Qed.

Lemma show_nat_inj n m : show_nat n = show_nat m -> n = m.
Proof.
  unfold show_nat. intros H. apply DecimalNat.Unsigned.to_uint_inj.
  assert (Some (Nat.to_uint n) = Some (Nat.to_uint m)) as E; [|now injection E].
  rewrite <- (NilZero.usu (Nat.to_uint n)) by apply to_uint_nonnil.
  rewrite <- (NilZero.usu (Nat.to_uint m)) by apply to_uint_nonnil.
  now rewrite H.
Qed.

Lemma show_Z_of_nat n : show_Z (Z.of_nat n) = show_nat n.
Proof.
  destruct n as [|n]; [reflexivity|].
  cbn [Z.of_nat show_Z]. now rewrite SuccNat2Pos.id_succ.
Qed.

(** The numerals of the numbers below 100. *)
Lemma show_nat_digit n : n < 10 -> String.length (show_nat n) = 1.
Proof.
  intros H. do 10 (destruct n as [|n]; [reflexivity|]). lia.
Qed.

Lemma show_nat_two_digits n : 10 <= n < 100 -> String.length (show_nat n) = 2.
Proof.
  intros [L H]. do 10 (destruct n as [|n]; [lia|]).
  do 90 (destruct n as [|n]; [reflexivity|]). lia.
Qed.

Lemma show_Z_nonneg z : (0 <= z)%Z -> show_Z z = show_nat (Z.to_nat z).
Proof. intros H. rewrite <- (Z2Nat.id z H) at 1. apply show_Z_of_nat. Qed.

(** *** Strings *)

Lemma length_append (s t : string) :
  String.length (s ++ t) = String.length s + String.length t.
Proof. induction s as [|c s IH]; cbn; auto. Qed.

Lemma append_inj (s1 s2 t1 t2 : string) :
  String.length s1 = String.length s2 ->
  (s1 ++ t1)%string = (s2 ++ t2)%string -> s1 = s2 /\ t1 = t2.
Proof.
  revert s2. induction s1 as [|c s1 IH]; intros [|d s2] L E; cbn in *; try discriminate.
  - auto.
  - injection E as -> E. destruct (IH s2) as [-> ->]; auto.
Qed.

Lemma String_inj c (s t : string) : String c s = String c t -> s = t.
Proof. intros H. now injection H. Qed.

(** *** Floors *)

Lemma Qfloor_div_60 x : Qfloor (x / 60) = (Qfloor x / 60)%Z.
Proof.
  destruct x as [a d]. unfold Qdiv, Qinv, Qmult, Qfloor. cbn [Qnum Qden].
  rewrite Z.mul_1_r, Pos2Z.inj_mul, Z.div_div; lia.
Qed.

Lemma Qtrunc_div_60 x : (0 <= x)%Q -> Qtrunc (x / 60) = (Qfloor x / 60)%Z.
Proof.
  intros H. rewrite <- Qfloor_div_60.
  destruct x as [a d]. unfold Qle in H. cbn [Qnum Qden] in H.
  unfold Qtrunc, Qdiv, Qinv, Qmult, Qfloor. cbn [Qnum Qden].
  apply Z.quot_div_nonneg; lia.
Qed.

(** *** Durations *)

(** For a duration that is not negative the result is made of the whole
    seconds alone. *)
Lemma formatDuration_parts seconds :
  (0 <= seconds)%Q ->
  formatDuration seconds
  = let n := Z.to_nat (Qfloor seconds) in
    (show_nat (n / 60) ++ ":" ++ padStart 2 "0" (show_nat (n mod 60)))%string.
Proof.
  intros H. cbv zeta.
  assert (0 <= Qfloor seconds)%Z as N.
  { rewrite <- (Qfloor_Z 0). now apply Qfloor_resp_le. }
  unfold formatDuration. destruct (Qeq_bool seconds 0) eqn:Z.
  - apply Qeq_bool_eq in Z. rewrite (Qfloor_comp _ _ Z). reflexivity.
  - assert (Qfloor (seconds / 60) = (Qfloor seconds / 60)%Z) as M by apply Qfloor_div_60.
    assert (Qfloor (js_rem seconds 60) = (Qfloor seconds mod 60)%Z) as R.
    { unfold js_rem. rewrite (Qtrunc_div_60 _ H).
      apply Qfloor_unique.
      - rewrite (Z.mod_eq (Qfloor seconds) 60) by lia.
        unfold Z.sub. rewrite inject_Z_plus, inject_Z_opp, inject_Z_mult.
        pose proof (Qfloor_le seconds). change (inject_Z 60) with 60%Q. lra.
      - rewrite (Z.mod_eq (Qfloor seconds) 60) by lia.
        unfold Z.sub. rewrite !inject_Z_plus, inject_Z_opp, inject_Z_mult.
        pose proof (Qlt_floor seconds) as U. rewrite inject_Z_plus in U.
        change (inject_Z 60) with 60%Q. change (inject_Z 1) with 1%Q in *. lra. }
    rewrite M, R.
    rewrite !show_Z_nonneg.
    + rewrite Z2Nat.inj_div, Z2Nat.inj_mod by lia. reflexivity.
    + apply Z.mod_pos_bound. lia.
    + apply Z.div_pos; lia.
Qed.

(** Reading the two characters of the seconds back. *)
Lemma padded_seconds_inj a b :
  a < 60 -> b < 60 ->
  padStart 2 "0" (show_nat a) = padStart 2 "0" (show_nat b) -> a = b.
Proof.
  intros Ha Hb E.
  set (digit := fun c => Ascii.nat_of_ascii c - 48).
  set (read := fun s => match s with
                        | String c (String d _) => 10 * digit c + digit d
                        | _ => 0
                        end).
  assert (forall k, k < 60 -> read (padStart 2 "0" (show_nat k)) = k) as R.
  { intros k Hk. do 60 (destruct k as [|k]; [reflexivity|]). lia. }
  rewrite <- (R a Ha), <- (R b Hb), E. reflexivity.
Qed.

Lemma padded_seconds_length k : k < 60 -> String.length (padStart 2 "0" (show_nat k)) = 2.
Proof. intros Hk. do 60 (destruct k as [|k]; [reflexivity|]). lia. Qed.

(** X13.  A duration that is not negative is shown as minutes, a colon
    and two digits of seconds, the fraction of a second dropped; the
    minutes are not broken into hours. *)
Theorem formatDuration_minutes_and_seconds (seconds : Q) :
  (0 <= seconds)%Q ->
  let whole := Z.to_nat (Qfloor seconds) in
  let shown_seconds := padStart 2 "0" (show_nat (whole mod 60)) in
  formatDuration seconds = (show_nat (whole / 60) ++ ":" ++ shown_seconds)%string
  /\ String.length shown_seconds = 2
  /\ formatDuration seconds = formatDuration (inject_Z (Qfloor seconds)).
Proof.
  intros H whole shown_seconds.
  assert (0 <= Qfloor seconds)%Z as N.
  { rewrite <- (Qfloor_Z 0). now apply Qfloor_resp_le. }
  split; [exact (formatDuration_parts seconds H)|].
  split; [apply padded_seconds_length, Nat.mod_upper_bound; lia|].
  rewrite (formatDuration_parts seconds H), (formatDuration_parts (inject_Z (Qfloor seconds))).
  - now rewrite Qfloor_Z.
  - change 0%Q with (inject_Z 0). now rewrite <- Zle_Qle.
Qed.

Lemma formatDuration_minutes_and_seconds_witness :
  formatDuration (7451 # 2) = "62:05" /\ formatDuration (3 # 4) = "0:00".
Proof.
  split.
  - destruct (formatDuration_minutes_and_seconds (7451 # 2)) as (E & _);
      [unfold Qle; cbn; lia|].
    rewrite E. reflexivity.
  - destruct (formatDuration_minutes_and_seconds (3 # 4)) as (E & _);
      [unfold Qle; cbn; lia|].
    rewrite E. reflexivity.
Defined.

(** X14.  Two durations of whole seconds are shown alike only if they
    are the same. *)
Theorem formatDuration_injective (n m : nat) :
  formatDuration (inject_Z (Z.of_nat n)) = formatDuration (inject_Z (Z.of_nat m)) ->
  n = m.
Proof.
  assert (forall k, (0 <= inject_Z (Z.of_nat k))%Q) as P.
  { intros k. change 0%Q with (inject_Z 0). rewrite <- Zle_Qle. lia. }
  rewrite !formatDuration_parts by apply P. cbv zeta.
  rewrite !Qfloor_Z, !Nat2Z.id. intros E.
  assert (String.length (show_nat (n / 60)) = String.length (show_nat (m / 60))) as L.
  { apply (f_equal String.length) in E. rewrite !length_append in E.
    rewrite !padded_seconds_length in E by (apply Nat.mod_upper_bound; lia).
    change (String.length ":") with 1 in E. lia. }
  destruct (append_inj _ _ _ _ L E) as [Q R].
  apply show_nat_inj in Q. apply String_inj in R.
  apply padded_seconds_inj in R; try (apply Nat.mod_upper_bound; lia).
  pose proof (Nat.div_mod_eq n 60). pose proof (Nat.div_mod_eq m 60). lia.
Qed.

Lemma formatDuration_injective_witness :
  formatDuration (inject_Z (Z.of_nat 125)) = formatDuration (inject_Z (Z.of_nat (120 + 5)))
  /\ 125 = 120 + 5.
Proof.
  split; [reflexivity|].
  apply (formatDuration_injective 125 (120 + 5)). reflexivity.
Defined.

(** ** Thumbnails *)

Lemma replace_absent (pat rep s : string) :
  String_includes pat s = false -> String_replace pat rep s = s.
Proof.
  induction s as [|c s IH]; cbn [String_includes String_replace]; intros H;
    apply orb_false_iff in H; destruct H as [P R]; rewrite P; [reflexivity|].
  now rewrite IH.
Qed.

Lemma drop_append (s t : string) : drop (String.length s) (s ++ t) = t.
Proof. induction s as [|c s IH]; cbn; auto. Qed.

Lemma prefix_append (s t : string) : prefix s (s ++ t) = true.
Proof.
  induction s as [|c s IH]; cbn [prefix append]; [now destruct t|].
  match goal with
  | |- context [Ascii.ascii_dec ?a ?b] => destruct (Ascii.ascii_dec a b)
  end; [exact IH|congruence].
Qed.

Ltac same_char :=
  match goal with
  | |- context [Ascii.ascii_dec ?a ?b] => destruct (Ascii.ascii_dec a b); [|reflexivity]
  end.

(** No occurrence of ".mp4" that starts inside [base] reaches into what
    follows it, when that begins with a dot. *)
Lemma mp4_not_astride (base rest : string) :
  String_includes ".mp4" base = false ->
  base <> EmptyString ->
  prefix ".mp4" (base ++ "." ++ rest) = false.
Proof.
  intros H N. destruct base as [|c1 base]; [congruence|].
  cbn [String_includes] in H. apply orb_false_iff in H. destruct H as [P _].
  revert P. cbn [prefix append]. same_char.
  destruct base as [|c2 base]; cbn [prefix append]; [reflexivity|]. same_char.
  destruct base as [|c3 base]; cbn [prefix append]; [reflexivity|]. same_char.
  destruct base as [|c4 base]; cbn [prefix append]; [reflexivity|]. same_char.
  now destruct base.
Qed.

Lemma replace_first_mp4 (base rest : string) :
  String_includes ".mp4" base = false ->
  String_replace ".mp4" ".jpg" (base ++ ".mp4" ++ rest) = (base ++ ".jpg" ++ rest)%string.
Proof.
  induction base as [|c base IH]; intros H.
  - cbn [append]. unfold String_replace at 1. destruct rest; reflexivity.
  - assert (String_includes ".mp4" base = false) as H'.
    { cbn [String_includes] in H. apply orb_false_iff in H. tauto. }
    change (String_replace ".mp4" ".jpg" (String c base ++ ".mp4" ++ rest))
      with (if prefix ".mp4" (String c base ++ "." ++ "mp4" ++ rest)
            then (".jpg" ++ drop 4 (String c base ++ ".mp4" ++ rest))%string
            else String c (String_replace ".mp4" ".jpg" (base ++ ".mp4" ++ rest))).
    rewrite mp4_not_astride by (auto; discriminate).
    cbn [append]. f_equal. exact (IH H').
Qed.

(** X16.  The thumbnail of a recording is asked for under the name of
    the video with its first ".mp4" turned into ".jpg": for a name that
    ends in ".mp4" and has no other, that is the name with the extension
    changed; a name without ".mp4" (an ".avi", say) is asked for as it
    is. *)
Theorem thumbnail_of_recording (base rest : string) :
  String_includes ".mp4" base = false ->
  thumbnail_src (mkVideo (base ++ ".mp4" ++ rest))
  = ("/api/thumbnails/" ++ base ++ ".jpg" ++ rest)%string
  /\ thumbnail_src (mkVideo base) = ("/api/thumbnails/" ++ base)%string.
Proof.
  intros H. unfold thumbnail_src. cbn [video_filename].
  now rewrite (replace_first_mp4 base rest H), (replace_absent _ _ _ H).
Qed.

Lemma thumbnail_of_recording_witness :
  thumbnail_src (mkVideo "gate_2024.01.05.mp4") = "/api/thumbnails/gate_2024.01.05.jpg"
  /\ thumbnail_src (mkVideo "clip.mp4.bak.mp4") = "/api/thumbnails/clip.jpg.bak.mp4"
  /\ thumbnail_src (mkVideo "yard.avi") = "/api/thumbnails/yard.avi".
Proof.
  split; [|split].
  - exact (proj1 (thumbnail_of_recording "gate_2024.01.05" "" eq_refl)).
  - exact (proj1 (thumbnail_of_recording "clip" ".bak.mp4" eq_refl)).
  - exact (proj2 (thumbnail_of_recording "yard.avi" "" eq_refl)).
Defined.

(** ** Attributes *)

Lemma getAttribute_set name value name' el :
  getAttribute name' (setAttribute name value el)
  = if String.eqb name name' then Some value else getAttribute name' el.
Proof.
  unfold getAttribute. induction el as [|[n v] el IH]; cbn [setAttribute find fst].
  - destruct (String.eqb name name'); reflexivity.
  - destruct (String.eqb n name) eqn:E; cbn [find fst].
    + apply String.eqb_eq in E. subst n.
      destruct (String.eqb name name'); reflexivity.
    + destruct (String.eqb n name') eqn:E'; [|exact IH].
      apply String.eqb_eq in E'. subst n. now rewrite String.eqb_sym, E.
Qed.

Lemma getAttribute_remove name name' el :
  getAttribute name' (removeAttribute name el)
  = if String.eqb name name' then None else getAttribute name' el.
Proof.
  unfold getAttribute, removeAttribute.
  induction el as [|[n v] el IH]; cbn [filter find fst].
  - destruct (String.eqb name name'); reflexivity.
  - destruct (String.eqb n name) eqn:E; cbn [negb find fst].
    + apply String.eqb_eq in E. subst n. rewrite IH.
      destruct (String.eqb name name'); reflexivity.
    + destruct (String.eqb n name') eqn:E'; [|exact IH].
      apply String.eqb_eq in E'. subst n. now rewrite String.eqb_sym, E.
Qed.

(** X17.  The [inert] property that the page installs where the browser
    has none reads back what was written to it and touches no attribute
    but "inert", "tabindex" and "aria-hidden"; switching it off removes
    "tabindex" and "aria-hidden" whatever they were before it was switched
    on, so a tabindex of the element's own is lost. *)
Theorem inert_property_round_trip (value : bool) (el : Attributes) (name : string) :
  inert_get (inert_set value el) = value
  /\ (In name ["inert"; "tabindex"; "aria-hidden"]
      \/ getAttribute name (inert_set value el) = getAttribute name el)
  /\ getAttribute "tabindex" (inert_set false (inert_set true el)) = None
  /\ getAttribute "aria-hidden" (inert_set false (inert_set true el)) = None.
Proof.
  split; [|split; [|split]].
  - unfold inert_get, hasAttribute, inert_set. destruct value.
    + now rewrite !getAttribute_set.
    + now rewrite !getAttribute_remove.
  - destruct (String.eqb "inert" name) eqn:E1;
      [apply String.eqb_eq in E1; left; cbn; auto|].
    destruct (String.eqb "tabindex" name) eqn:E2;
      [apply String.eqb_eq in E2; left; cbn; auto|].
    destruct (String.eqb "aria-hidden" name) eqn:E3;
      [apply String.eqb_eq in E3; left; cbn; auto|].
    right. unfold inert_set. destruct value.
    + now rewrite !getAttribute_set, E1, E2, E3.
    + now rewrite !getAttribute_remove, E1, E2, E3.
  - unfold inert_set. now rewrite !getAttribute_remove.
  - unfold inert_set. now rewrite !getAttribute_remove.
Qed.

(** ** The player and its modal *)

Lemma viewer_step_player e v : el_videoPlayer (viewer_step e v) = el_videoPlayer v.
Proof.
  destruct e; cbn [viewer_step]; unfold playVideo, playUploadedVideo, playProcessedVideo,
    videoModal_shown, videoModal_hidden;
    repeat match goal with
           | |- context [match ?x with _ => _ end] => destruct x eqn:?
           end; cbn; congruence.
Qed.

Lemma viewer_run_player evs : forall v, el_videoPlayer (viewer_run evs v) = el_videoPlayer v.
Proof.
  induction evs as [|e evs IH]; intros v; [reflexivity|].
  change (viewer_run (e :: evs) v) with (viewer_run evs (viewer_step e v)).
  now rewrite IH, viewer_step_player.
Qed.

Lemma viewer_step_listeners e v :
  el_videoPlayer v = true ->
  videoPlayer_onerror (viewer_step e v) = videoPlayer_onerror v ++ registered [e].
Proof.
  intros P.
  destruct e; cbn [viewer_step registered flat_map app];
    unfold playVideo, playUploadedVideo, playProcessedVideo, videoModal_shown,
      videoModal_hidden, videoModal_show; rewrite ?P; cbn;
    try destruct (previousActiveElement v); cbn; now rewrite ?List.app_nil_r.
Qed.

Lemma viewer_run_listeners evs :
  forall v, el_videoPlayer v = true ->
            videoPlayer_onerror (viewer_run evs v) = videoPlayer_onerror v ++ registered evs.
Proof.
  induction evs as [|e evs IH]; intros v P; [now rewrite List.app_nil_r|].
  change (viewer_run (e :: evs) v) with (viewer_run evs (viewer_step e v)).
  rewrite IH by now rewrite viewer_step_player.
  rewrite viewer_step_listeners by exact P.
  rewrite <- app_assoc. f_equal. unfold registered. cbn [flat_map]. now rewrite List.app_nil_r.
Qed.

(** X18.  Every play of an uploaded or of a processed video adds an
    error listener to the one player and none is ever removed: when the
    player fails to load a video, the user gets one notification for each
    such play since the page was loaded, in their order, not one. *)
Theorem error_listeners_pile_up (v : Viewer) (evs : list ViewerEvent) :
  el_videoPlayer v = true ->
  videoPlayer_onerror v = [] ->
  let v' := viewer_run evs v in
  videoPlayer_onerror v' = registered evs
  /\ viewer_out (viewer_step PlayerError v')
     = rev (map (fun message => Notification message "error") (registered evs))
       ++ viewer_out v'.
Proof.
  intros P L v'.
  assert (videoPlayer_onerror v' = registered evs) as E
      by (unfold v'; now rewrite viewer_run_listeners, L).
  split; [exact E|].
  cbn [viewer_step]. unfold videoPlayer_error, viewer_emit. cbn [viewer_out].
  now rewrite E.
Qed.

Lemma error_listeners_pile_up_witness :
  let evs := [ClickPlayUploaded "clip.mp4"; ModalShow; ModalShown; ModalHide; ModalHidden;
              ClickPlay "gate_1.mp4"; ClickPlayProcessed "processed_clip.mp4";
              ClickPlayUploaded "clip.mp4"] in
  viewer_out (viewer_step PlayerError (viewer_run evs library_viewer))
  = [Notification "Error loading video. Please try again." "error";
     Notification "Error loading processed video. Please try again." "error";
     Notification "Error loading video. Please try again." "error"].
Proof.
  intros evs.
  destruct (error_listeners_pile_up library_viewer evs eq_refl eq_refl) as [_ E].
  rewrite E. reflexivity.
Defined.

(** *** Closing the modal *)

Lemma viewer_step_previous e v :
  is_ModalShow e = false ->
  previousActiveElement (viewer_step e v) = previousActiveElement v.
Proof.
  destruct e; try discriminate; intros _; cbn [viewer_step];
    unfold playVideo, playUploadedVideo, playProcessedVideo, videoModal_shown,
      videoModal_hidden, videoModal_hide;
    destruct (el_videoPlayer v); cbn; try reflexivity;
    destruct (previousActiveElement v) eqn:E; cbn; congruence.
Qed.

Lemma viewer_run_previous evs :
  forall v, forallb (fun e => negb (is_ModalShow e)) evs = true ->
            previousActiveElement (viewer_run evs v) = previousActiveElement v.
Proof.
  induction evs as [|e evs IH]; intros v H; [reflexivity|].
  cbn [forallb] in H. apply andb_true_iff in H. destruct H as [He H].
  apply negb_true_iff in He.
  change (viewer_run (e :: evs) v) with (viewer_run evs (viewer_step e v)).
  now rewrite IH, viewer_step_previous.
Qed.

Lemma viewer_run_app evs1 evs2 v :
  viewer_run (evs1 ++ evs2) v = viewer_run evs2 (viewer_run evs1 v).
Proof. unfold viewer_run. apply fold_left_app. Qed.

(** X19.  From the moment the modal opens to the moment it has closed,
    whatever is played, focused or failing in between: when it has closed
    the focus is back on the element that had it when the modal opened,
    the modal carries no "inert" attribute, and the player, if the page
    has one, is paused at 0 with an empty source. *)
Theorem modal_close_restores (v : Viewer) (evs : list ViewerEvent) :
  forallb (fun e => negb (is_ModalShow e)) evs = true ->
  activeElement v <> None ->
  let v' := viewer_run (ModalShow :: evs ++ [ModalHidden]) v in
  activeElement v' = activeElement v
  /\ hasAttribute "inert" (videoModal v') = false
  /\ (el_videoPlayer v = true ->
      videoPlayer_src v' = EmptyString /\ videoPlayer_paused v' = true
      /\ (videoPlayer_currentTime v' == 0)%Q).
Proof.
  intros H A v'.
  set (v1 := viewer_run evs (viewer_step ModalShow v)).
  assert (v' = viewer_step ModalHidden v1) as E.
  { unfold v', v1. change (viewer_run (ModalShow :: evs ++ [ModalHidden]) v)
      with (viewer_run (evs ++ [ModalHidden]) (viewer_step ModalShow v)).
    now rewrite viewer_run_app. }
  assert (previousActiveElement v1 = activeElement v) as P.
  { unfold v1. now rewrite viewer_run_previous. }
  assert (el_videoPlayer v1 = el_videoPlayer v) as Q.
  { unfold v1. now rewrite viewer_run_player, viewer_step_player. }
  rewrite E. cbn [viewer_step]. unfold videoModal_hidden.
  destruct (activeElement v) as [a|] eqn:Av; [|congruence].
  destruct (el_videoPlayer v1) eqn:Pl;
    cbn [previousActiveElement with_videoModal with_videoPlayer]; rewrite P;
    cbn [activeElement with_focus videoModal with_videoModal with_videoPlayer
         el_videoPlayer videoPlayer_src videoPlayer_paused videoPlayer_currentTime].
  - split; [reflexivity|]. split.
    + unfold hasAttribute. now rewrite getAttribute_remove.
    + intros _. repeat split; reflexivity.
  - split; [reflexivity|]. split.
    + unfold hasAttribute. now rewrite getAttribute_remove.
    + congruence.
Qed.

Lemma modal_close_restores_witness :
  let evs := [ModalShown; FocusMoved (Some "volume"); PlayerError; ModalHide] in
  let v := viewer_step (ClickPlayUploaded "clip.mp4") library_viewer in
  let v' := viewer_run (ModalShow :: evs ++ [ModalHidden]) v in
  activeElement v' = Some "play-7" /\ videoPlayer_src v' = EmptyString.
Proof.
  intros evs v v'.
  destruct (modal_close_restores v evs eq_refl) as (A & _ & P).
  - discriminate.
  - split; [exact A|]. now apply P.
Defined.
